(** * StorageManagementSystem: folder tree and quota ledger

    A shallow embedding of the route handlers of the storage back end
    ([backend/routes/folders.js], [backend/routes/files.js]) and of the
    model methods they call ([folderSchema.methods.getFullPath],
    [userSchema.methods.hasEnoughStorage]), with the properties of the
    hierarchical-resource bookkeeping stated and proved over them.

    Conventions.
    - JavaScript strings are [string]; only code units below 256 occur in
      the characters the handlers inspect (['/'], ['$'], the regular
      expression metacharacters).
    - Byte counts ([size], [storageUsed], [storageLimit]) are JavaScript
      numbers holding integers; they are [Z] here, which is exact below
      2^53.
    - A MongoDB collection is the list of its documents; an ObjectId is a
      natural number handed out by a counter that never goes back.
    - Every handler is modelled from the point where the [auth] middleware
      has loaded [req.user] and the express-validator chain has accepted
      the body. *)

From Stdlib Require Import List String Ascii Bool Arith ZArith Lia.
From Stdlib Require Import DecimalString DecimalNat FinFun.
Import ListNotations.

Local Open Scope list_scope.
Local Open Scope string_scope.

(** ** JavaScript string primitives used by the handlers *)

Module JsString.

(** [s.startsWith(p)] *)
Definition startsWith (s p : string) : bool := String.prefix p s.

(** [s.includes(sub)] *)
Fixpoint includes (s sub : string) : bool :=
  if String.prefix sub s then true
  else match s with
       | EmptyString => false
       | String _ s' => includes s' sub
       end.

(** [s.split('/')]: never empty; the empty string gives one empty part. *)
Fixpoint split (sep : ascii) (s : string) : list string :=
  match s with
  | EmptyString => [EmptyString]
  | String c s' =>
      if Ascii.eqb c sep then EmptyString :: split sep s'
      else match split sep s' with
           | [] => [String c EmptyString]
           | h :: t => String c h :: t
           end
  end.

(** [parts.join('/')] *)
Definition join (sep : string) (parts : list string) : string :=
  String.concat sep parts.

(** [parts[parts.length - 1] = x] on an array. On the empty array the
    assignment creates the property ["-1"], which [join] ignores. *)
Fixpoint set_last (parts : list string) (x : string) : list string :=
  match parts with
  | [] => []
  | [_] => [x]
  | p :: rest => p :: set_last rest x
  end.

(** [parts.slice(0, -1)] *)
Definition slice_init (parts : list string) : list string := removelast parts.

Fixpoint drop (n : nat) (s : string) : string :=
  match n, s with
  | O, _ => s
  | S _, EmptyString => EmptyString
  | S k, String _ s' => drop k s'
  end.

(** The first occurrence of [pat] in [s] ([s.indexOf(pat)]), given as
    the text before it and the text after it. *)
Fixpoint cut_first (pat s : string) : option (string * string) :=
  if String.prefix pat s then Some (EmptyString, drop (String.length pat) s)
  else match s with
       | EmptyString => None
       | String c s' =>
           match cut_first pat s' with
           | Some (before, after) => Some (String c before, after)
           | None => None
           end
       end.

(** ECMAScript GetSubstitution for a string pattern (no captures): in
    the replacement text [$$] is a dollar sign, [$&] the matched text,
    [$`] the text before the match, [$'] the text after it; any other
    dollar sign, [$1] included, stays as written. *)
Fixpoint getSubstitution (matched before after repl : string) : string :=
  match repl with
  | EmptyString => EmptyString
  | String "$" (String "$" r) => String "$" (getSubstitution matched before after r)
  | String "$" (String "&" r) => matched ++ getSubstitution matched before after r
  | String "$" (String "`" r) => before ++ getSubstitution matched before after r
  | String "$" (String "'" r) => after ++ getSubstitution matched before after r
  | String c r => String c (getSubstitution matched before after r)
  end.

(** [s.replace(pat, repl)] with a string pattern: the first occurrence
    only, the replacement text expanded by [getSubstitution]. *)
Definition replace (s pat repl : string) : string :=
  match cut_first pat s with
  | None => s
  | Some (before, after) =>
      before ++ getSubstitution pat before after repl ++ after
  end.

(** Template interpolation of a counter, [`${counter}`]. *)
Definition of_nat (n : nat) : string :=
  NilEmpty.string_of_uint (Nat.to_uint n).

(** Truthiness of a possibly absent string: [undefined] and the empty
    string are falsy. *)
Definition truthy (o : option string) : bool :=
  match o with
  | Some s => negb (String.eqb s EmptyString)
  | None => false
  end.

End JsString.

(** ** The fragment of MongoDB's [$regex] the rename handler can reach

    [Folder.find({ path: { $regex: `^${oldPath}/` } })] hands the stored
    path to the server's PCRE engine as pattern text. The model interprets
    the fragment made of ordinary characters, the wildcard [.] (any
    character but a line feed) and balanced groups [( )]. A pattern with an
    unbalanced parenthesis is rejected by the server ([Invalid]); a pattern
    using any other metacharacter is outside the fragment
    ([Unsupported]). *)

Module Regex.

Inductive atom := Lit (c : ascii) | AnyChar.

Inductive compiled :=
| Pattern (atoms : list atom)
| Invalid
| Unsupported.

Definition backslash : ascii := ascii_of_nat 92.

(** Metacharacters the fragment does not interpret. *)
Definition other_meta (c : ascii) : bool :=
  existsb (Ascii.eqb c)
    (backslash :: ["^"; "$"; "["; "]"; "{"; "}"; "|"; "*"; "+"; "?"]%char).

Definition cons_atom (a : atom) (r : compiled) : compiled :=
  match r with
  | Pattern atoms => Pattern (a :: atoms)
  | Invalid => Invalid
  | Unsupported => Unsupported
  end.

(** [depth] counts the groups that are open. *)
Fixpoint compile (depth : nat) (s : string) : compiled :=
  match s with
  | EmptyString => if Nat.eqb depth 0 then Pattern [] else Invalid
  | String c s' =>
      if Ascii.eqb c "(" then compile (S depth) s'
      else if Ascii.eqb c ")" then
        match depth with
        | O => Invalid
        | S d => compile d s'
        end
      else if Ascii.eqb c "." then cons_atom AnyChar (compile depth s')
      else if other_meta c then Unsupported
      else cons_atom (Lit c) (compile depth s')
  end.

Definition atom_matches (a : atom) (c : ascii) : bool :=
  match a with
  | Lit x => Ascii.eqb x c
  | AnyChar => negb (Ascii.eqb c "010")
  end.

Fixpoint match_here (atoms : list atom) (s : string) : bool :=
  match atoms with
  | [] => true
  | a :: rest =>
      match s with
      | EmptyString => false
      | String c s' => atom_matches a c && match_here rest s'
      end
  end.

(** Characters that stand for themselves in a pattern. *)
Definition ordinary (c : ascii) : bool :=
  negb (Ascii.eqb c "(" || Ascii.eqb c ")" || Ascii.eqb c "." || other_meta c).

Fixpoint plain (s : string) : bool :=
  match s with
  | EmptyString => true
  | String c s' => ordinary c && plain s'
  end.

(** The pattern that matches the text [s] letter by letter. *)
Definition literal (s : string) : list atom :=
  map Lit (list_ascii_of_string s).

End Regex.

Module RegexQuery.
Import Regex.

Fixpoint search (atoms : list atom) (s : string) : bool :=
  match_here atoms s ||
  match s with
  | EmptyString => false
  | String _ s' => search atoms s'
  end.

(** What the server makes of [{ $regex: pattern }]: a predicate on the
    subject, anchored at its start when the pattern opens with [^]. *)
Inductive verdict :=
| Accepts (test : string -> bool)
| Rejected
| OutsideFragment.

Definition of_compiled (run : list atom -> string -> bool) (c : compiled) : verdict :=
  match c with
  | Pattern atoms => Accepts (run atoms)
  | Invalid => Rejected
  | Unsupported => OutsideFragment
  end.

Definition regex (pattern : string) : verdict :=
  match pattern with
  | String "^" rest => of_compiled match_here (compile 0 rest)
  | _ => of_compiled search (compile 0 pattern)
  end.

End RegexQuery.

(** ** Documents *)

Definition Id := nat.

Definition same_ref (a b : option Id) : bool :=
  match a, b with
  | None, None => true
  | Some x, Some y => Nat.eqb x y
  | _, _ => false
  end.

(** [models/User.js]: the fields of the quota ledger. *)
Module User.
Record t := mk {
  _id : Id;
  storageUsed : Z;
  storageLimit : Z
}.

Definition set_storageUsed (u : t) (n : Z) : t :=
  mk (_id u) n (storageLimit u).

(** [userSchema.methods.hasEnoughStorage] *)
Definition hasEnoughStorage (u : t) (fileSize : Z) : bool :=
  (storageUsed u + fileSize <=? storageLimit u)%Z.
End User.

(** [models/Folder.js]. [size], [itemCount] and the timestamps are written
    once with their defaults and never read by a handler; they are left
    out. *)
Module Folder.
Record t := mk {
  _id : Id;
  name : string;
  description : option string;
  owner : Id;
  parentFolder : option Id;
  path : string;
  isFavorite : bool;
  color : string
}.

Definition set_name (f : t) (x : string) : t :=
  mk (_id f) x (description f) (owner f) (parentFolder f) (path f) (isFavorite f) (color f).
Definition set_description (f : t) (x : option string) : t :=
  mk (_id f) (name f) x (owner f) (parentFolder f) (path f) (isFavorite f) (color f).
Definition set_path (f : t) (x : string) : t :=
  mk (_id f) (name f) (description f) (owner f) (parentFolder f) x (isFavorite f) (color f).
Definition set_isFavorite (f : t) (x : bool) : t :=
  mk (_id f) (name f) (description f) (owner f) (parentFolder f) (path f) x (color f).
Definition set_color (f : t) (x : string) : t :=
  mk (_id f) (name f) (description f) (owner f) (parentFolder f) (path f) (isFavorite f) x.
End Folder.

Inductive FileType := image | pdf | document | other.

(** The File model as the routes use it: the fields written by upload and
    duplicate and read by delete. [url], [tags] and [description] take no
    part in the bookkeeping and are left out. *)
Module File.
Record t := mk {
  _id : Id;
  name : string;
  originalName : string;
  type : FileType;
  mimeType : string;
  size : Z;
  path : string;
  owner : Id;
  folder : option Id
}.
End File.

(** [models/Note.js], reduced to what the folder handlers query. *)
Module Note.
Record t := mk {
  _id : Id;
  owner : Id;
  folder : option Id
}.
End Note.

(** One entry of [req.files] as multer leaves it. *)
Module Upload.
Record t := mk {
  filename : string;
  originalname : string;
  mimetype : string;
  size : Z;
  path : string
}.
End Upload.

(** The state a request runs against: the authenticated user's document,
    the three collections, the paths present in the upload directory and
    the ObjectId counter. *)
Record World := mkWorld {
  user : User.t;
  folders : list Folder.t;
  files : list File.t;
  notes : list Note.t;
  disk : list string;
  next_oid : Id
}.

Definition with_user (w : World) (u : User.t) : World :=
  mkWorld u (folders w) (files w) (notes w) (disk w) (next_oid w).
Definition with_folders (w : World) (l : list Folder.t) : World :=
  mkWorld (user w) l (files w) (notes w) (disk w) (next_oid w).
Definition with_files (w : World) (l : list File.t) : World :=
  mkWorld (user w) (folders w) l (notes w) (disk w) (next_oid w).
Definition with_notes (w : World) (l : list Note.t) : World :=
  mkWorld (user w) (folders w) (files w) l (disk w) (next_oid w).
Definition with_disk (w : World) (l : list string) : World :=
  mkWorld (user w) (folders w) (files w) (notes w) l (next_oid w).

(** [new Model(...)] draws the next ObjectId. *)
Definition fresh_oid (w : World) : Id * World :=
  (next_oid w,
   mkWorld (user w) (folders w) (files w) (notes w) (disk w) (S (next_oid w))).

(** The failures a handler reports, with the status it sends: [NotFound]
    and [ParentNotFound] 404; [DuplicateName], [QuotaExceeded], [NotEmpty]
    and [NoFilesUploaded] 400; [ServerError] 500 (the [catch] branch). *)
Inductive Error :=
| NotFound
| ParentNotFound
| DuplicateName
| QuotaExceeded
| NotEmpty (itemCount : nat)
| NoFilesUploaded
| ServerError.

Inductive Result (A : Type) :=
| Ok (payload : A)
| Fail (e : Error).
Arguments Ok {A} payload.
Arguments Fail {A} e.

(** ** Queries on the Folder collection *)

Module FolderQuery.

(** [Folder.findById(id)] *)
Definition findById (l : list Folder.t) (id : Id) : option Folder.t :=
  find (fun f => Nat.eqb (Folder._id f) id) l.

(** [Folder.findOne({ _id: id, owner: uid })] *)
Definition findOwned (l : list Folder.t) (id uid : Id) : option Folder.t :=
  find (fun f => Nat.eqb (Folder._id f) id && Nat.eqb (Folder.owner f) uid) l.

(** The filter [{ name, owner, parentFolder }] of the collision checks. *)
Definition is_sibling_named (nm : string) (uid : Id) (parent : option Id)
           (f : Folder.t) : bool :=
  String.eqb (Folder.name f) nm && Nat.eqb (Folder.owner f) uid
  && same_ref (Folder.parentFolder f) parent.

(** The filter [{ parentFolder: id, owner: uid }]. *)
Definition is_child_of (id uid : Id) (f : Folder.t) : bool :=
  same_ref (Folder.parentFolder f) (Some id) && Nat.eqb (Folder.owner f) uid.

(** [doc.save()] of a loaded document: the stored document with that
    [_id] is replaced. *)
Definition save (doc : Folder.t) (l : list Folder.t) : list Folder.t :=
  map (fun f => if Nat.eqb (Folder._id f) (Folder._id doc) then doc else f) l.

(** [Folder.findByIdAndDelete(id)] *)
Definition deleteById (id : Id) (l : list Folder.t) : list Folder.t :=
  filter (fun f => negb (Nat.eqb (Folder._id f) id)) l.

(** Whether the document [g] is, by its [_id], among [subs]. *)
Definition among (subs : list Folder.t) (g : Folder.t) : bool :=
  existsb (fun s => Nat.eqb (Folder._id s) (Folder._id g)) subs.

End FolderQuery.

(** ** [models/Folder.js]: [getFullPath]

    The method calls itself on the parent document; [fuel] bounds the
    number of calls. [None] means no value came back: the fuel ran out, or
    [findById] answered [null] and reading [parent.getFullPath] threw. *)

Fixpoint getFullPath (fuel : nat) (l : list Folder.t) (this : Folder.t)
  : option string :=
  match fuel with
  | O => None
  | S k =>
      match Folder.parentFolder this with
      | None => Some (Folder.name this)
      | Some p =>
          match FolderQuery.findById l p with
          | None => None
          | Some parent =>
              match getFullPath k l parent with
              | Some parentPath => Some (parentPath ++ "/" ++ Folder.name this)
              | None => None
              end
          end
      end
  end.

(** ** [routes/folders.js] *)

Module Folders.
Import JsString FolderQuery.

Definition default_color : string := "#3B82F6".

(** [POST /]: create a folder. *)
Definition create (name : string) (description : option string)
           (parentFolder : option Id) (color : option string) (w : World)
  : Result Folder.t * World :=
  let uid := User._id (user w) in
  if existsb (is_sibling_named name uid parentFolder) (folders w)
  then (Fail DuplicateName, w)
  else
    let persist (path : string) :=
      let (oid, w1) := fresh_oid w in
      let folder :=
        Folder.mk oid name description uid parentFolder path false
                  (match color with
                   | Some c => if truthy color then c else default_color
                   | None => default_color
                   end) in
      (Ok folder, with_folders w1 (folders w1 ++ [folder])%list) in
    match parentFolder with
    | None => persist name
    | Some p =>
        match findOwned (folders w) p uid with
        | None => (Fail ParentNotFound, w)
        | Some parent => persist (Folder.path parent ++ "/" ++ name)
        end
    end.

(** The assignments under the comment "Update folder fields". *)
Definition assign_fields (name description color : option string)
           (isFavorite : option bool) (folder : Folder.t) : Folder.t :=
  let folder :=
    match name with
    | Some n => if truthy name then Folder.set_name folder n else folder
    | None => folder
    end in
  let folder :=
    match description with
    | Some d => Folder.set_description folder (Some d)
    | None => folder
    end in
  let folder :=
    match color with
    | Some c => if truthy color then Folder.set_color folder c else folder
    | None => folder
    end in
  match isFavorite with
  | Some b => Folder.set_isFavorite folder b
  | None => folder
  end.

(** The body of [for (const subfolder of subfolders)]: each document found
    gets its path rewritten and is saved. *)
Definition rewrite_subfolders (oldPath newPath : string)
           (subfolders : list Folder.t) (l : list Folder.t) : list Folder.t :=
  fold_left
    (fun acc subfolder =>
       save (Folder.set_path subfolder
                             (replace (Folder.path subfolder) oldPath newPath))
            acc)
    subfolders l.

(** [PUT /:id]: update a folder, renaming it when [name] is given and
    differs. [None]: the path pattern is outside the modelled fragment of
    the regular expression language. *)
Definition update (id : Id) (name description color : option string)
           (isFavorite : option bool) (w : World)
  : option (Result Folder.t * World) :=
  let uid := User._id (user w) in
  match findOwned (folders w) id uid with
  | None => Some (Fail NotFound, w)
  | Some folder =>
      let finish (folder : Folder.t) (l : list Folder.t) :=
        let folder := assign_fields name description color isFavorite folder in
        (Ok folder, with_folders w (save folder l)) in
      match name with
      | Some n =>
          if truthy name && negb (String.eqb n (Folder.name folder)) then
            if existsb
                 (fun f => is_sibling_named n uid (Folder.parentFolder folder) f
                           && negb (Nat.eqb (Folder._id f) (Folder._id folder)))
                 (folders w)
            then Some (Fail DuplicateName, w)
            else
              let oldPath := Folder.path folder in
              let pathParts := split "/" oldPath in
              let folder := Folder.set_path folder (join "/" (set_last pathParts n)) in
              match RegexQuery.regex ("^" ++ oldPath ++ "/") with
              | RegexQuery.Rejected => Some (Fail ServerError, w)
              | RegexQuery.OutsideFragment => None
              | RegexQuery.Accepts test =>
                  let subfolders :=
                    filter (fun f => Nat.eqb (Folder.owner f) uid
                                     && test (Folder.path f))
                           (folders w) in
                  Some (finish folder
                               (rewrite_subfolders oldPath (Folder.path folder)
                                                   subfolders (folders w)))
              end
          else Some (finish folder (folders w))
      | None => Some (finish folder (folders w))
      end
  end.

(** [deleteFolder(folderId, userId)]: the helper calls itself on every
    subfolder found; [fuel] bounds the depth of the calls and [None] means
    it ran out. *)
Fixpoint deleteFolder (fuel : nat) (folderId userId : Id) (w : World)
  : option World :=
  match fuel with
  | O => None
  | S k =>
      let subfolders := filter (is_child_of folderId userId) (folders w) in
      let after_subfolders :=
        fold_left
          (fun acc subfolder =>
             match acc with
             | Some w' => deleteFolder k (Folder._id subfolder) userId w'
             | None => None
             end)
          subfolders (Some w) in
      match after_subfolders with
      | None => None
      | Some w1 =>
          let w2 :=
            with_files w1
              (filter (fun f => negb (same_ref (File.folder f) (Some folderId)
                                      && Nat.eqb (File.owner f) userId))
                      (files w1)) in
          let w3 :=
            with_notes w2
              (filter (fun n => negb (same_ref (Note.folder n) (Some folderId)
                                      && Nat.eqb (Note.owner n) userId))
                      (notes w2)) in
          Some (with_folders w3 (deleteById folderId (folders w3)))
      end
  end.

(** The three [countDocuments] calls of the delete route. *)
Definition totalItems (id uid : Id) (w : World) : nat :=
  let subfolders := List.length (filter (is_child_of id uid) (folders w)) in
  let files :=
    List.length (filter (fun f => same_ref (File.folder f) (Some id)
                                  && Nat.eqb (File.owner f) uid) (files w)) in
  let notes :=
    List.length (filter (fun n => same_ref (Note.folder n) (Some id)
                                  && Nat.eqb (Note.owner n) uid) (notes w)) in
  subfolders + files + notes.

(** [DELETE /:id]; [force] is [req.query.force === 'true']. *)
Definition remove (fuel : nat) (id : Id) (force : bool) (w : World)
  : option (Result unit * World) :=
  let uid := User._id (user w) in
  match findOwned (folders w) id uid with
  | None => Some (Fail NotFound, w)
  | Some folder =>
      let n := totalItems (Folder._id folder) uid w in
      if Nat.ltb 0 n && negb force
      then Some (Fail (NotEmpty n), w)
      else
        match deleteFolder fuel (Folder._id folder) uid w with
        | Some w' => Some (Ok tt, w')
        | None => None
        end
  end.

(** The [while] loop that picks the name of the copy; [fuel] bounds its
    iterations. *)
Fixpoint copy_name (fuel : nat) (taken : string -> bool) (base : string)
         (duplicateName : string) (counter : nat) : option string :=
  match fuel with
  | O => None
  | S k =>
      if taken duplicateName
      then copy_name k taken base
                     (base ++ " (Copy " ++ of_nat counter ++ ")") (S counter)
      else Some duplicateName
  end.

(** [POST /:id/duplicate] *)
Definition duplicate (fuel : nat) (id : Id) (w : World)
  : option (Result Folder.t * World) :=
  let uid := User._id (user w) in
  match findOwned (folders w) id uid with
  | None => Some (Fail NotFound, w)
  | Some originalFolder =>
      let taken nm :=
        existsb (is_sibling_named nm uid (Folder.parentFolder originalFolder))
                (folders w) in
      match copy_name fuel taken (Folder.name originalFolder)
                      (Folder.name originalFolder ++ " (Copy)") 1 with
      | None => None
      | Some duplicateName =>
          let (oid, w1) := fresh_oid w in
          let duplicateFolder :=
            Folder.mk oid duplicateName (Folder.description originalFolder) uid
                      (Folder.parentFolder originalFolder)
                      (match Folder.parentFolder originalFolder with
                       | Some _ =>
                           join "/" (slice_init (split "/" (Folder.path originalFolder)))
                           ++ "/" ++ duplicateName
                       | None => duplicateName
                       end)
                      false (Folder.color originalFolder) in
          Some (Ok duplicateFolder, with_folders w1 (folders w1 ++ [duplicateFolder])%list)
      end
  end.

End Folders.

(** ** The upload directory *)

Module Fs.

(** [fs.existsSync(p)] *)
Definition existsSync (d : list string) (p : string) : bool :=
  existsb (String.eqb p) d.

(** [fs.unlinkSync(p)] on a path that exists. *)
Definition unlinkSync (d : list string) (p : string) : list string :=
  filter (fun q => negb (String.eqb p q)) d.

(** [if (fs.existsSync(p)) fs.unlinkSync(p)] *)
Definition unlink_if_exists (d : list string) (p : string) : list string :=
  if existsSync d p then unlinkSync d p else d.

(** The outcome of [fs.copyFileSync(src, dst)] when [src] exists. *)
Definition copied (d : list string) (dst : string) : list string :=
  if existsSync d dst then d else dst :: d.

End Fs.

(** ** [routes/files.js] *)

Module Files.
Import JsString.

(** [getFileType(mimeType)] *)
Definition getFileType (mimeType : string) : FileType :=
  if startsWith mimeType "image/" then image
  else if String.eqb mimeType "application/pdf" then pdf
  else if includes mimeType "document" || includes mimeType "text" then document
  else other.

(** [req.files.forEach(file => { totalSize += file.size })] *)
Definition totalSize (batch : list Upload.t) : Z :=
  fold_left (fun acc file => (acc + Upload.size file)%Z) batch 0%Z.

(** [req.files.forEach(file => { if (fs.existsSync(file.path)) fs.unlinkSync(file.path) })] *)
Definition discard (batch : list Upload.t) (d : list string) : list string :=
  fold_left (fun acc file => Fs.unlink_if_exists acc (Upload.path file)) batch d.

(** One turn of [for (const file of req.files)]: build the File document,
    save it, push it on [uploadedFiles]. *)
Definition store_one (uid : Id) (folder : option Id)
           (st : list File.t * World) (file : Upload.t) : list File.t * World :=
  let (uploadedFiles, w) := st in
  let (oid, w1) := fresh_oid w in
  let newFile :=
    File.mk oid (Upload.filename file) (Upload.originalname file)
            (getFileType (Upload.mimetype file)) (Upload.mimetype file)
            (Upload.size file) (Upload.path file) uid folder in
  ((uploadedFiles ++ [newFile])%list, with_files w1 (files w1 ++ [newFile])%list).

(** [POST /upload]: multer has already written every entry of [batch] to
    the upload directory. *)
Definition upload (batch : list Upload.t) (folder : option Id) (w : World)
  : Result (list File.t) * World :=
  match batch with
  | [] => (Fail NoFilesUploaded, w)
  | _ :: _ =>
      let total := totalSize batch in
      if negb (User.hasEnoughStorage (user w) total)
      then (Fail QuotaExceeded, with_disk w (discard batch (disk w)))
      else
        let (uploadedFiles, w1) :=
          fold_left (store_one (User._id (user w)) folder) batch ([], w) in
        (Ok uploadedFiles,
         with_user w1 (User.set_storageUsed
                         (user w1) (User.storageUsed (user w1) + total)%Z))
  end.

(** [File.findOne({ _id: id, owner: uid })] *)
Definition findOwned (l : list File.t) (id uid : Id) : option File.t :=
  find (fun f => Nat.eqb (File._id f) id && Nat.eqb (File.owner f) uid) l.

(** [DELETE /:id] *)
Definition remove (id : Id) (w : World) : Result unit * World :=
  match findOwned (files w) id (User._id (user w)) with
  | None => (Fail NotFound, w)
  | Some file =>
      let w1 := with_disk w (Fs.unlink_if_exists (disk w) (File.path file)) in
      let w2 :=
        with_user w1
          (User.set_storageUsed
             (user w1)
             (Z.max 0 (User.storageUsed (user w1) - File.size file))) in
      (Ok tt,
       with_files w2
         (filter (fun f => negb (Nat.eqb (File._id f) (File._id file))) (files w2)))
  end.

Section NodePath.

(** Node's [path] module and [ObjectId.prototype.toString] only shape the
    names of the copy; the handler is stated over any implementation. *)
Variable extname : string -> string.
Variable basename : string -> string -> string.
Variable path_join : string -> string -> string.
Variable oid_toString : Id -> string.

(** [POST /:id/duplicate]; [uniqueSuffix] is the text built from
    [Date.now()] and [Math.random()]. *)
Definition duplicate (uniqueSuffix : string) (id : Id) (w : World)
  : Result File.t * World :=
  let uid := User._id (user w) in
  match findOwned (files w) id uid with
  | None => (Fail NotFound, w)
  | Some originalFile =>
      if negb (User.hasEnoughStorage (user w) (File.size originalFile))
      then (Fail QuotaExceeded, w)
      else
        let ext := extname (File.originalName originalFile) in
        let nameWithoutExt := basename (File.originalName originalFile) ext in
        let duplicateName := nameWithoutExt ++ " (Copy)" ++ ext in
        let userDir := path_join "uploads" (oid_toString uid) in
        let newFileName := nameWithoutExt ++ "-copy-" ++ uniqueSuffix ++ ext in
        let newFilePath := path_join userDir newFileName in
        if negb (Fs.existsSync (disk w) (File.path originalFile))
        then (Fail ServerError, w)
        else
          let w1 := with_disk w (Fs.copied (disk w) newFilePath) in
          let (oid, w2) := fresh_oid w1 in
          let duplicateFile :=
            File.mk oid newFileName duplicateName (File.type originalFile)
                    (File.mimeType originalFile) (File.size originalFile)
                    newFilePath uid (File.folder originalFile) in
          let w3 := with_files w2 (files w2 ++ [duplicateFile])%list in
          (Ok duplicateFile,
           with_user w3 (User.set_storageUsed
                           (user w3)
                           (User.storageUsed (user w3) + File.size originalFile)%Z))
  end.

End NodePath.

End Files.

(** ** The quota ledger

    The routes have no ledger object: [reserve] is the check of
    [hasEnoughStorage] followed by [storageUsed += n] (upload and file
    duplicate), [release] is [storageUsed = Math.max(0, storageUsed - n)]
    (file delete). *)

Module Ledger.

Definition reserve (u : User.t) (n : Z) : Result User.t :=
  if negb (User.hasEnoughStorage u n) then Fail QuotaExceeded
  else Ok (User.set_storageUsed u (User.storageUsed u + n)%Z).

Definition release (u : User.t) (n : Z) : User.t :=
  User.set_storageUsed u (Z.max 0 (User.storageUsed u - n)).

End Ledger.

(** ** Vocabulary of the properties *)

Module Spec.

(** [s] starts with [p]. *)
Definition starts_with (s p : string) : Prop := exists rest, s = p ++ rest.

(** [s] contains [sub] as a substring. *)
Definition contains (s sub : string) : Prop :=
  exists before after, s = before ++ sub ++ after.

(** The classifier of MIME types, case by case. *)
Inductive classified (m : string) : FileType -> Prop :=
| classified_image :
    starts_with m "image/" -> classified m image
| classified_pdf :
    m = "application/pdf" -> classified m pdf
| classified_document :
    ~ starts_with m "image/" -> m <> "application/pdf" ->
    contains m "document" \/ contains m "text" ->
    classified m document
| classified_other :
    ~ starts_with m "image/" -> m <> "application/pdf" ->
    ~ contains m "document" -> ~ contains m "text" ->
    classified m other.

(** The byte size of a batch: the sum of the sizes of its entries. *)
Definition batch_bytes (batch : list Upload.t) : Z :=
  fold_right Z.add 0%Z (map Upload.size batch).

End Spec.

(** ** Worlds of the scenarios *)

Module Scenario.

Definition alice : User.t := User.mk 1 0 1000.

(** An empty account with a limit of 1000 bytes. *)
Definition empty_world : World := mkWorld alice [] [] [] [] 10.

(** multer has stored a 600-byte file, then a 500-byte file. *)
Definition report : Upload.t :=
  Upload.mk "report-1.pdf" "report.pdf" "application/pdf" 600 "uploads/1/report-1.pdf".
Definition photo : Upload.t :=
  Upload.mk "photo-2.png" "photo.png" "image/png" 500 "uploads/1/photo-2.png".

Definition arrived (file : Upload.t) (w : World) : World :=
  with_disk w (Upload.path file :: disk w).

End Scenario.

(** ** The documents an accepted batch leaves behind *)

Module Recorded.

(** The File documents of a batch, numbered from [oid] on. *)
Fixpoint documents (uid : Id) (folder : option Id) (oid : Id)
         (batch : list Upload.t) : list File.t :=
  match batch with
  | [] => []
  | file :: rest =>
      File.mk oid (Upload.filename file) (Upload.originalname file)
              (Files.getFileType (Upload.mimetype file)) (Upload.mimetype file)
              (Upload.size file) (Upload.path file) uid folder
      :: documents uid folder (S oid) rest
  end.

End Recorded.

Module Counting.


End Counting.

Module Tree.

(** Folder "A" at the root holding folder "B", which holds one file. *)
Definition folderA : Folder.t :=
  Folder.mk 1 "A" None 1 None "A" false Folders.default_color.
Definition folderB : Folder.t :=
  Folder.mk 2 "B" None 1 (Some 1) "A/B" false Folders.default_color.
Definition fileInB : File.t :=
  File.mk 3 "notes-3.txt" "notes.txt" document "text/plain" 600
          "uploads/1/notes-3.txt" 1 (Some 2).

Definition nested : World :=
  mkWorld (User.mk 1 600 1000) [folderA; folderB] [fileInB] []
          ["uploads/1/notes-3.txt"] 10.

End Tree.

Module CopyName.

(** The N-th numbered name of a copy of [base]. *)
Definition numbered (base : string) (n : nat) : string :=
  base ++ " (Copy " ++ JsString.of_nat n ++ ")".

(** Two root folders of one owner: "Docs" and "Docs (Copy)". *)
Definition docs : Folder.t :=
  Folder.mk 1 "Docs" None 1 None "Docs" false Folders.default_color.

End CopyName.

Module Rename.

(** Folder "Docs (Copy)" created at the root of an empty account, then
    folder "B" created inside it. *)
Definition with_copy : World :=
  snd (Folders.create "Docs (Copy)" None None None Scenario.empty_world).
Definition with_inner : World :=
  snd (Folders.create "B" None (Some 10) None with_copy).

(** Folder "A" created at the root, then folder "B" created inside it. *)
Definition with_A : World :=
  snd (Folders.create "A" None None None Scenario.empty_world).
Definition with_A_B : World :=
  snd (Folders.create "B" None (Some 10) None with_A).

End Rename.

Module Invariant.

(** Every stored path is what [getFullPath] computes. *)
Definition paths_consistent (l : list Folder.t) : Prop :=
  Forall (fun f => exists fuel, getFullPath fuel l f = Some (Folder.path f)) l.

(** No two folders share an [_id], and the counter is ahead of all of them. *)
Definition ids_fresh (w : World) : Prop :=
  NoDup (map Folder._id (folders w))
  /\ Forall (fun f => Folder._id f < next_oid w) (folders w).

End Invariant.

Module Cascade.

(** The filters [{ folder: id, owner: uid }] of the cascade. *)
Definition file_in (id uid : Id) (x : File.t) : bool :=
  same_ref (File.folder x) (Some id) && Nat.eqb (File.owner x) uid.
Definition note_in (id uid : Id) (n : Note.t) : bool :=
  same_ref (Note.folder n) (Some id) && Nat.eqb (Note.owner n) uid.

(** Folder [f] of [l] lies strictly below folder [id], through parent
    links of folders owned by [uid]. *)
Inductive below (uid : Id) (l : list Folder.t) (id : Id) : Folder.t -> Prop :=
| below_child (f : Folder.t) :
    In f l -> FolderQuery.is_child_of id uid f = true -> below uid l id f
| below_deeper (g f : Folder.t) :
    below uid l id g -> In f l ->
    FolderQuery.is_child_of (Folder._id g) uid f = true -> below uid l id f.

(** The subtree under [id] is fewer than [n] levels deep. *)
Fixpoint shallower (n : nat) (uid : Id) (l : list Folder.t) (id : Id) : Prop :=
  match n with
  | O => False
  | S k => forall c, In c l -> FolderQuery.is_child_of id uid c = true ->
                     shallower k uid l (Folder._id c)
  end.

(** Nothing of [uid] is left directly inside folder [i]. *)
Definition emptied (uid i : Id) (w : World) : Prop :=
  (forall f, In f (folders w) -> FolderQuery.is_child_of i uid f = false)
  /\ (forall x, In x (files w) -> file_in i uid x = false)
  /\ (forall n, In n (notes w) -> note_in i uid n = false).

(** [w'] holds no document that [w] does not hold. *)
Definition shrinks (w w' : World) : Prop :=
  incl (folders w') (folders w)
  /\ incl (files w') (files w)
  /\ incl (notes w') (notes w).

(** From [w] to [w'] documents only disappear, and a folder that
    disappears leaves nothing of [uid] inside it. *)
Definition cascades (uid : Id) (w w' : World) : Prop :=
  shrinks w w'
  /\ forall g, In g (folders w) -> ~ In g (folders w') -> emptied uid (Folder._id g) w'.

(** One turn of the loop over the subfolders in [deleteFolder]. *)
Definition visit (fuel : nat) (uid : Id) (acc : option World)
           (subfolder : Folder.t) : option World :=
  match acc with
  | Some w' => Folders.deleteFolder fuel (Folder._id subfolder) uid w'
  | None => None
  end.

(** What one call of [deleteFolder] on [id] guarantees. *)
Definition cleared (uid id : Id) (w w' : World) : Prop :=
  cascades uid w w'
  /\ (forall f, In f (folders w') -> Folder._id f <> id)
  /\ emptied uid id w'.

End Cascade.

Module Slips.

(** A root folder whose name holds a slash, as the validator admits. *)
Definition with_slash : World :=
  snd (Folders.create "a/b" None None None Scenario.empty_world).

End Slips.

Module Names.

(** No slash in [s]. *)
Fixpoint slash_free (s : string) : bool :=
  match s with
  | EmptyString => true
  | String c r => negb (Ascii.eqb c "/") && slash_free r
  end.

(** The shape of a folder forest that create, rename and duplicate
    maintain when names hold no slash: unique ids, stored paths equal to
    full paths, a parent owned by the owner of its child, and no two
    siblings of one owner under one name. *)
Record forest (l : list Folder.t) : Prop := {
  forest_ids : NoDup (map Folder._id l);
  forest_paths : Invariant.paths_consistent l;
  forest_names : forall f, In f l -> slash_free (Folder.name f) = true;
  forest_owner :
    forall f g, In f l -> In g l ->
                Folder.parentFolder f = Some (Folder._id g) ->
                Folder.owner g = Folder.owner f;
  forest_siblings :
    forall f g, In f l -> In g l ->
                Folder.owner f = Folder.owner g ->
                Folder.parentFolder f = Folder.parentFolder g ->
                Folder.name f = Folder.name g -> f = g
}.

End Names.

Module Renamed.

(** The store after a rename of [T] to the document [T'], as the handler
    leaves it on a path free of metacharacters: [T] replaced by [T'], and
    every folder of the owner whose path starts with the old path and a
    slash moved under the new path. *)
Definition moved (T T' : Folder.t) (g : Folder.t) : Folder.t :=
  if Nat.eqb (Folder._id g) (Folder._id T) then T'
  else if Nat.eqb (Folder.owner g) (Folder.owner T)
          && JsString.startsWith (Folder.path g) (Folder.path T ++ "/")
       then Folder.set_path
              g (Folder.path T'
                 ++ JsString.drop (String.length (Folder.path T)) (Folder.path g))
       else g.

End Renamed.

(** ** [routes/folders.js]: reading a folder *)

(** The payload of [GET /:id]: the folder and what it directly holds. *)
Module Contents.
Record t := mk {
  folder : Folder.t;
  subfolders : list Folder.t;
  files : list File.t;
  notes : list Note.t
}.
End Contents.

Module FolderRead.


End FolderRead.

(** ** [routes/notes.js]: deleting a note *)

Module Notes.

(** [Note.findOne({ _id: id, owner: uid })] *)
Definition findOwned (l : list Note.t) (id uid : Id) : option Note.t :=
  find (fun n => Nat.eqb (Note._id n) id && Nat.eqb (Note.owner n) uid) l.

(** [DELETE /:id] *)
Definition remove (id : Id) (w : World) : Result unit * World :=
  match findOwned (notes w) id (User._id (user w)) with
  | None => (Fail NotFound, w)
  | Some note =>
      (Ok tt,
       with_notes w
         (filter (fun n => negb (Nat.eqb (Note._id n) (Note._id note))) (notes w)))
  end.

End Notes.

(** ** [models/Note.js]: the methods on the text of a note

    The text is a [string] of code units below 256; in that range the
    white space of [trim] and of the class [\s] is the same set. *)

Module NoteText.

Definition is_space (c : ascii) : bool :=
  existsb (Nat.eqb (nat_of_ascii c)) [9; 10; 11; 12; 13; 32; 160].

(** [content.substring(0, n)] *)
Fixpoint take (n : nat) (s : string) : string :=
  match n, s with
  | O, _ => EmptyString
  | S _, EmptyString => EmptyString
  | S k, String c r => String c (take k r)
  end.

(** [noteSchema.methods.getPreview], [length] a non-negative integer. *)
Definition getPreview (content : string) (length : nat) : string :=
  if Nat.ltb length (String.length content)
  then take length content ++ "..."
  else content.

(** The preview built inline by the summary route:
    [content.substring(0, 100) + (content.length > 100 ? '...' : '')]. *)
Definition summary_preview (content : string) : string :=
  take 100 content
  ++ (if Nat.ltb 100 (String.length content) then "..." else EmptyString).

Fixpoint trimStart (s : string) : string :=
  match s with
  | EmptyString => EmptyString
  | String c r => if is_space c then trimStart r else s
  end.

Fixpoint trimEnd (s : string) : string :=
  match s with
  | EmptyString => EmptyString
  | String c r =>
      match trimEnd r with
      | EmptyString => if is_space c then EmptyString else String c EmptyString
      | String d r' => String c (String d r')
      end
  end.

(** [s.trim()] *)
Definition trim (s : string) : string := trimEnd (trimStart s).

Definition starts_with_space (s : string) : bool :=
  match s with
  | EmptyString => false
  | String c _ => is_space c
  end.

(** [s.split(/\s+/)]: the pieces between the runs of white space, an
    empty piece before a leading run and after a trailing one. *)
Fixpoint split_spaces (s : string) : list string :=
  match s with
  | EmptyString => [EmptyString]
  | String c r =>
      if is_space c then
        if starts_with_space r then split_spaces r
        else EmptyString :: split_spaces r
      else
        match split_spaces r with
        | [] => [String c EmptyString]
        | h :: t => String c h :: t
        end
  end.

(** [noteSchema.methods.getWordCount] *)
Definition getWordCount (content : string) : nat :=
  List.length (split_spaces (trim content)).

End NoteText.

(** ** The summary route (the second router of the source file that holds
    the note routes): the aggregations over the File collection

    The percentages and averages of the summary are floating-point
    quotients and are not modelled; the counts and sizes are. *)

Module Summary.

(** The document of [$group: { _id: null, ... }]. *)
Record FileStats := mkStats {
  totalFiles : nat;
  totalSize : Z;
  imageCount : nat;
  pdfCount : nat;
  documentCount : nat;
  otherCount : nat
}.

Definition same_type (a b : FileType) : bool :=
  match a, b with
  | image, image | pdf, pdf | document, document | other, other => true
  | _, _ => false
  end.

(** [$cond: [{ $eq: ['$type', t] }, 1, 0]] *)
Definition one_if (t : FileType) (f : File.t) : nat :=
  if same_type (File.type f) t then 1 else 0.

(** The accumulators of the group stage, fed one document. *)
Definition accumulate (acc : FileStats) (f : File.t) : FileStats :=
  mkStats (totalFiles acc + 1)
          (totalSize acc + File.size f)
          (imageCount acc + one_if image f)
          (pdfCount acc + one_if pdf f)
          (documentCount acc + one_if document f)
          (otherCount acc + one_if other f).

Definition zero_stats : FileStats := mkStats 0 0 0 0 0 0.

(** [{ $match: { owner: userId } }] *)
Definition matched (uid : Id) (l : list File.t) : list File.t :=
  filter (fun f => Nat.eqb (File.owner f) uid) l.

(** The first pipeline: one document, or none when nothing matches. *)
Definition fileStats (uid : Id) (l : list File.t) : list FileStats :=
  match matched uid l with
  | [] => []
  | f :: rest => [fold_left accumulate (f :: rest) zero_stats]
  end.

(** [fileStats[0] || { totalFiles: 0, ... }] *)
Definition fileStatsData (uid : Id) (l : list File.t) : FileStats :=
  match fileStats uid l with
  | stats :: _ => stats
  | [] => zero_stats
  end.

(** A document of [$group: { _id: '$type', count, size }]. *)
Record TypeGroup := mkGroup {
  _id : FileType;
  count : nat;
  size : Z
}.

Fixpoint add_to_group (f : File.t) (groups : list TypeGroup) : list TypeGroup :=
  match groups with
  | [] => [mkGroup (File.type f) 1 (File.size f)]
  | g :: rest =>
      if same_type (_id g) (File.type f)
      then mkGroup (_id g) (count g + 1) (size g + File.size f) :: rest
      else g :: add_to_group f rest
  end.

(** The last pipeline: one document per type that occurs (the server
    fixes no order; here the order of first occurrence). *)
Definition storageByType (uid : Id) (l : list File.t) : list TypeGroup :=
  fold_left (fun groups f => add_to_group f groups) (matched uid l) [].

(** [storageByType.reduce((acc, item) => { acc[item._id] = {...}; return acc }, {})],
    the object read at a key; of each entry the count and the size. *)
Definition storageBreakdown (groups : list TypeGroup) (t : FileType)
  : option (nat * Z) :=
  fold_left (fun acc item =>
               if same_type (_id item) t then Some (count item, size item) else acc)
            groups None.

(** [storage.available] *)
Definition available (u : User.t) : Z :=
  (User.storageLimit u - User.storageUsed u)%Z.

(** [statistics.totalItems] *)
Definition totalItems (w : World) : nat :=
  let uid := User._id (user w) in
  List.length (filter (fun f => Nat.eqb (Folder.owner f) uid) (folders w))
  + totalFiles (fileStatsData uid (files w))
  + List.length (filter (fun n => Nat.eqb (Note.owner n) uid) (notes w)).

End Summary.

(** ** The analytics route: cumulative storage *)

Module Analytics.

(** A document of the storage-growth pipeline, and an entry of the answer. *)
Record Daily := mkDaily { date : string; dailyStorage : Z }.
Record Growth := mkGrowth { growth_date : string; storage : Z }.

(** [let cumulativeStorage = 0; storageGrowth.map(item => { cumulativeStorage
    += item.dailyStorage; return { date, storage: cumulativeStorage } })] *)
Definition cumulativeStorageGrowth (storageGrowth : list Daily) : list Growth :=
  snd (fold_left
         (fun (st : Z * list Growth) item =>
            let cumulativeStorage := (fst st + dailyStorage item)%Z in
            (cumulativeStorage,
             (snd st ++ [mkGrowth (date item) cumulativeStorage])%list))
         storageGrowth (0%Z, [])).

End Analytics.

(** ** Vocabulary of the further properties *)

Module Quota.

(** The bytes of the files [uid] owns. *)
Definition owned_bytes (uid : Id) (l : list File.t) : Z :=
  fold_right (fun f acc => if Nat.eqb (File.owner f) uid
                           then (File.size f + acc)%Z else acc)
             0%Z l.

(** The ledger says what the File collection holds. *)
Definition exact (w : World) : Prop :=
  User.storageUsed (user w) = owned_bytes (User._id (user w)) (files w).

(** The ledger is within the limit. *)
Definition within (w : World) : Prop :=
  (User.storageUsed (user w) <= User.storageLimit (user w))%Z.

(** File ids are unique and behind the counter. *)
Definition files_fresh (w : World) : Prop :=
  NoDup (map File._id (files w))
  /\ Forall (fun f => File._id f < next_oid w) (files w).

Definition sizes_nonneg (l : list File.t) : Prop :=
  Forall (fun f => (0 <= File.size f)%Z) l.

End Quota.

Module Siblings.


End Siblings.

Module Reach.

(** The ids a cascade on [id] reaches: [id] itself and the folders below. *)
Definition reached (uid : Id) (l : list Folder.t) (id i : Id) : Prop :=
  i = id \/ exists f, Cascade.below uid l id f /\ Folder._id f = i.

(** From [w] to [w'] nothing goes outside the ids a cascade on [id]
    reaches: no folder with another id, no file or note of another owner
    or in another folder. *)
Definition kept (uid id : Id) (w w' : World) : Prop :=
  (forall g, In g (folders w) ->
             ~ reached uid (folders w) id (Folder._id g) ->
             In g (folders w'))
  /\ (forall x, In x (files w) ->
                (File.owner x <> uid
                 \/ forall i, File.folder x = Some i ->
                              ~ reached uid (folders w) id i) ->
                In x (files w'))
  /\ (forall n, In n (notes w) ->
                (Note.owner n <> uid
                 \/ forall i, Note.folder n = Some i ->
                              ~ reached uid (folders w) id i) ->
                In n (notes w')).

End Reach.

Module Words.

(** Only white space. *)
Fixpoint all_space (s : string) : bool :=
  match s with
  | EmptyString => true
  | String c r => NoteText.is_space c && all_space r
  end.

(** No white space. *)
Fixpoint space_free (s : string) : bool :=
  match s with
  | EmptyString => true
  | String c r => negb (NoteText.is_space c) && space_free r
  end.

(** A word: not empty, no white space. *)
Definition word (s : string) : bool :=
  match s with
  | EmptyString => false
  | String _ _ => space_free s
  end.

(** A gap: not empty, only white space. *)
Definition gap (s : string) : bool :=
  match s with
  | EmptyString => false
  | String _ _ => all_space s
  end.

(** The word [first], then each word of [rest] after its gap. *)
Fixpoint text (first : string) (rest : list (string * string)) : string :=
  match rest with
  | [] => first
  | (g, w) :: more => first ++ g ++ text w more
  end.

Definition well_spaced (rest : list (string * string)) : bool :=
  forallb (fun p => gap (fst p) && word (snd p)) rest.

End Words.

Module Census.

(** The files of [uid] that have type [t]. *)
Definition of_type (uid : Id) (t : FileType) (l : list File.t) : list File.t :=
  filter (fun f => Summary.same_type (File.type f) t) (Summary.matched uid l).

Definition bytes (l : list File.t) : Z :=
  fold_right (fun f acc => (File.size f + acc)%Z) 0%Z l.

(** The counter of [stats] that belongs to the type [t]. *)
Definition count_of (stats : Summary.FileStats) (t : FileType) : nat :=
  match t with
  | image => Summary.imageCount stats
  | pdf => Summary.pdfCount stats
  | document => Summary.documentCount stats
  | other => Summary.otherCount stats
  end.

End Census.

Module Running.

(** The bytes of the days in [l]. *)
Definition total (l : list Analytics.Daily) : Z :=
  fold_right (fun item acc => (Analytics.dailyStorage item + acc)%Z) 0%Z l.

End Running.

Module Others.

(** From [w] to [w'] the documents of every user but [uid] are the same. *)
Definition same (uid : Id) (w w' : World) : Prop :=
  (forall g, Folder.owner g <> uid -> (In g (folders w) <-> In g (folders w')))
  /\ (forall x, File.owner x <> uid -> (In x (files w) <-> In x (files w')))
  /\ (forall n, Note.owner n <> uid -> (In n (notes w) <-> In n (notes w'))).


End Others.

Module Refs.

(** Every reference to a folder names an id already drawn. *)
Definition known (w : World) : Prop :=
  Forall (fun f => forall p, Folder.parentFolder f = Some p -> p < next_oid w)
         (folders w)
  /\ Forall (fun x => forall p, File.folder x = Some p -> p < next_oid w) (files w)
  /\ Forall (fun n => forall p, Note.folder n = Some p -> p < next_oid w) (notes w).

End Refs.

(** * Properties *)

(** ** Strings *)

Lemma append_assoc (a b c : string) : (a ++ b) ++ c = a ++ b ++ c.
Proof. induction a as [|x a IH]; simpl; [reflexivity | now rewrite IH]. Qed.

Lemma append_nil_r (a : string) : a ++ EmptyString = a.
Proof. induction a as [|x a IH]; simpl; [reflexivity | now rewrite IH]. Qed.


Lemma prefix_app (p r : string) : String.prefix p (p ++ r) = true.
Proof.
  induction p as [|x p IH]; simpl; [now destruct r |].
  destruct (ascii_dec x x); [exact IH | congruence].
Qed.

Lemma prefix_starts_with (s p : string) :
  String.prefix p s = true <-> Spec.starts_with s p.
Proof.
  split.
  - revert s; induction p as [|x p IH]; intros s H.
    + now exists s.
    + destruct s as [|y s]; simpl in H; [discriminate |].
      destruct (ascii_dec x y) as [->|]; [| discriminate].
      destruct (IH _ H) as [r ->]. now exists r.
  - intros [r ->]. apply prefix_app.
Qed.

Lemma includes_unfold (s sub : string) :
  JsString.includes s sub =
  if String.prefix sub s then true
  else match s with
       | EmptyString => false
       | String _ s' => JsString.includes s' sub
       end.
Proof. destruct s; reflexivity. Qed.

Lemma includes_contains (s sub : string) :
  JsString.includes s sub = true <-> Spec.contains s sub.
Proof.
  split.
  - induction s as [|c s IH]; rewrite includes_unfold;
      destruct (String.prefix sub _) eqn:E.
    + intros _. apply prefix_starts_with in E. destruct E as [r E].
      exists EmptyString, r. exact E.
    + discriminate.
    + intros _. apply prefix_starts_with in E. destruct E as [r E].
      exists EmptyString, r. exact E.
    + intros H. destruct (IH H) as (a & b & ->).
      exists (String c a), b. reflexivity.
  - intros (a & b & ->). induction a as [|c a IH]; rewrite includes_unfold.
    + change (EmptyString ++ sub ++ b) with (sub ++ b). now rewrite prefix_app.
    + destruct (String.prefix sub _); [reflexivity | exact IH].
Qed.

(** ** The MIME classifier *)

Lemma getFileType_classified (m : string) : Spec.classified m (Files.getFileType m).
Proof.
  unfold Files.getFileType, JsString.startsWith.
  destruct (String.prefix "image/" m) eqn:Ei.
  { apply Spec.classified_image. now apply prefix_starts_with. }
  assert (Hi : ~ Spec.starts_with m "image/").
  { intros H. apply prefix_starts_with in H. congruence. }
  destruct (String.eqb_spec m "application/pdf") as [Ep|Ep].
  { now apply Spec.classified_pdf. }
  destruct (JsString.includes m "document") eqn:Ed.
  { apply Spec.classified_document; auto. left. now apply includes_contains. }
  destruct (JsString.includes m "text") eqn:Et.
  { apply Spec.classified_document; auto. right. now apply includes_contains. }
  apply Spec.classified_other; auto; intros H; apply includes_contains in H; congruence.
Qed.

Lemma classified_functional (m : string) (t1 t2 : FileType) :
  Spec.classified m t1 -> Spec.classified m t2 -> t1 = t2.
Proof.
  intros H1 H2.
  destruct H1; destruct H2; subst; try reflexivity; try tauto;
    match goal with
    | H : Spec.starts_with "application/pdf" "image/" |- _ =>
        apply prefix_starts_with in H; discriminate H
    end.
Qed.

(** ** Upload *)

Lemma totalSize_from (batch : list Upload.t) (z : Z) :
  fold_left (fun acc file => (acc + Upload.size file)%Z) batch z
  = (z + Spec.batch_bytes batch)%Z.
Proof.
  revert z; induction batch as [|file rest IH]; intros z; simpl.
  - unfold Spec.batch_bytes; simpl; lia.
  - rewrite IH. unfold Spec.batch_bytes; simpl; lia.
Qed.

Lemma totalSize_batch_bytes (batch : list Upload.t) :
  Files.totalSize batch = Spec.batch_bytes batch.
Proof. unfold Files.totalSize. rewrite totalSize_from. lia. Qed.

Lemma store_all (uid : Id) (folder : option Id) (batch : list Upload.t) :
  forall (acc : list File.t) (w : World),
    fold_left (Files.store_one uid folder) batch (acc, w)
    = ((acc ++ Recorded.documents uid folder (next_oid w) batch)%list,
       mkWorld (user w) (folders w)
               (files w ++ Recorded.documents uid folder (next_oid w) batch)%list
               (notes w) (disk w) (next_oid w + List.length batch)).
Proof.
  induction batch as [|file rest IH]; intros acc w.
  - simpl. rewrite !app_nil_r, Nat.add_0_r. now destruct w.
  - cbn [fold_left Files.store_one fresh_oid].
    rewrite IH. cbn. rewrite <- !app_assoc. cbn.
    now rewrite Nat.add_succ_r.
Qed.

Lemma documents_classified (uid : Id) (folder : option Id) (batch : list Upload.t) :
  forall oid,
    Forall2 (fun file doc =>
               File.mimeType doc = Upload.mimetype file
               /\ File.size doc = Upload.size file
               /\ File.type doc = Files.getFileType (Upload.mimetype file))
            batch (Recorded.documents uid folder oid batch).
Proof.
  induction batch as [|file rest IH]; intros oid; simpl; constructor; auto.
Qed.

(** What an accepted upload does. *)
Lemma upload_accepted (batch : list Upload.t) (folder : option Id) (w : World) :
  batch <> [] ->
  User.hasEnoughStorage (user w) (Files.totalSize batch) = true ->
  Files.upload batch folder w
  = (Ok (Recorded.documents (User._id (user w)) folder (next_oid w) batch),
     mkWorld (User.set_storageUsed
                (user w) (User.storageUsed (user w) + Files.totalSize batch)%Z)
             (folders w)
             (files w ++ Recorded.documents (User._id (user w)) folder (next_oid w) batch)%list
             (notes w) (disk w) (next_oid w + List.length batch)).
Proof.
  intros Hne Hq. unfold Files.upload.
  destruct batch as [|file rest]; [congruence |].
  rewrite Hq. cbn [negb]. rewrite store_all. reflexivity.
Qed.

(** What a rejected upload does. *)
Lemma upload_rejected (batch : list Upload.t) (folder : option Id) (w : World) :
  batch <> [] ->
  User.hasEnoughStorage (user w) (Files.totalSize batch) = false ->
  Files.upload batch folder w
  = (Fail QuotaExceeded, with_disk w (Files.discard batch (disk w))).
Proof.
  intros Hne Hq. unfold Files.upload.
  destruct batch as [|file rest]; [congruence |].
  rewrite Hq. reflexivity.
Qed.

(** C9. For every uploaded file the stored type is the one the classifier
    gives to its MIME type: image for a MIME type starting with "image/",
    pdf for "application/pdf", document for any other MIME type containing
    "document" or "text", other for everything else. *)
Theorem upload_stores_classified_type
        (batch : list Upload.t) (folder : option Id) (w w' : World)
        (uploaded : list File.t) :
  Files.upload batch folder w = (Ok uploaded, w') ->
  files w' = (files w ++ uploaded)%list
  /\ Forall2 (fun file doc =>
                File.mimeType doc = Upload.mimetype file
                /\ forall t, Spec.classified (Upload.mimetype file) t
                             <-> File.type doc = t)
             batch uploaded.
Proof.
  intros H.
  destruct batch as [|file rest] eqn:Eb; [discriminate H |]. rewrite <- Eb in *.
  assert (Hne : batch <> []) by (rewrite Eb; discriminate).
  destruct (User.hasEnoughStorage (user w) (Files.totalSize batch)) eqn:Hq.
  - rewrite (upload_accepted _ _ _ Hne Hq) in H.
    injection H as <- <-. split; [reflexivity |].
    eapply Forall2_impl; [| apply documents_classified].
    intros up doc (Hm & _ & Ht). split; [exact Hm |].
    intros t. rewrite Ht. split.
    + intros Hc. eapply classified_functional; [apply getFileType_classified | exact Hc].
    + intros <-. apply getFileType_classified.
  - rewrite (upload_rejected _ _ _ Hne Hq) in H. discriminate H.
Qed.

Lemma upload_stores_classified_type_witness :
  exists doc,
    files (snd (Files.upload [Scenario.report] None
                             (Scenario.arrived Scenario.report Scenario.empty_world)))
    = [doc]
    /\ File.type doc = pdf.
Proof.
  destruct (upload_stores_classified_type
              [Scenario.report] None
              (Scenario.arrived Scenario.report Scenario.empty_world)
              _ _ eq_refl) as [Hf _].
  eexists. split; [exact Hf | reflexivity].
Defined.

(** ** The quota ledger *)

Lemma hasEnoughStorage_false (u : User.t) (n : Z) :
  User.hasEnoughStorage u n = false
  <-> (User.storageUsed u + n > User.storageLimit u)%Z.
Proof. unfold User.hasEnoughStorage. rewrite Z.leb_gt. lia. Qed.

(** An upload is a [reserve] of the batch size on the requester. *)
Lemma upload_reserves (batch : list Upload.t) (folder : option Id) (w : World) :
  batch <> [] ->
  match Ledger.reserve (user w) (Files.totalSize batch) with
  | Ok u' => exists docs, fst (Files.upload batch folder w) = Ok docs
                          /\ user (snd (Files.upload batch folder w)) = u'
  | Fail e => fst (Files.upload batch folder w) = Fail e
              /\ user (snd (Files.upload batch folder w)) = user w
  end.
Proof.
  intros Hne. unfold Ledger.reserve.
  destruct (User.hasEnoughStorage (user w) (Files.totalSize batch)) eqn:Hq; cbn [negb].
  - rewrite (upload_accepted _ _ _ Hne Hq). eexists; split; reflexivity.
  - rewrite (upload_rejected _ _ _ Hne Hq). split; reflexivity.
Qed.

(** Deleting a file is a [release] of its size on the requester. *)
Lemma remove_releases (id : Id) (w : World) (file : File.t) :
  Files.findOwned (files w) id (User._id (user w)) = Some file ->
  fst (Files.remove id w) = Ok tt
  /\ user (snd (Files.remove id w)) = Ledger.release (user w) (File.size file).
Proof. intros H. unfold Files.remove. rewrite H. split; reflexivity. Qed.

Section FileDuplicate.

Variable extname : string -> string.
Variable basename : string -> string -> string.
Variable path_join : string -> string -> string.
Variable oid_toString : Id -> string.

(** Duplicating a file is a [reserve] of its size, unless the copy of the
    bytes throws. *)
Lemma duplicate_reserves (suffix : string) (id : Id) (w : World) (file : File.t) :
  Files.findOwned (files w) id (User._id (user w)) = Some file ->
  match Ledger.reserve (user w) (File.size file) with
  | Ok u' =>
      (exists doc,
          fst (Files.duplicate extname basename path_join oid_toString suffix id w) = Ok doc
          /\ user (snd (Files.duplicate extname basename path_join oid_toString suffix id w)) = u')
      \/ Files.duplicate extname basename path_join oid_toString suffix id w = (Fail ServerError, w)
  | Fail e => Files.duplicate extname basename path_join oid_toString suffix id w = (Fail e, w)
  end.
Proof.
  intros H. unfold Ledger.reserve, Files.duplicate. rewrite H.
  destruct (User.hasEnoughStorage (user w) (File.size file)); cbn [negb];
    [| reflexivity].
  destruct (Fs.existsSync (disk w) (File.path file)); cbn [negb];
    [left; eexists; split; reflexivity | right; reflexivity].
Qed.

End FileDuplicate.

(** C4. The quota check made before an upload and before a file
    duplication fails with QuotaExceeded if and only if
    storageUsed + n > storageLimit, n being the incoming byte size (the sum
    of the sizes of the batch, the size of the file to copy); when it fails
    storageUsed is what it was. *)
Theorem quota_check_fails_iff_over_limit :
  (forall (batch : list Upload.t) (folder : option Id) (w : World),
      batch <> [] ->
      (fst (Files.upload batch folder w) = Fail QuotaExceeded
       <-> (User.storageUsed (user w) + Spec.batch_bytes batch
            > User.storageLimit (user w))%Z)
      /\ (fst (Files.upload batch folder w) = Fail QuotaExceeded ->
          user (snd (Files.upload batch folder w)) = user w))
  /\ (forall (extname : string -> string) (basename path_join : string -> string -> string)
             (oid_toString : Id -> string) (suffix : string)
             (id : Id) (w : World) (file : File.t),
         Files.findOwned (files w) id (User._id (user w)) = Some file ->
         let r := Files.duplicate extname basename path_join oid_toString suffix id w in
         (fst r = Fail QuotaExceeded
          <-> (User.storageUsed (user w) + File.size file
               > User.storageLimit (user w))%Z)
         /\ (fst r = Fail QuotaExceeded -> user (snd r) = user w)).
Proof.
  split.
  - intros batch folder w Hne.
    rewrite <- totalSize_batch_bytes, <- hasEnoughStorage_false.
    destruct (User.hasEnoughStorage (user w) (Files.totalSize batch)) eqn:Hq.
    + rewrite (upload_accepted _ _ _ Hne Hq). cbn [fst snd].
      split; [split |]; discriminate.
    + rewrite (upload_rejected _ _ _ Hne Hq). cbn [fst snd].
      split; [split |]; reflexivity.
  - intros extname basename path_join oid_toString suffix id w file Hf r.
    rewrite <- hasEnoughStorage_false.
    pose proof (duplicate_reserves extname basename path_join oid_toString
                                   suffix id w file Hf) as H.
    unfold Ledger.reserve in H. fold r in H.
    destruct (User.hasEnoughStorage (user w) (File.size file)); cbn [negb] in H.
    + destruct H as [(doc & Hr & _) | Hr]; rewrite Hr; cbn [fst];
        (split; [split |]; discriminate).
    + rewrite H. cbn [fst snd]. split; [split |]; reflexivity.
Qed.

Lemma quota_check_fails_iff_over_limit_witness :
  (fst (Files.upload [Scenario.photo] None
                     (with_user Scenario.empty_world (User.mk 1 600 1000)))
   = Fail QuotaExceeded
   /\ User.storageUsed
        (user (snd (Files.upload [Scenario.photo] None
                                 (with_user Scenario.empty_world (User.mk 1 600 1000)))))
      = 600%Z)
  /\ (fst (Files.duplicate (fun _ => ".txt") (fun _ _ => "notes")
                           (fun a b => a ++ "/" ++ b) JsString.of_nat
                           "1700000000000-42" 3 Tree.nested)
      = Fail QuotaExceeded
      /\ User.storageUsed
           (user (snd (Files.duplicate (fun _ => ".txt") (fun _ _ => "notes")
                                       (fun a b => a ++ "/" ++ b) JsString.of_nat
                                       "1700000000000-42" 3 Tree.nested)))
         = 600%Z).
Proof.
  split.
  - destruct (proj1 quota_check_fails_iff_over_limit
                    [Scenario.photo] None
                    (with_user Scenario.empty_world (User.mk 1 600 1000))
                    ltac:(discriminate)) as [Hiff Hsame].
    assert (Hfail : fst (Files.upload [Scenario.photo] None
                           (with_user Scenario.empty_world (User.mk 1 600 1000)))
                    = Fail QuotaExceeded).
    { apply Hiff. vm_compute. reflexivity. }
    split; [exact Hfail |]. rewrite (Hsame Hfail). reflexivity.
  - destruct (proj2 quota_check_fails_iff_over_limit
                    (fun _ => ".txt") (fun _ _ => "notes")
                    (fun a b => a ++ "/" ++ b) JsString.of_nat
                    "1700000000000-42" 3 Tree.nested Tree.fileInB eq_refl)
      as [Hiff Hsame].
    assert (Hfail : fst (Files.duplicate (fun _ => ".txt") (fun _ _ => "notes")
                           (fun a b => a ++ "/" ++ b) JsString.of_nat
                           "1700000000000-42" 3 Tree.nested)
                    = Fail QuotaExceeded).
    { apply Hiff. vm_compute. reflexivity. }
    split; [exact Hfail |]. rewrite (Hsame Hfail). reflexivity.
Defined.



(** ** Cleaning up a rejected batch *)

Lemma existsSync_In (d : list string) (p : string) :
  Fs.existsSync d p = true <-> In p d.
Proof.
  unfold Fs.existsSync. rewrite existsb_exists. split.
  - intros (q & Hq & E). apply String.eqb_eq in E. now subst.
  - intros H. exists p. split; [exact H | apply String.eqb_refl].
Qed.

Lemma unlink_if_exists_In (d : list string) (p q : string) :
  In q (Fs.unlink_if_exists d p) <-> In q d /\ p <> q.
Proof.
  unfold Fs.unlink_if_exists, Fs.unlinkSync.
  destruct (Fs.existsSync d p) eqn:E.
  - rewrite filter_In, negb_true_iff, String.eqb_neq. tauto.
  - split; [| tauto]. intros H. split; [exact H |].
    intros ->. apply existsSync_In in H. congruence.
Qed.

Lemma discard_In (batch : list Upload.t) :
  forall (d : list string) (q : string),
    In q (Files.discard batch d)
    <-> In q d /\ ~ In q (map Upload.path batch).
Proof.
  unfold Files.discard.
  induction batch as [|file rest IH]; intros d q; simpl.
  - tauto.
  - rewrite IH, unlink_if_exists_In. tauto.
Qed.

(** C7. When the byte size of a batch fails the quota check, no File
    record is created, every temporary file of the batch is gone from the
    upload directory and storageUsed is unchanged. In particular, with a
    limit of 1000 and 600 bytes used, a 500-byte upload fails with
    QuotaExceeded and leaves storageUsed at 600, and deleting the 600-byte
    file uploaded before brings storageUsed back to 0. *)
Theorem rejected_upload_leaves_nothing :
  (forall (batch : list Upload.t) (folder : option Id) (w : World),
      batch <> [] ->
      User.hasEnoughStorage (user w) (Files.totalSize batch) = false ->
      let r := Files.upload batch folder w in
      fst r = Fail QuotaExceeded
      /\ files (snd r) = files w
      /\ user (snd r) = user w
      /\ folders (snd r) = folders w
      /\ notes (snd r) = notes w
      /\ (forall file, In file batch ->
                       Fs.existsSync (disk (snd r)) (Upload.path file) = false)
      /\ (forall p, ~ In p (map Upload.path batch) ->
                    Fs.existsSync (disk (snd r)) p = Fs.existsSync (disk w) p))
  /\ (let w0 := Scenario.arrived Scenario.report Scenario.empty_world in
      let r1 := Files.upload [Scenario.report] None w0 in
      let r2 := Files.upload [Scenario.photo] None
                             (Scenario.arrived Scenario.photo (snd r1)) in
      let r3 := Files.remove 10 (snd r2) in
      User.storageLimit (user w0) = 1000%Z
      /\ User.storageUsed (user w0) = 0%Z
      /\ (exists doc, fst r1 = Ok [doc] /\ File._id doc = 10 /\ File.size doc = 600%Z)
      /\ User.storageUsed (user (snd r1)) = 600%Z
      /\ fst r2 = Fail QuotaExceeded
      /\ User.storageUsed (user (snd r2)) = 600%Z
      /\ files (snd r2) = files (snd r1)
      /\ Fs.existsSync (disk (snd r2)) (Upload.path Scenario.photo) = false
      /\ fst r3 = Ok tt
      /\ User.storageUsed (user (snd r3)) = 0%Z
      /\ files (snd r3) = []).
Proof.
  split.
  - intros batch folder w Hne Hq r. subst r.
    rewrite (upload_rejected _ _ _ Hne Hq). cbn [fst snd with_disk files user folders notes disk].
    repeat split.
    + intros file Hin.
      destruct (Fs.existsSync _ _) eqn:E; [| reflexivity].
      apply existsSync_In, discard_In in E. destruct E as [_ E].
      exfalso. apply E. now apply in_map.
    + intros p Hp.
      destruct (Fs.existsSync (disk w) p) eqn:E.
      * apply existsSync_In. apply discard_In. split; [| exact Hp].
        now apply existsSync_In.
      * destruct (Fs.existsSync (Files.discard batch (disk w)) p) eqn:E'; [| reflexivity].
        apply existsSync_In, discard_In in E'. destruct E' as [E' _].
        apply existsSync_In in E'. congruence.
  - vm_compute. repeat split. eexists. repeat split.
Qed.

Lemma rejected_upload_leaves_nothing_witness :
  files (snd (Files.upload [Scenario.photo] None
                (Scenario.arrived Scenario.photo
                   (with_user Scenario.empty_world (User.mk 1 600 1000)))))
  = []
  /\ Fs.existsSync
       (disk (snd (Files.upload [Scenario.photo] None
                     (Scenario.arrived Scenario.photo
                        (with_user Scenario.empty_world (User.mk 1 600 1000))))))
       (Upload.path Scenario.photo)
     = false.
Proof.
  destruct (proj1 rejected_upload_leaves_nothing
                  [Scenario.photo] None
                  (Scenario.arrived Scenario.photo
                     (with_user Scenario.empty_world (User.mk 1 600 1000)))
                  ltac:(discriminate) eq_refl)
    as (_ & Hfiles & _ & _ & _ & Hgone & _).
  split; [exact Hfiles |]. apply Hgone. left. reflexivity.
Defined.

(** ** Folder queries *)

Lemma findOwned_some (l : list Folder.t) (id uid : Id) (f : Folder.t) :
  FolderQuery.findOwned l id uid = Some f ->
  In f l /\ Folder._id f = id /\ Folder.owner f = uid.
Proof.
  unfold FolderQuery.findOwned. intros H. apply find_some in H.
  destruct H as [Hin H]. apply andb_true_iff in H. destruct H as [H1 H2].
  apply Nat.eqb_eq in H1, H2. auto.
Qed.

Lemma set_name_same (f : Folder.t) : Folder.set_name f (Folder.name f) = f.
Proof. now destruct f. Qed.

(** The assignments of an update touch [name], [description], [color] and
    [isFavorite] only. *)
Lemma assign_fields_frame (name description color : option string)
      (isFavorite : option bool) (f : Folder.t) :
  let f' := Folders.assign_fields name description color isFavorite f in
  Folder._id f' = Folder._id f
  /\ Folder.owner f' = Folder.owner f
  /\ Folder.parentFolder f' = Folder.parentFolder f
  /\ Folder.path f' = Folder.path f.
Proof.
  unfold Folders.assign_fields.
  destruct name as [n|]; [destruct (JsString.truthy (Some n)) |];
    (destruct description as [d|]);
    (destruct color as [c|]; [destruct (JsString.truthy (Some c)) |]);
    (destruct isFavorite as [b|]); cbn; auto.
Qed.

Lemma assign_fields_keeps_name (name description color : option string)
      (isFavorite : option bool) (f : Folder.t) :
  name = None \/ name = Some (Folder.name f) ->
  Folder.name (Folders.assign_fields name description color isFavorite f)
  = Folder.name f.
Proof.
  unfold Folders.assign_fields.
  intros [-> | ->]; [| destruct (JsString.truthy (Some (Folder.name f)))];
    (destruct description as [d|]);
    (destruct color as [c|]; [destruct (JsString.truthy (Some c)) |]);
    (destruct isFavorite as [b|]); destruct f; reflexivity.
Qed.

(** C10. An update that does not change the name (none supplied, or the
    current one supplied) modifies the description, color and isFavorite
    fields of the target folder and nothing else: its path, parentFolder
    and name stay, and every other folder, with its path, is left as it
    was. *)
Theorem update_without_rename_is_metadata_only
        (id : Id) (name description color : option string)
        (isFavorite : option bool) (w : World) (folder : Folder.t) :
  FolderQuery.findOwned (folders w) id (User._id (user w)) = Some folder ->
  name = None \/ name = Some (Folder.name folder) ->
  exists folder',
    Folders.update id name description color isFavorite w
    = Some (Ok folder',
            with_folders w
              (map (fun g => if Nat.eqb (Folder._id g) id then folder' else g)
                   (folders w)))
    /\ folder' = Folder.mk (Folder._id folder) (Folder.name folder)
                           (Folder.description folder') (Folder.owner folder)
                           (Folder.parentFolder folder) (Folder.path folder)
                           (Folder.isFavorite folder') (Folder.color folder').
Proof.
  intros Hfind Hname.
  exists (Folders.assign_fields name description color isFavorite folder).
  destruct (findOwned_some _ _ _ _ Hfind) as (_ & Hid & _).
  pose proof (assign_fields_frame name description color isFavorite folder) as Hfr.
  pose proof (assign_fields_keeps_name name description color isFavorite folder Hname)
    as Hnm.
  cbv zeta in Hfr. destruct Hfr as (Hi & Ho & Hp & Hpath).
  split.
  - unfold Folders.update. rewrite Hfind.
    assert (Hsave : forall l,
               FolderQuery.save
                 (Folders.assign_fields name description color isFavorite folder) l
               = map (fun g => if Nat.eqb (Folder._id g) id
                               then Folders.assign_fields name description color
                                                          isFavorite folder
                               else g) l).
    { intros l. unfold FolderQuery.save. now rewrite Hi, Hid. }
    destruct Hname as [-> | ->].
    + now rewrite Hsave.
    + rewrite String.eqb_refl, andb_false_r. now rewrite Hsave.
  - destruct (Folders.assign_fields name description color isFavorite folder)
      as [i n d o p pa fav c] eqn:E.
    cbn in *. now subst.
Qed.

Lemma update_without_rename_is_metadata_only_witness :
  exists folder',
    Folders.update 2 (Some "B") (Some "drafts") None (Some true) Tree.nested
    = Some (Ok folder', with_folders Tree.nested [Tree.folderA; folder'])
    /\ Folder.path folder' = "A/B".
Proof.
  destruct (update_without_rename_is_metadata_only
              2 (Some "B") (Some "drafts") None (Some true)
              Tree.nested Tree.folderB eq_refl (or_intror eq_refl))
    as (folder' & Hupd & Hshape).
  exists folder'. split; [exact Hupd |]. rewrite Hshape. reflexivity.
Defined.

(** ** Deleting a folder without [force] *)




(** ** The name of a duplicated folder *)

Lemma append_inv_last (a b : string) (c : ascii) :
  a ++ String c EmptyString = b ++ String c EmptyString -> a = b.
Proof.
  revert b; induction a as [|x a IH]; intros [|y b] H; simpl in H.
  - reflexivity.
  - injection H as _ H. destruct b; discriminate H.
  - injection H as _ H. destruct a; discriminate H.
  - injection H as -> H. f_equal. now apply IH.
Qed.





Section CopyNameLoop.

Variable taken : string -> bool.
Variable base : string.




End CopyNameLoop.





(** ** Renaming a folder *)

(** The rename scenario: with "A" at the root and "B" inside it, renaming
    "A" to "A2" makes the path of "B" "A2/B" and leaves its parent. *)
Example rename_A_to_A2 :
  map (fun f => (Folder._id f, Folder.name f, Folder.parentFolder f, Folder.path f))
      (folders Rename.with_A_B)
  = [(10, "A", None, "A"); (11, "B", Some 10, "A/B")]
  /\ exists renamed w',
      Folders.update 10 (Some "A2") None None None Rename.with_A_B
      = Some (Ok renamed, w')
      /\ map (fun f => (Folder._id f, Folder.name f, Folder.parentFolder f, Folder.path f))
             (folders w')
         = [(10, "A2", None, "A2"); (11, "B", Some 10, "A2/B")].
Proof. split; [reflexivity |]. eexists. eexists. split; vm_compute; reflexivity. Qed.

(** C3, at the input where the code departs from it. "Docs (Copy)" holds
    "B", whose path starts with "Docs (Copy)/"; renaming "Docs (Copy)" to
    "X" replaces the last segment of its own path, but the pattern
    [^Docs (Copy)/] reads the parentheses as a group, finds no folder, and
    the path of "B" is not rewritten to "X/B". *)
Theorem rename_with_parentheses_skips_descendants :
  map (fun f => (Folder._id f, Folder.name f, Folder.parentFolder f, Folder.path f))
      (folders Rename.with_inner)
  = [(10, "Docs (Copy)", None, "Docs (Copy)"); (11, "B", Some 10, "Docs (Copy)/B")]
  /\ JsString.startsWith "Docs (Copy)/B" ("Docs (Copy)" ++ "/") = true
  /\ exists renamed w',
      Folders.update 10 (Some "X") None None None Rename.with_inner
      = Some (Ok renamed, w')
      /\ map (fun f => (Folder._id f, Folder.name f, Folder.parentFolder f, Folder.path f))
             (folders w')
         = [(10, "X", None, "X"); (11, "B", Some 10, "Docs (Copy)/B")].
Proof.
  split; [reflexivity |]. split; [reflexivity |].
  eexists. eexists. split; vm_compute; reflexivity.
Qed.

(** C1, at the input where the code departs from it. After the two creates
    every stored path is the full path; after renaming "Docs (Copy)" to "X"
    the full path of "B" is "X/B" while its stored path is still
    "Docs (Copy)/B". *)
Theorem rename_with_parentheses_breaks_stored_path :
  Forall (fun f => getFullPath 2 (folders Rename.with_inner) f = Some (Folder.path f))
         (folders Rename.with_inner)
  /\ exists renamed w' inner,
      Folders.update 10 (Some "X") None None None Rename.with_inner
      = Some (Ok renamed, w')
      /\ FolderQuery.findById (folders w') 11 = Some inner
      /\ getFullPath 2 (folders w') inner = Some "X/B"
      /\ Folder.path inner = "Docs (Copy)/B".
Proof.
  split.
  - repeat constructor.
  - eexists. eexists. eexists. repeat split; vm_compute; reflexivity.
Qed.

(** ** Deleting a folder with [force] *)

Lemma deleteFolder_keeps_ledger (fuel : nat) :
  forall (id uid : Id) (w w' : World),
    Folders.deleteFolder fuel id uid w = Some w' ->
    user w' = user w /\ disk w' = disk w.
Proof.
  induction fuel as [|fuel IH]; intros id uid w w' H; [discriminate H |].
  cbn [Folders.deleteFolder] in H.
  set (subfolders := filter (FolderQuery.is_child_of id uid) (folders w)) in H.
  assert (Hloop : forall l w0 w1,
             fold_left
               (fun acc subfolder =>
                  match acc with
                  | Some w2 => Folders.deleteFolder fuel (Folder._id subfolder) uid w2
                  | None => None
                  end) l (Some w0) = Some w1 ->
             user w1 = user w0 /\ disk w1 = disk w0).
  { induction l as [|f l IHl]; intros w0 w1 Hl; simpl in Hl.
    - injection Hl as <-. auto.
    - destruct (Folders.deleteFolder fuel (Folder._id f) uid w0) as [w2|] eqn:E.
      + destruct (IH _ _ _ _ E) as [Hu Hd]. destruct (IHl _ _ Hl) as [Hu' Hd'].
        split; congruence.
      + exfalso. clear - Hl. induction l as [|g l IHg]; simpl in Hl;
          [discriminate | auto]. }
  destruct (fold_left _ subfolders (Some w)) as [w1|] eqn:E; [| discriminate H].
  injection H as <-. destruct (Hloop _ _ _ E) as [Hu Hd]. cbn. auto.
Qed.

(** C2, at the input where the code departs from it. Folder "A" holds
    folder "B", which holds a 600-byte file, and the owner has 600 bytes
    in use. Delete with force removes both folders and the file record,
    and leaves storageUsed at 600: the ledger is not decremented by the
    600 bytes of the subtree (the stored bytes stay in the upload
    directory as well). *)
Theorem forced_remove_keeps_ledger :
  User.storageUsed (user Tree.nested) = 600%Z
  /\ map File.size (files Tree.nested) = [600%Z]
  /\ exists w',
      Folders.remove 2 1 true Tree.nested = Some (Ok tt, w')
      /\ folders w' = []
      /\ files w' = []
      /\ notes w' = []
      /\ User.storageUsed (user w') = 600%Z
      /\ Fs.existsSync (disk w') (File.path Tree.fileInB) = true.
Proof.
  split; [reflexivity |]. split; [reflexivity |].
  eexists. split; [vm_compute; reflexivity |]. repeat split.
Qed.

(** ** Renaming on paths free of metacharacters *)

Lemma plain_app (a b : string) :
  Regex.plain (a ++ b) = Regex.plain a && Regex.plain b.
Proof.
  induction a as [|c a IH]; simpl; [reflexivity |].
  now rewrite IH, andb_assoc.
Qed.

Lemma compile_plain (s : string) :
  Regex.plain s = true -> Regex.compile 0 s = Regex.Pattern (Regex.literal s).
Proof.
  induction s as [|c s IH]; simpl; [reflexivity |].
  intros H. apply andb_true_iff in H. destruct H as [Hc Hs].
  unfold Regex.ordinary in Hc. apply negb_true_iff in Hc.
  rewrite !orb_false_iff in Hc. destruct Hc as [[[H1 H2] H3] H4].
  rewrite H1, H2, H3, H4, (IH Hs). reflexivity.
Qed.

Lemma match_here_literal (p s : string) :
  Regex.match_here (Regex.literal p) s = String.prefix p s.
Proof.
  revert s; induction p as [|a p IH]; intros s; [now destruct s |].
  destruct s as [|b s]; [reflexivity |].
  change (Regex.literal (String a p)) with (Regex.Lit a :: Regex.literal p).
  cbn [Regex.match_here Regex.atom_matches String.prefix]. rewrite IH.
  destruct (ascii_dec a b) as [-> | Hne].
  - now rewrite Ascii.eqb_refl.
  - apply Ascii.eqb_neq in Hne. now rewrite Hne.
Qed.

(** On a plain path the query pattern selects the paths that start with
    the old path followed by a slash. *)
Lemma regex_of_plain_path (oldPath : string) :
  Regex.plain oldPath = true ->
  RegexQuery.regex ("^" ++ oldPath ++ "/")
  = RegexQuery.Accepts (Regex.match_here (Regex.literal (oldPath ++ "/"))).
Proof.
  intros H. cbn [append RegexQuery.regex].
  rewrite compile_plain; [reflexivity |].
  rewrite plain_app, H. reflexivity.
Qed.

Lemma getSubstitution_other (matched before after : string) (c : ascii) (r : string) :
  c <> "$"%char ->
  JsString.getSubstitution matched before after (String c r)
  = String c (JsString.getSubstitution matched before after r).
Proof.
  intros H. destruct c as [[] [] [] [] [] [] [] []]; try reflexivity.
  now contradiction H.
Qed.

Lemma getSubstitution_plain (matched before after r : string) :
  Regex.plain r = true -> JsString.getSubstitution matched before after r = r.
Proof.
  induction r as [|c r IH]; [reflexivity |].
  cbn [Regex.plain]. intros H. apply andb_true_iff in H. destruct H as [Hc Hr].
  rewrite getSubstitution_other, (IH Hr); [reflexivity |].
  intros ->. discriminate Hc.
Qed.

Lemma drop_app_length (a b : string) : JsString.drop (String.length a) (a ++ b) = b.
Proof. induction a as [|c a IH]; simpl; [now destruct b | exact IH]. Qed.

(** Replacing a prefix by a plain text. *)
Lemma replace_prefix (s oldPath newPath : string) :
  String.prefix oldPath s = true ->
  Regex.plain newPath = true ->
  JsString.replace s oldPath newPath
  = newPath ++ JsString.drop (String.length oldPath) s.
Proof.
  intros Hp Hn. unfold JsString.replace.
  assert (Hcut : JsString.cut_first oldPath s
                 = Some (EmptyString, JsString.drop (String.length oldPath) s)).
  { destruct s; cbn [JsString.cut_first]; now rewrite Hp. }
  rewrite Hcut, getSubstitution_plain by exact Hn. reflexivity.
Qed.

Lemma plain_split (s : string) :
  Regex.plain s = true ->
  Forall (fun p => Regex.plain p = true) (JsString.split "/" s).
Proof.
  induction s as [|c s IH]; simpl; intros H; [repeat constructor |].
  apply andb_true_iff in H. destruct H as [Hc Hs]. specialize (IH Hs).
  destruct (Ascii.eqb c "/").
  - constructor; [reflexivity | exact IH].
  - destruct (JsString.split "/" s) as [|h t]; inversion IH; subst;
      constructor; simpl; auto.
    + now rewrite Hc.
    + now rewrite Hc.
Qed.

Lemma plain_set_last (l : list string) (n : string) :
  Forall (fun p => Regex.plain p = true) l -> Regex.plain n = true ->
  Forall (fun p => Regex.plain p = true) (JsString.set_last l n).
Proof.
  intros Hl Hn. induction Hl as [|p l Hp Hl IH]; simpl; [constructor |].
  destruct l; constructor; auto.
Qed.

Lemma plain_join (l : list string) :
  Forall (fun p => Regex.plain p = true) l ->
  Regex.plain (JsString.join "/" l) = true.
Proof.
  unfold JsString.join.
  induction 1 as [|p l Hp Hl IH]; [reflexivity |].
  destruct l as [|q l]; [exact Hp |].
  change (String.concat "/" (p :: q :: l))
    with (p ++ "/" ++ String.concat "/" (q :: l)).
  rewrite !plain_app, Hp, IH. reflexivity.
Qed.

(** The loop of saves is a pointwise rewrite when ids are unique. *)
Section SaveAll.

Variable upd : Folder.t -> Folder.t.
Hypothesis upd_id : forall g, Folder._id (upd g) = Folder._id g.
Variable l : list Folder.t.
Hypothesis ids_unique : NoDup (map Folder._id l).

Lemma same_id_same_doc (a b : Folder.t) :
  In a l -> In b l -> Folder._id a = Folder._id b -> a = b.
Proof.
  clear upd upd_id. revert ids_unique.
  induction l as [|x l' IH]; simpl; intros Hnd Ha Hb E; [contradiction |].
  inversion Hnd as [|? ? Hx Hnd']; subst.
  destruct Ha as [-> | Ha], Hb as [-> | Hb]; auto.
  - exfalso. apply Hx. rewrite E. now apply in_map.
  - exfalso. apply Hx. rewrite <- E. now apply in_map.
Qed.

Lemma save_all (subs : list Folder.t) :
  forall done,
    (forall s, In s subs -> In s l) ->
    fold_left (fun acc s => FolderQuery.save (upd s) acc) subs
              (map (fun g => if FolderQuery.among done g then upd g else g) l)
    = map (fun g => if FolderQuery.among (done ++ subs) g then upd g else g) l.
Proof.
  induction subs as [|s rest IH]; intros done Hin; simpl.
  - now rewrite app_nil_r.
  - replace (done ++ s :: rest)%list with ((done ++ [s]) ++ rest)%list
      by now rewrite <- app_assoc.
    rewrite <- IH by (intros; apply Hin; now right). f_equal.
    unfold FolderQuery.save. rewrite map_map. apply map_ext_in.
    intros g Hg. unfold FolderQuery.among. rewrite existsb_app. simpl. rewrite orb_false_r.
    assert (Hidg : Folder._id (if existsb (fun s0 => Nat.eqb (Folder._id s0) (Folder._id g)) done
                               then upd g else g) = Folder._id g).
    { destruct (existsb _ done); [apply upd_id | reflexivity]. }
    rewrite Hidg, upd_id, (Nat.eqb_sym (Folder._id g)).
    destruct (Nat.eqb_spec (Folder._id s) (Folder._id g)) as [E | E].
    + rewrite orb_true_r.
      now rewrite (same_id_same_doc s g (Hin s (or_introl eq_refl)) Hg E).
    + now rewrite orb_false_r.
Qed.

Lemma among_filter (P : Folder.t -> bool) (g : Folder.t) :
  In g l -> FolderQuery.among (filter P l) g = P g.
Proof.
  intros Hg. unfold FolderQuery.among. destruct (P g) eqn:E.
  - apply existsb_exists. exists g. split; [| apply Nat.eqb_refl].
    apply filter_In. auto.
  - destruct (existsb _ _) eqn:Ex; [| reflexivity].
    apply existsb_exists in Ex. destruct Ex as (s & Hs & Hid).
    apply filter_In in Hs. destruct Hs as [Hs HP]. apply Nat.eqb_eq in Hid.
    rewrite (same_id_same_doc s g Hs Hg Hid) in HP. congruence.
Qed.

Lemma save_found (P : Folder.t -> bool) :
  fold_left (fun acc s => FolderQuery.save (upd s) acc) (filter P l) l
  = map (fun g => if P g then upd g else g) l.
Proof.
  pose proof (save_all (filter P l) []) as H. simpl in H.
  rewrite map_id in H. rewrite H.
  - apply map_ext_in. intros g Hg. now rewrite among_filter.
  - intros s Hs. apply filter_In in Hs. tauto.
Qed.

End SaveAll.

Lemma prefix_weaken (a b s : string) :
  String.prefix (a ++ b) s = true -> String.prefix a s = true.
Proof.
  intros H. apply prefix_starts_with in H. destruct H as [r ->].
  rewrite append_assoc. apply prefix_app.
Qed.

(** Away from metacharacters the rename rewrites the whole subtree: the
    folder's own path has its last segment replaced, every folder of the
    owner whose path starts with the old path and a slash has that prefix
    replaced by the new path, and nothing else changes. *)
Lemma rename_on_plain_path
      (id : Id) (n : string) (description color : option string)
      (isFavorite : option bool) (w : World) (folder : Folder.t) :
  NoDup (map Folder._id (folders w)) ->
  FolderQuery.findOwned (folders w) id (User._id (user w)) = Some folder ->
  n <> EmptyString ->
  n <> Folder.name folder ->
  existsb (fun f => FolderQuery.is_sibling_named
                      n (User._id (user w)) (Folder.parentFolder folder) f
                    && negb (Nat.eqb (Folder._id f) (Folder._id folder)))
          (folders w) = false ->
  Regex.plain (Folder.path folder) = true ->
  Regex.plain n = true ->
  let oldPath := Folder.path folder in
  let newPath := JsString.join "/" (JsString.set_last (JsString.split "/" oldPath) n) in
  let renamed :=
    Folders.assign_fields (Some n) description color isFavorite
                          (Folder.set_path folder newPath) in
  Folders.update id (Some n) description color isFavorite w
  = Some (Ok renamed,
          with_folders w
            (map (fun g =>
                    if Nat.eqb (Folder._id g) id then renamed
                    else if Nat.eqb (Folder.owner g) (User._id (user w))
                            && JsString.startsWith (Folder.path g) (oldPath ++ "/")
                         then Folder.set_path
                                g (newPath ++ JsString.drop (String.length oldPath)
                                                            (Folder.path g))
                         else g)
                 (folders w)))
  /\ Folder.path renamed = newPath
  /\ Folder.name renamed = n
  /\ Folder.parentFolder renamed = Folder.parentFolder folder.
Proof.
  intros Hnd Hfind Hne Hdiff Hfree Hold Hn oldPath newPath renamed.
  destruct (findOwned_some _ _ _ _ Hfind) as (_ & Hid & _).
  assert (Hnew : Regex.plain newPath = true).
  { apply plain_join, plain_set_last; [apply plain_split |]; assumption. }
  pose proof (assign_fields_frame (Some n) description color isFavorite
                                  (Folder.set_path folder newPath)) as Hfr.
  cbv zeta in Hfr. fold renamed in Hfr. destruct Hfr as (Hi & _ & Hp & Hpath).
  assert (Htruthy : JsString.truthy (Some n) = true).
  { cbn. apply negb_true_iff, String.eqb_neq. exact Hne. }
  split; [| split; [| split]].
  - unfold Folders.update. rewrite Hfind, Htruthy.
    apply String.eqb_neq in Hdiff. rewrite Hdiff. cbn [negb andb].
    rewrite Hfree. fold oldPath. rewrite (regex_of_plain_path oldPath Hold).
    cbn [Folder.path Folder.set_path]. fold newPath. fold renamed.
    do 3 f_equal. unfold Folders.rewrite_subfolders.
    rewrite (save_found
               (fun s => Folder.set_path s (JsString.replace (Folder.path s) oldPath newPath))
               (fun g => eq_refl) (folders w) Hnd).
    unfold FolderQuery.save. rewrite map_map. apply map_ext. intros g.
    rewrite match_here_literal. unfold JsString.startsWith.
    assert (Hidg : forall x : string,
               Folder._id (if Nat.eqb (Folder.owner g) (User._id (user w))
                              && String.prefix (oldPath ++ "/") (Folder.path g)
                           then Folder.set_path g x else g) = Folder._id g).
    { intros x. now destruct (_ && _). }
    rewrite Hidg, Hi. cbn [Folder.set_path Folder._id]. rewrite Hid.
    destruct (Nat.eqb (Folder._id g) id); [reflexivity |].
    destruct (Nat.eqb (Folder.owner g) (User._id (user w))); [| reflexivity].
    cbn [andb].
    destruct (String.prefix (oldPath ++ "/") (Folder.path g)) eqn:E; [| reflexivity].
    rewrite replace_prefix; [reflexivity | | exact Hnew].
    eapply prefix_weaken. exact E.
  - rewrite Hpath. reflexivity.
  - unfold renamed, Folders.assign_fields. rewrite Htruthy.
    destruct description, color as [c|], isFavorite;
      try destruct (JsString.truthy (Some c)); reflexivity.
  - rewrite Hp. reflexivity.
Qed.

(** ** Creating a folder keeps the stored paths right *)

Lemma findById_app (l l' : list Folder.t) (p : Id) :
  FolderQuery.findById (l ++ l') p
  = match FolderQuery.findById l p with
    | Some x => Some x
    | None => FolderQuery.findById l' p
    end.
Proof.
  unfold FolderQuery.findById.
  induction l as [|x l IH]; simpl; [reflexivity |].
  destruct (Nat.eqb (Folder._id x) p); [reflexivity | exact IH].
Qed.

Lemma getFullPath_app (l l' : list Folder.t) (fuel : nat) :
  forall (f : Folder.t) (s : string),
    getFullPath fuel l f = Some s -> getFullPath fuel (l ++ l') f = Some s.
Proof.
  induction fuel as [|fuel IH]; intros f s H; [discriminate H |].
  cbn [getFullPath] in *.
  destruct (Folder.parentFolder f) as [p|]; [| exact H].
  rewrite findById_app.
  destruct (FolderQuery.findById l p) as [parent|]; [| discriminate H].
  destruct (getFullPath fuel l parent) as [pp|] eqn:E; [| discriminate H].
  now rewrite (IH _ _ E).
Qed.

Lemma findById_of_findOwned (l : list Folder.t) (p uid : Id) (parent : Folder.t) :
  NoDup (map Folder._id l) ->
  FolderQuery.findOwned l p uid = Some parent ->
  FolderQuery.findById l p = Some parent.
Proof.
  intros Hnd H. destruct (findOwned_some _ _ _ _ H) as (Hin & Hid & _).
  unfold FolderQuery.findById.
  destruct (find _ l) as [x|] eqn:E.
  - apply find_some in E. destruct E as [Hx Ex]. apply Nat.eqb_eq in Ex.
    f_equal. apply (same_id_same_doc l Hnd); congruence.
  - apply (find_none _ _ E) in Hin. apply Nat.eqb_neq in Hin. congruence.
Qed.

Lemma append_keeps_paths_consistent (w : World) (doc : Folder.t) :
  Invariant.ids_fresh w ->
  Invariant.paths_consistent (folders w) ->
  Folder._id doc = next_oid w ->
  (exists fuel, getFullPath fuel (folders w ++ [doc]) doc = Some (Folder.path doc)) ->
  let w' := mkWorld (user w) (folders w ++ [doc]) (files w) (notes w) (disk w)
                    (S (next_oid w)) in
  Invariant.ids_fresh w' /\ Invariant.paths_consistent (folders w').
Proof.
  intros [Hnd Hlt] Hpc Hid Hnew w'. split; [split |].
  - cbn. rewrite map_app. cbn.
    apply NoDup_app; [exact Hnd | repeat constructor; auto |].
    intros i Hi [<- | []]. apply in_map_iff in Hi. destruct Hi as (f & Hf & Hin).
    rewrite Forall_forall in Hlt. specialize (Hlt f Hin). lia.
  - cbn. apply Forall_app. split.
    + eapply Forall_impl; [| exact Hlt]. cbn. intros; lia.
    + constructor; [cbn; lia | constructor].
  - unfold Invariant.paths_consistent. cbn. apply Forall_app. split.
    + eapply Forall_impl; [| exact Hpc]. cbn. intros f [fuel Hf].
      exists fuel. now apply getFullPath_app.
    + constructor; [exact Hnew | constructor].
Qed.

(** Create keeps the stored paths right: on a store with unique ids whose paths
    are right, a create leaves a store with unique ids whose paths are
    right, the new folder's included. *)
Lemma create_keeps_paths_consistent
      (name : string) (description : option string) (parentFolder : option Id)
      (color : option string) (w : World) :
  Invariant.ids_fresh w ->
  Invariant.paths_consistent (folders w) ->
  Invariant.ids_fresh (snd (Folders.create name description parentFolder color w))
  /\ Invariant.paths_consistent
       (folders (snd (Folders.create name description parentFolder color w))).
Proof.
  intros Hfresh Hpc. unfold Folders.create.
  destruct (existsb _ (folders w)); [split; assumption |].
  destruct parentFolder as [p|].
  - destruct (FolderQuery.findOwned (folders w) p (User._id (user w))) as [parent|] eqn:E;
      [| split; assumption].
    cbn [fresh_oid with_folders snd folders files notes disk user next_oid].
    apply append_keeps_paths_consistent; [assumption | assumption | reflexivity |].
    pose proof (findById_of_findOwned _ _ _ _ (proj1 Hfresh) E) as Hby.
    destruct (findOwned_some _ _ _ _ E) as (Hin & _ & _).
    unfold Invariant.paths_consistent in Hpc. rewrite Forall_forall in Hpc.
    destruct (Hpc parent Hin) as [fuel Hf].
    exists (S fuel). cbn [getFullPath Folder.parentFolder Folder.name Folder.path].
    rewrite findById_app, Hby. now rewrite (getFullPath_app _ _ _ _ _ Hf).
  - cbn [fresh_oid with_folders snd folders files notes disk user next_oid].
    apply append_keeps_paths_consistent; [assumption | assumption | reflexivity |].
    exists 1. reflexivity.
Qed.

(** ** What a forced delete removes *)

Lemma folder_eq_dec (a b : Folder.t) : {a = b} + {a <> b}.
Proof. repeat decide equality. Qed.

Lemma shrinks_refl (w : World) : Cascade.shrinks w w.
Proof. repeat split; apply incl_refl. Qed.

Lemma shrinks_trans (w1 w2 w3 : World) :
  Cascade.shrinks w1 w2 -> Cascade.shrinks w2 w3 -> Cascade.shrinks w1 w3.
Proof.
  intros (A & B & C) (A' & B' & C').
  repeat split; eapply incl_tran; eassumption.
Qed.

Lemma emptied_shrinks (uid i : Id) (w w' : World) :
  Cascade.shrinks w w' -> Cascade.emptied uid i w -> Cascade.emptied uid i w'.
Proof.
  intros (A & B & C) (E1 & E2 & E3). repeat split; intros; auto.
Qed.

Lemma cascades_refl (uid : Id) (w : World) : Cascade.cascades uid w w.
Proof. split; [apply shrinks_refl | intros g H1 H2; contradiction]. Qed.

Lemma cascades_trans (uid : Id) (w1 w2 w3 : World) :
  Cascade.cascades uid w1 w2 -> Cascade.cascades uid w2 w3 ->
  Cascade.cascades uid w1 w3.
Proof.
  intros [S12 C12] [S23 C23]. split; [eapply shrinks_trans; eassumption |].
  intros g Hg Hgone.
  destruct (in_dec folder_eq_dec g (folders w2)) as [Hin | Hout].
  - now apply C23.
  - eapply emptied_shrinks; [exact S23 | now apply C12].
Qed.

Section DeleteFolder.

Variable uid : Id.

Variable fuel : nat.
Hypothesis calls_clear :
  forall id w w', Folders.deleteFolder fuel id uid w = Some w' -> Cascade.cleared uid id w w'.

Lemma visit_none (subfolders : list Folder.t) :
  fold_left (Cascade.visit fuel uid) subfolders None = None.
Proof. induction subfolders; simpl; auto. Qed.

(** The loop over the subfolders. *)
Lemma subfolders_cleared (subfolders : list Folder.t) :
  forall w w1,
    fold_left (Cascade.visit fuel uid) subfolders (Some w) = Some w1 ->
    Cascade.cascades uid w w1
    /\ forall c f, In c subfolders -> In f (folders w1) -> Folder._id f <> Folder._id c.
Proof.
  induction subfolders as [|c rest IH]; intros w w1 H; simpl in H.
  - injection H as <-. split; [apply cascades_refl | intros c f []].
  - destruct (Folders.deleteFolder fuel (Folder._id c) uid w) as [w0|] eqn:E;
      [| now rewrite visit_none in H].
    destruct (calls_clear _ _ _ E) as (C0 & Hid0 & _).
    destruct (IH _ _ H) as [C1 Hrest].
    split; [eapply cascades_trans; eassumption |].
    intros c' f [<- | Hc'] Hf; [| now apply (Hrest c')].
    apply Hid0. destruct C1 as [(Sf & _ & _) _]. now apply Sf.
Qed.

(** One more level: the body of [deleteFolder] around the loop. *)
Lemma body_clears (id : Id) (w w' : World) :
  Folders.deleteFolder (S fuel) id uid w = Some w' -> Cascade.cleared uid id w w'.
Proof.
  intros H. cbn [Folders.deleteFolder] in H.
  change (fun (acc : option World) (subfolder : Folder.t) =>
            match acc with
            | Some w' => Folders.deleteFolder fuel (Folder._id subfolder) uid w'
            | None => None
            end)
    with (Cascade.visit fuel uid) in H.
  destruct (fold_left (Cascade.visit fuel uid) _ (Some w)) as [w1|] eqn:E;
    [| discriminate H].
  injection H as <-.
  destruct (subfolders_cleared _ _ _ E) as [[S1 C1] Hkids].
  set (w' := with_folders _ _).
  assert (S' : Cascade.shrinks w1 w').
  { repeat split; cbn; intros x Hx; apply filter_In in Hx; tauto. }
  assert (Hid : forall f, In f (folders w') -> Folder._id f <> id).
  { cbn. intros f Hf. apply filter_In in Hf. destruct Hf as [_ Hf].
    apply negb_true_iff, Nat.eqb_neq in Hf. exact Hf. }
  assert (Hempty : Cascade.emptied uid id w').
  { repeat split.
    - intros f Hf. destruct (FolderQuery.is_child_of id uid f) eqn:Ec; [| reflexivity].
      exfalso. destruct S' as (Sf & _ & _). apply Sf in Hf.
      apply (Hkids f f); [| exact Hf | reflexivity].
      apply filter_In. split; [| exact Ec]. destruct S1 as (Sf1 & _ & _). now apply Sf1.
    - cbn. intros x Hx. apply filter_In in Hx. destruct Hx as [_ Hx].
      now apply negb_true_iff in Hx.
    - cbn. intros n Hn. apply filter_In in Hn. destruct Hn as [_ Hn].
      now apply negb_true_iff in Hn. }
  split; [| split; assumption].
  split; [eapply shrinks_trans; eassumption |].
  intros g Hg Hgone.
  destruct (in_dec folder_eq_dec g (folders w1)) as [Hin | Hout].
  - assert (Folder._id g = id) as ->; [| exact Hempty].
    destruct (Nat.eq_dec (Folder._id g) id) as [|Hne]; [assumption |].
    exfalso. apply Hgone. cbn. apply filter_In. split; [exact Hin |].
    now apply negb_true_iff, Nat.eqb_neq.
  - eapply emptied_shrinks; [exact S' | now apply C1].
Qed.

End DeleteFolder.

Lemma deleteFolder_clears (uid : Id) (fuel : nat) :
  forall id w w',
    Folders.deleteFolder fuel id uid w = Some w' -> Cascade.cleared uid id w w'.
Proof.
  induction fuel as [|fuel IH]; intros id w w' H; [discriminate H |].
  eapply body_clears; eassumption.
Qed.

(** The removal itself is complete: a cascade that returns has removed the
    folder, every folder below it, and the files and notes of the owner
    inside any of them. *)
Lemma deleteFolder_removes_subtree (uid : Id) (fuel : nat) (id : Id) (w w' : World) :
  Folders.deleteFolder fuel id uid w = Some w' ->
  (forall f, In f (folders w') -> Folder._id f <> id)
  /\ Cascade.emptied uid id w'
  /\ forall f, Cascade.below uid (folders w) id f ->
               ~ In f (folders w') /\ Cascade.emptied uid (Folder._id f) w'.
Proof.
  intros H. destruct (deleteFolder_clears _ _ _ _ _ H) as ([Sh Cl] & Hid & Hempty).
  split; [exact Hid |]. split; [exact Hempty |].
  assert (Hgone : forall f, Cascade.below uid (folders w) id f -> ~ In f (folders w')).
  { induction 1 as [f Hin Hc | g f Hg IH Hin Hc]; intros Hf.
    - destruct Hempty as (E & _ & _). rewrite (E f Hf) in Hc. discriminate.
    - assert (Hgin : In g (folders w)) by (destruct Hg; assumption).
      destruct (Cl g Hgin IH) as (E & _ & _). rewrite (E f Hf) in Hc. discriminate. }
  intros f Hf. split; [now apply Hgone |].
  apply Cl; [destruct Hf; assumption | now apply Hgone].
Qed.

(** The cascade returns when the subtree is shallower than the fuel. *)

Lemma shallower_incl (n : nat) (uid : Id) (l l' : list Folder.t) :
  incl l' l ->
  forall id, Cascade.shallower n uid l id -> Cascade.shallower n uid l' id.
Proof.
  intros Hincl. induction n as [|n IH]; intros id H; [exact H |].
  cbn in *. intros c Hc Hchild. apply IH, H; auto.
Qed.

Lemma deleteFolder_returns (uid : Id) (fuel : nat) :
  forall id w,
    Cascade.shallower fuel uid (folders w) id ->
    exists w', Folders.deleteFolder fuel id uid w = Some w'.
Proof.
  induction fuel as [|fuel IH]; intros id w H; [destruct H |].
  cbn [Folders.deleteFolder].
  assert (Hloop : forall subfolders w0,
             Cascade.shrinks w w0 ->
             (forall c, In c subfolders ->
                        Cascade.shallower fuel uid (folders w) (Folder._id c)) ->
             exists w1,
               fold_left
                 (fun acc subfolder =>
                    match acc with
                    | Some w2 => Folders.deleteFolder fuel (Folder._id subfolder) uid w2
                    | None => None
                    end) subfolders (Some w0) = Some w1).
  { induction subfolders as [|c rest IHr]; intros w0 Hs Hall; simpl.
    - now exists w0.
    - destruct (IH (Folder._id c) w0) as [w2 E].
      { eapply shallower_incl; [apply Hs | apply Hall; now left]. }
      rewrite E. apply IHr; [| intros; apply Hall; now right].
      eapply shrinks_trans; [exact Hs |].
      apply (deleteFolder_clears _ _ _ _ _ E). }
  destruct (Hloop (filter (FolderQuery.is_child_of id uid) (folders w)) w) as [w1 E].
  - apply shrinks_refl.
  - intros c Hc. apply filter_In in Hc. destruct Hc as [Hin Hchild].
    cbn in H. now apply H.
  - rewrite E. eexists. reflexivity.
Qed.

(** The delete route with [force]: on a subtree shallower than the fuel it
    answers 200, the subtree is gone, and the requester's document, with
    its storageUsed, is as before. *)
Lemma forced_remove_clears_subtree
      (fuel : nat) (id : Id) (w : World) (folder : Folder.t) :
  FolderQuery.findOwned (folders w) id (User._id (user w)) = Some folder ->
  Cascade.shallower fuel (User._id (user w)) (folders w) id ->
  exists w',
    Folders.remove fuel id true w = Some (Ok tt, w')
    /\ Cascade.cleared (User._id (user w)) id w w'
    /\ (forall f, Cascade.below (User._id (user w)) (folders w) id f ->
                  ~ In f (folders w')
                  /\ Cascade.emptied (User._id (user w)) (Folder._id f) w')
    /\ user w' = user w.
Proof.
  intros Hfind Hsh. destruct (findOwned_some _ _ _ _ Hfind) as (_ & Hid & _).
  destruct (deleteFolder_returns _ _ _ _ Hsh) as [w' E].
  exists w'. unfold Folders.remove. rewrite Hfind, Hid, E, andb_false_r.
  split; [reflexivity |].
  split; [now apply deleteFolder_clears with (fuel := fuel) |].
  split; [apply (deleteFolder_removes_subtree _ _ _ _ _ E) |].
  apply (deleteFolder_keeps_ledger _ _ _ _ _ E).
Qed.

Example forced_remove_clears_nested :
  exists w',
    Folders.remove 2 1 true Tree.nested = Some (Ok tt, w')
    /\ ~ In Tree.folderB (folders w')
    /\ user w' = user Tree.nested.
Proof.
  destruct (forced_remove_clears_subtree 2 1 Tree.nested Tree.folderA eq_refl)
    as (w' & Hrun & _ & Hbelow & Huser).
  - cbn. intros c [<- | [<- | []]] Hc; [discriminate Hc |].
    intros c' [<- | [<- | []]] Hc'; discriminate Hc'.
  - exists w'. split; [exact Hrun |]. split; [| exact Huser].
    apply Hbelow. apply Cascade.below_child; [right; left; reflexivity | reflexivity].
Qed.

(** The rename of the scenario, read off the general statement. *)
Example rename_A_to_A2_by_prefix :
  exists renamed w',
    Folders.update 10 (Some "A2") None None None Rename.with_A_B
    = Some (Ok renamed, w')
    /\ map Folder.path (folders w') = ["A2"; "A2/B"].
Proof.
  destruct (rename_on_plain_path 10 "A2" None None None Rename.with_A_B
                                 (Folder.mk 10 "A" None 1 None "A" false
                                            Folders.default_color))
    as (Hrun & _); try reflexivity; try discriminate.
  - cbn. repeat constructor; cbn; intuition discriminate.
  - eexists. eexists. split; [exact Hrun | reflexivity].
Qed.

(** ** Two more inputs on which the rename goes wrong *)

(** A name may hold a slash; the rename then replaces only what follows
    the last slash of the stored path. *)
Example rename_of_name_with_slash :
  exists renamed w',
    Folders.update 10 (Some "c") None None None Slips.with_slash
    = Some (Ok renamed, w')
    /\ Folder.name renamed = "c"
    /\ Folder.path renamed = "a/c"
    /\ getFullPath 1 (folders w') renamed = Some "c".
Proof. eexists. eexists. repeat split; vm_compute; reflexivity. Qed.

(** In the replacement text of [String.prototype.replace] the two
    characters [$&] stand for the matched text: renaming "A" to that name
    rewrites the path of "B" to itself. *)
Example rename_to_dollar_ampersand :
  exists renamed w',
    Folders.update 10 (Some "$&") None None None Rename.with_A_B
    = Some (Ok renamed, w')
    /\ map Folder.path (folders w') = ["$&"; "A/B"].
Proof. eexists. eexists. split; vm_compute; reflexivity. Qed.

(** ** Splitting and joining paths *)

Lemma split_nonempty (s : string) : JsString.split "/" s <> [].
Proof.
  destruct s as [|c s]; simpl; [discriminate |].
  destruct (Ascii.eqb c "/"); [discriminate |].
  destruct (JsString.split "/" s); discriminate.
Qed.

Lemma split_slash_free (s : string) :
  Names.slash_free s = true -> JsString.split "/" s = [s].
Proof.
  induction s as [|c s IH]; simpl; [reflexivity |].
  intros H. apply andb_true_iff in H. destruct H as [Hc Hs].
  apply negb_true_iff in Hc. rewrite Hc, (IH Hs). reflexivity.
Qed.

Lemma split_app_slash (a b : string) :
  JsString.split "/" (a ++ "/" ++ b)
  = (JsString.split "/" a ++ JsString.split "/" b)%list.
Proof.
  induction a as [|c a IH]; simpl in *.
  - reflexivity.
  - rewrite IH. destruct (Ascii.eqb c "/"); [reflexivity |].
    destruct (JsString.split "/" a) eqn:E; [now apply split_nonempty in E |].
    reflexivity.
Qed.

Lemma join_split (s : string) : JsString.join "/" (JsString.split "/" s) = s.
Proof.
  unfold JsString.join. induction s as [|c s IH]; simpl; [reflexivity |].
  destruct (Ascii.eqb_spec c "/") as [-> | Hne].
  - destruct (JsString.split "/" s) eqn:E; [now apply split_nonempty in E |].
    change (String.concat "/" (EmptyString :: s0 :: l))
      with (EmptyString ++ "/" ++ String.concat "/" (s0 :: l)).
    rewrite IH. reflexivity.
  - destruct (JsString.split "/" s) as [|h t] eqn:E; [now apply split_nonempty in E |].
    destruct t as [|h' t].
    + simpl in *. now rewrite IH.
    + change (String.concat "/" (String c h :: h' :: t))
        with (String c (h ++ "/" ++ String.concat "/" (h' :: t))).
      change (String.concat "/" (h :: h' :: t))
        with (h ++ "/" ++ String.concat "/" (h' :: t)) in IH.
      now rewrite IH.
Qed.

Lemma set_last_snoc (l : list string) (b n : string) :
  JsString.set_last (l ++ [b]) n = (l ++ [n])%list.
Proof.
  induction l as [|x l IH]; simpl; [reflexivity |].
  rewrite IH. destruct l; reflexivity.
Qed.

Lemma join_snoc (l : list string) (n : string) :
  l <> [] -> JsString.join "/" (l ++ [n]) = JsString.join "/" l ++ "/" ++ n.
Proof.
  unfold JsString.join. induction l as [|x l IH]; [congruence |]. intros _.
  destruct l as [|y l]; [reflexivity |].
  change (String.concat "/" ((x :: y :: l) ++ [n]))
    with (x ++ "/" ++ String.concat "/" ((y :: l) ++ [n])).
  rewrite IH by discriminate.
  change (String.concat "/" (x :: y :: l))
    with (x ++ "/" ++ String.concat "/" (y :: l)).
  now rewrite !append_assoc.
Qed.

(** Replacing the last segment of a path. *)
Lemma retarget_child (a b n : string) :
  Names.slash_free b = true ->
  JsString.join "/" (JsString.set_last (JsString.split "/" (a ++ "/" ++ b)) n)
  = a ++ "/" ++ n.
Proof.
  intros Hb. rewrite split_app_slash, (split_slash_free b Hb), set_last_snoc.
  rewrite join_snoc by apply split_nonempty. now rewrite join_split.
Qed.

Lemma retarget_root (b n : string) :
  Names.slash_free b = true ->
  JsString.join "/" (JsString.set_last (JsString.split "/" b) n) = n.
Proof. intros Hb. now rewrite (split_slash_free b Hb). Qed.

Lemma slash_free_app (a b : string) :
  Names.slash_free (a ++ b) = Names.slash_free a && Names.slash_free b.
Proof.
  induction a as [|c a IH]; simpl; [reflexivity |]. now rewrite IH, andb_assoc.
Qed.

Lemma slash_in_the_middle (a r : string) : Names.slash_free (a ++ "/" ++ r) = false.
Proof. rewrite slash_free_app. simpl. apply andb_false_r. Qed.

Lemma length_append (a b : string) :
  String.length (a ++ b) = String.length a + String.length b.
Proof. induction a as [|c a IH]; simpl; [reflexivity | now rewrite IH]. Qed.

Lemma prefix_length (p s : string) :
  String.prefix p s = true -> String.length p <= String.length s.
Proof.
  intros H. apply prefix_starts_with in H. destruct H as [r ->].
  rewrite length_append. lia.
Qed.

(** A prefix of [a ++ y] is a prefix of [a] or runs into [y]. *)
Lemma prefix_of_append (x a y : string) :
  String.prefix x (a ++ y) = true ->
  String.prefix x a = true
  \/ exists x2, x = a ++ x2 /\ String.prefix x2 y = true.
Proof.
  revert x; induction a as [|c a IH]; intros x H.
  - right. exists x. auto.
  - destruct x as [|d x]; [left; reflexivity |].
    simpl in H. destruct (ascii_dec d c) as [-> | Hne]; [| discriminate H].
    destruct (IH x H) as [Hp | (x2 & -> & Hx2)].
    + left. simpl. destruct (ascii_dec c c); [exact Hp | congruence].
    + right. exists x2. auto.
Qed.

Lemma ends_with_slash (s t x : string) :
  s ++ "/" = t ++ x -> x <> EmptyString -> Names.slash_free x = false.
Proof.
  revert s; induction t as [|c t IH]; intros s H Hx.
  - simpl in H. subst x. rewrite slash_free_app. simpl. apply andb_false_r.
  - destruct s as [|d s]; simpl in H.
    + injection H as _ H. destruct t; [| discriminate H].
      simpl in H. congruence.
    + injection H as _ H. now apply (IH s).
Qed.

(** A path that starts with [p] and a slash, seen from its last segment. *)
Lemma prefix_before_last_segment (p a b : string) :
  Names.slash_free b = true ->
  String.prefix (p ++ "/") (a ++ "/" ++ b) = true ->
  p = a \/ String.prefix (p ++ "/") a = true.
Proof.
  intros Hb H. apply prefix_of_append in H.
  destruct H as [H | (x2 & Hx & Hp)]; [now right |].
  destruct x2 as [|c x2].
  - rewrite append_nil_r in Hx. right. rewrite Hx.
    rewrite <- (append_nil_r a) at 2. apply prefix_app.
  - simpl in Hp. destruct (ascii_dec c "/") as [-> | ]; [| discriminate Hp].
    destruct x2 as [|d x2].
    + left. now apply append_inv_last in Hx.
    + exfalso.
      assert (Hfree : Names.slash_free (String d x2) = true).
      { apply prefix_starts_with in Hp. destruct Hp as [r ->].
        rewrite slash_free_app in Hb. now apply andb_true_iff in Hb. }
      change (a ++ String "/" (String d x2)) with (a ++ "/" ++ String d x2) in Hx.
      rewrite <- append_assoc in Hx.
      apply ends_with_slash in Hx; [congruence | discriminate].
Qed.

Lemma last_segment_inj (a a' b b' : string) :
  Names.slash_free b = true -> Names.slash_free b' = true ->
  a ++ "/" ++ b = a' ++ "/" ++ b' -> a = a' /\ b = b'.
Proof.
  intros Hb Hb' H.
  assert (Hs : (JsString.split "/" a ++ [b])%list = (JsString.split "/" a' ++ [b'])%list).
  { rewrite <- (split_slash_free b Hb), <- (split_slash_free b' Hb').
    rewrite <- !split_app_slash. now rewrite H. }
  apply app_inj_tail in Hs. destruct Hs as [Hs ->]. split; [| reflexivity].
  rewrite <- (join_split a), <- (join_split a'). now rewrite Hs.
Qed.

(** ** Forests *)

Lemma getFullPath_deterministic (l : list Folder.t) (k1 : nat) :
  forall (k2 : nat) (f : Folder.t) (a b : string),
    getFullPath k1 l f = Some a -> getFullPath k2 l f = Some b -> a = b.
Proof.
  induction k1 as [|k1 IH]; intros k2 f a b Ha Hb; [discriminate Ha |].
  destruct k2 as [|k2]; [discriminate Hb |].
  cbn [getFullPath] in Ha, Hb.
  destruct (Folder.parentFolder f) as [p|]; [| congruence].
  destruct (FolderQuery.findById l p) as [parent|]; [| discriminate Ha].
  destruct (getFullPath k1 l parent) as [pa|] eqn:Ea; [| discriminate Ha].
  destruct (getFullPath k2 l parent) as [pb|] eqn:Eb; [| discriminate Hb].
  rewrite (IH _ _ _ _ Ea Eb) in Ha. congruence.
Qed.

Lemma findById_some (l : list Folder.t) (p : Id) (g : Folder.t) :
  FolderQuery.findById l p = Some g -> In g l /\ Folder._id g = p.
Proof.
  unfold FolderQuery.findById. intros H. apply find_some in H.
  destruct H as [Hin H]. apply Nat.eqb_eq in H. auto.
Qed.

Lemma findById_map (phi : Folder.t -> Folder.t) (l : list Folder.t) (p : Id) :
  (forall g, Folder._id (phi g) = Folder._id g) ->
  FolderQuery.findById (map phi l) p = option_map phi (FolderQuery.findById l p).
Proof.
  intros Hid. unfold FolderQuery.findById.
  induction l as [|x l IH]; simpl; [reflexivity |].
  rewrite Hid. destruct (Nat.eqb (Folder._id x) p); [reflexivity | exact IH].
Qed.

Section Forest.

Variable l : list Folder.t.
Hypothesis shape : Names.forest l.

Lemma consistent (f : Folder.t) :
  In f l -> exists fuel, getFullPath fuel l f = Some (Folder.path f).
Proof.
  intros Hf. pose proof (Names.forest_paths l shape) as H.
  unfold Invariant.paths_consistent in H. rewrite Forall_forall in H. auto.
Qed.

Lemma path_of_root (f : Folder.t) :
  In f l -> Folder.parentFolder f = None -> Folder.path f = Folder.name f.
Proof.
  intros Hf Hroot. destruct (consistent f Hf) as [[|k] H]; [discriminate H |].
  cbn [getFullPath] in H. rewrite Hroot in H. congruence.
Qed.

Lemma path_of_child (f : Folder.t) (p : Id) :
  In f l -> Folder.parentFolder f = Some p ->
  exists parent,
    FolderQuery.findById l p = Some parent
    /\ In parent l /\ Folder._id parent = p
    /\ Folder.path f = Folder.path parent ++ "/" ++ Folder.name f.
Proof.
  intros Hf Hp. destruct (consistent f Hf) as [[|k] H]; [discriminate H |].
  cbn [getFullPath] in H. rewrite Hp in H.
  destruct (FolderQuery.findById l p) as [parent|] eqn:E; [| discriminate H].
  destruct (getFullPath k l parent) as [pp|] eqn:Ep; [| discriminate H].
  destruct (findById_some _ _ _ E) as [Hin Hid].
  destruct (consistent parent Hin) as [k' Hk'].
  rewrite (getFullPath_deterministic _ _ _ _ _ _ Ep Hk') in H.
  exists parent. repeat split; auto. congruence.
Qed.

(** Within one owner a path names one folder. *)
Lemma path_names_one_folder (k : nat) :
  forall f g,
    In f l -> In g l ->
    getFullPath k l f = Some (Folder.path f) ->
    Folder.owner f = Folder.owner g ->
    Folder.path f = Folder.path g -> f = g.
Proof.
  induction k as [|k IH]; intros f g Hf Hg Hk Ho Hpath; [discriminate Hk |].
  cbn [getFullPath] in Hk.
  destruct (Folder.parentFolder f) as [pf|] eqn:Epf;
    destruct (Folder.parentFolder g) as [pg|] eqn:Epg.
  - destruct (path_of_child f pf Hf Epf) as (F & HF & HFin & HFid & HFp).
    destruct (path_of_child g pg Hg Epg) as (G & HG & HGin & HGid & HGp).
    rewrite HFp, HGp in Hpath.
    apply last_segment_inj in Hpath;
      [| now apply (Names.forest_names l shape) ..].
    destruct Hpath as [HA Hn].
    rewrite HF in Hk.
    destruct (getFullPath k l F) as [pp|] eqn:Epp; [| discriminate Hk].
    destruct (consistent F HFin) as [k' Hk'].
    rewrite (getFullPath_deterministic _ _ _ _ _ _ Epp Hk') in Epp.
    assert (HFG : F = G).
    { apply IH; auto.
      rewrite (Names.forest_owner l shape f F), (Names.forest_owner l shape g G);
        auto; congruence. }
    apply (Names.forest_siblings l shape); auto. congruence.
  - exfalso. destruct (path_of_child f pf Hf Epf) as (F & _ & _ & _ & HFp).
    rewrite (path_of_root g Hg Epg), HFp in Hpath.
    pose proof (Names.forest_names l shape g Hg) as Hfree.
    rewrite <- Hpath, slash_in_the_middle in Hfree. discriminate Hfree.
  - exfalso. destruct (path_of_child g pg Hg Epg) as (G & _ & _ & _ & HGp).
    rewrite (path_of_root f Hf Epf), HGp in Hpath.
    pose proof (Names.forest_names l shape f Hf) as Hfree.
    rewrite Hpath, slash_in_the_middle in Hfree. discriminate Hfree.
  - apply (Names.forest_siblings l shape); auto; [congruence |].
    rewrite <- (path_of_root f Hf Epf), <- (path_of_root g Hg Epg). exact Hpath.
Qed.

End Forest.

(** ** Renaming keeps the stored paths right on plain, slash-free names *)

Section RenameKeepsPaths.

Variable l : list Folder.t.
Hypothesis shape : Names.forest l.

Variable T T' : Folder.t.
Variable n : string.
Hypothesis T_in : In T l.
Hypothesis n_free : Names.slash_free n = true.
Hypothesis T'_id : Folder._id T' = Folder._id T.
Hypothesis T'_parent : Folder.parentFolder T' = Folder.parentFolder T.
Hypothesis T'_name : Folder.name T' = n.
Hypothesis T'_path :
  Folder.path T'
  = JsString.join "/" (JsString.set_last (JsString.split "/" (Folder.path T)) n).

Lemma is_target (g : Folder.t) :
  In g l -> Nat.eqb (Folder._id g) (Folder._id T) = true -> g = T.
Proof.
  intros Hg E. apply Nat.eqb_eq in E.
  apply (same_id_same_doc l (Names.forest_ids l shape)); assumption.
Qed.

Lemma moved_id (g : Folder.t) : Folder._id (Renamed.moved T T' g) = Folder._id g.
Proof.
  unfold Renamed.moved.
  destruct (Nat.eqb_spec (Folder._id g) (Folder._id T)) as [E | _]; [congruence |].
  now destruct (_ && _).
Qed.

Lemma moved_parent (g : Folder.t) :
  In g l -> Folder.parentFolder (Renamed.moved T T' g) = Folder.parentFolder g.
Proof.
  intros Hg. unfold Renamed.moved.
  destruct (Nat.eqb (Folder._id g) (Folder._id T)) eqn:E.
  - rewrite (is_target g Hg E). exact T'_parent.
  - now destruct (_ && _).
Qed.

Lemma moved_under (g : Folder.t) (r : string) :
  Nat.eqb (Folder._id g) (Folder._id T) = false ->
  Folder.owner g = Folder.owner T ->
  Folder.path g = Folder.path T ++ "/" ++ r ->
  Folder.path (Renamed.moved T T' g) = Folder.path T' ++ "/" ++ r
  /\ Folder.name (Renamed.moved T T' g) = Folder.name g.
Proof.
  intros E Ho Hp. unfold Renamed.moved, JsString.startsWith.
  rewrite E, Ho, Nat.eqb_refl, Hp.
  rewrite <- append_assoc, prefix_app. cbn [andb Folder.set_path Folder.path Folder.name].
  rewrite append_assoc, drop_app_length. auto.
Qed.

Lemma moved_elsewhere (g : Folder.t) :
  Nat.eqb (Folder._id g) (Folder._id T) = false ->
  Nat.eqb (Folder.owner g) (Folder.owner T)
  && String.prefix (Folder.path T ++ "/") (Folder.path g) = false ->
  Renamed.moved T T' g = g.
Proof.
  intros E H. unfold Renamed.moved, JsString.startsWith. now rewrite E, H.
Qed.

Lemma moved_keeps_full_paths (k : nat) :
  forall g,
    In g l ->
    getFullPath k l g = Some (Folder.path g) ->
    getFullPath k (map (Renamed.moved T T') l) (Renamed.moved T T' g) = Some (Folder.path (Renamed.moved T T' g)).
Proof.
  induction k as [|k IH]; intros g Hg Hk; [discriminate Hk |].
  cbn [getFullPath]. rewrite (moved_parent g Hg).
  destruct (Folder.parentFolder g) as [p|] eqn:Ep.
  - (* a folder with a parent *)
    destruct (path_of_child l shape g p Hg Ep) as (parent & Hby & Hpin & Hpid & Hpath).
    rewrite (findById_map (Renamed.moved T T') l p moved_id), Hby. cbn [option_map].
    assert (Hkp : getFullPath k l parent = Some (Folder.path parent)).
    { cbn [getFullPath] in Hk. rewrite Ep, Hby in Hk.
      destruct (getFullPath k l parent) as [pp|] eqn:E; [| discriminate Hk].
      destruct (consistent l shape parent Hpin) as [k' Hk'].
      now rewrite (getFullPath_deterministic _ _ _ _ _ _ E Hk'). }
    rewrite (IH parent Hpin Hkp). f_equal.
    pose proof (Names.forest_names l shape g Hg) as Hfree.
    assert (Hown : Folder.owner parent = Folder.owner g).
    { apply (Names.forest_owner l shape g parent); auto. congruence. }
    destruct (Nat.eqb (Folder._id g) (Folder._id T)) eqn:EgT.
    + (* the renamed folder itself *)
      pose proof (is_target g Hg EgT) as ->.
      assert (HparentT : Nat.eqb (Folder._id parent) (Folder._id T) = false).
      { destruct (Nat.eqb (Folder._id parent) (Folder._id T)) eqn:E; [| reflexivity].
        apply (is_target parent Hpin) in E. subst parent.
        apply (f_equal String.length) in Hpath.
        rewrite !length_append in Hpath. cbn in Hpath. lia. }
      rewrite (moved_elsewhere parent HparentT).
      * unfold Renamed.moved. rewrite Nat.eqb_refl, T'_name, T'_path, Hpath.
        now rewrite retarget_child.
      * apply andb_false_iff. right.
        destruct (String.prefix _ _) eqn:E; [| reflexivity].
        apply prefix_length in E. apply (f_equal String.length) in Hpath.
        rewrite !length_append in *. cbn in *. lia.
    + destruct (Nat.eqb (Folder._id parent) (Folder._id T)) eqn:EpT.
      * (* a child of the renamed folder *)
        pose proof (is_target parent Hpin EpT) as ->.
        destruct (moved_under g (Folder.name g) EgT (eq_sym Hown) Hpath) as [-> ->].
        unfold Renamed.moved. now rewrite Nat.eqb_refl.
      * destruct (Nat.eqb (Folder.owner parent) (Folder.owner T)
                  && String.prefix (Folder.path T ++ "/") (Folder.path parent)) eqn:Er.
        -- (* deeper under the renamed folder *)
           apply andb_true_iff in Er. destruct Er as [Eo Epre].
           apply Nat.eqb_eq in Eo. apply prefix_starts_with in Epre.
           destruct Epre as [r Hr]. rewrite append_assoc in Hr.
           destruct (moved_under parent r EpT Eo Hr) as [-> _].
           assert (Hg' : Folder.path g = Folder.path T ++ "/" ++ r ++ "/" ++ Folder.name g).
           { rewrite Hpath, Hr. now rewrite !append_assoc. }
           destruct (moved_under g _ EgT (eq_trans (eq_sym Hown) Eo) Hg') as [-> ->].
           now rewrite !append_assoc.
        -- (* outside the renamed subtree *)
           rewrite (moved_elsewhere parent EpT Er).
           rewrite (moved_elsewhere g EgT); [now rewrite Hpath |].
           destruct (Nat.eqb (Folder.owner g) (Folder.owner T)) eqn:Eo; [| reflexivity].
           cbn [andb]. destruct (String.prefix _ (Folder.path g)) eqn:Epre; [| reflexivity].
           exfalso. apply Nat.eqb_eq in Eo. rewrite Hpath in Epre.
           apply prefix_before_last_segment in Epre; [| exact Hfree].
           destruct Epre as [Hsame | Hpre].
           ++ destruct (consistent l shape T T_in) as [kT HkT].
              assert (T = parent).
              { apply (path_names_one_folder l shape kT); auto; congruence. }
              subst parent. now rewrite Nat.eqb_refl in EpT.
           ++ rewrite Hpre, Hown, Eo, Nat.eqb_refl in Er. discriminate Er.
  - (* a root folder *)
    f_equal. pose proof (path_of_root l shape g Hg Ep) as Hroot.
    pose proof (Names.forest_names l shape g Hg) as Hfree.
    destruct (Nat.eqb (Folder._id g) (Folder._id T)) eqn:EgT.
    + pose proof (is_target g Hg EgT) as ->.
      unfold Renamed.moved. rewrite Nat.eqb_refl, T'_name, T'_path, Hroot.
      now rewrite retarget_root.
    + rewrite (moved_elsewhere g EgT); [now rewrite Hroot |].
      apply andb_false_iff. right.
      destruct (String.prefix _ _) eqn:E; [| reflexivity].
      apply prefix_starts_with in E. destruct E as [r Hr].
      rewrite Hroot, append_assoc in Hr.
      rewrite Hr, slash_in_the_middle in Hfree. discriminate Hfree.
Qed.

Lemma moved_paths_consistent : Invariant.paths_consistent (map (Renamed.moved T T') l).
Proof.
  unfold Invariant.paths_consistent. rewrite Forall_map, Forall_forall.
  intros g Hg. destruct (consistent l shape g Hg) as [k Hk].
  exists k. now apply moved_keeps_full_paths.
Qed.

End RenameKeepsPaths.

Lemma same_ref_refl (a : option Id) : same_ref a a = true.
Proof. destruct a; cbn; [apply Nat.eqb_refl | reflexivity]. Qed.

Section RenameKeepsForest.

Variable l : list Folder.t.
Hypothesis shape : Names.forest l.

Variable T T' : Folder.t.
Variable n : string.
Hypothesis T_in : In T l.
Hypothesis n_free : Names.slash_free n = true.
Hypothesis T'_id : Folder._id T' = Folder._id T.
Hypothesis T'_owner : Folder.owner T' = Folder.owner T.
Hypothesis T'_parent : Folder.parentFolder T' = Folder.parentFolder T.
Hypothesis T'_name : Folder.name T' = n.
Hypothesis T'_path :
  Folder.path T'
  = JsString.join "/" (JsString.set_last (JsString.split "/" (Folder.path T)) n).
Hypothesis no_clash :
  existsb (fun f => FolderQuery.is_sibling_named
                      n (Folder.owner T) (Folder.parentFolder T) f
                    && negb (Nat.eqb (Folder._id f) (Folder._id T)))
          l = false.

Lemma moved_owner (g : Folder.t) :
  In g l -> Folder.owner (Renamed.moved T T' g) = Folder.owner g.
Proof.
  intros Hg. unfold Renamed.moved.
  destruct (Nat.eqb (Folder._id g) (Folder._id T)) eqn:E.
  - rewrite (is_target l shape T T_in g Hg E). exact T'_owner.
  - now destruct (_ && _).
Qed.

Lemma moved_name (g : Folder.t) :
  Folder.name (Renamed.moved T T' g)
  = if Nat.eqb (Folder._id g) (Folder._id T) then n else Folder.name g.
Proof.
  unfold Renamed.moved.
  destruct (Nat.eqb (Folder._id g) (Folder._id T)); [exact T'_name |].
  now destruct (_ && _).
Qed.

Lemma not_a_namesake (g : Folder.t) :
  In g l ->
  Nat.eqb (Folder._id g) (Folder._id T) = false ->
  Folder.owner g = Folder.owner T ->
  Folder.parentFolder g = Folder.parentFolder T ->
  Folder.name g <> n.
Proof.
  intros Hg E Ho Hp Hn.
  assert (H : existsb (fun f => FolderQuery.is_sibling_named
                                  n (Folder.owner T) (Folder.parentFolder T) f
                                && negb (Nat.eqb (Folder._id f) (Folder._id T)))
                      l = true); [| congruence].
  apply existsb_exists. exists g. split; [exact Hg |].
  unfold FolderQuery.is_sibling_named.
  rewrite Hn, Ho, Hp, E, String.eqb_refl, Nat.eqb_refl, same_ref_refl.
  reflexivity.
Qed.

Lemma moved_forest : Names.forest (map (Renamed.moved T T') l).
Proof.
  constructor.
  - rewrite map_map.
    rewrite (map_ext _ Folder._id (moved_id T T' T'_id)).
    apply (Names.forest_ids l shape).
  - apply (moved_paths_consistent l shape T T' n); assumption.
  - intros f' Hf'. apply in_map_iff in Hf'. destruct Hf' as (f & <- & Hf).
    rewrite moved_name. destruct (Nat.eqb _ _); [exact n_free |].
    now apply (Names.forest_names l shape).
  - intros f' g' Hf' Hg' Hp.
    apply in_map_iff in Hf', Hg'.
    destruct Hf' as (f & <- & Hf). destruct Hg' as (g & <- & Hg).
    rewrite (moved_parent l shape T T' T_in T'_parent f Hf) in Hp.
    rewrite (moved_id T T' T'_id g) in Hp.
    rewrite (moved_owner f Hf), (moved_owner g Hg).
    now apply (Names.forest_owner l shape f g).
  - intros f' g' Hf' Hg' Ho Hp Hn.
    apply in_map_iff in Hf', Hg'.
    destruct Hf' as (f & <- & Hf). destruct Hg' as (g & <- & Hg).
    rewrite (moved_owner f Hf), (moved_owner g Hg) in Ho.
    rewrite !(moved_parent l shape T T' T_in T'_parent) in Hp by assumption.
    rewrite !moved_name in Hn.
    destruct (Nat.eqb (Folder._id f) (Folder._id T)) eqn:Ef;
      destruct (Nat.eqb (Folder._id g) (Folder._id T)) eqn:Eg.
    + rewrite (is_target l shape T T_in f Hf Ef), (is_target l shape T T_in g Hg Eg).
      reflexivity.
    + exfalso. rewrite (is_target l shape T T_in f Hf Ef) in Ho, Hp.
      now apply (not_a_namesake g Hg Eg).
    + exfalso. rewrite (is_target l shape T T_in g Hg Eg) in Ho, Hp.
      now apply (not_a_namesake f Hf Ef).
    + f_equal. now apply (Names.forest_siblings l shape).
Qed.

End RenameKeepsForest.

(** A rename keeps the stored paths right, and the forest a forest, when
    the old path is free of regular-expression metacharacters and the new
    name is free of them and of slashes: the store it leaves has every
    path equal to the full path. *)
Lemma rename_keeps_paths_consistent
      (id : Id) (n : string) (description color : option string)
      (isFavorite : option bool) (w : World) (folder : Folder.t) :
  Names.forest (folders w) ->
  FolderQuery.findOwned (folders w) id (User._id (user w)) = Some folder ->
  n <> EmptyString ->
  n <> Folder.name folder ->
  existsb (fun f => FolderQuery.is_sibling_named
                      n (User._id (user w)) (Folder.parentFolder folder) f
                    && negb (Nat.eqb (Folder._id f) (Folder._id folder)))
          (folders w) = false ->
  Regex.plain (Folder.path folder) = true ->
  Regex.plain n = true ->
  Names.slash_free n = true ->
  exists renamed w',
    Folders.update id (Some n) description color isFavorite w = Some (Ok renamed, w')
    /\ Names.forest (folders w')
    /\ Invariant.paths_consistent (folders w').
Proof.
  intros Hshape Hfind Hne Hdiff Hfree Hold Hn Hslash.
  destruct (findOwned_some _ _ _ _ Hfind) as (Hin & Hid & Hown).
  destruct (rename_on_plain_path id n description color isFavorite w folder
                                 (Names.forest_ids _ Hshape) Hfind Hne Hdiff Hfree Hold Hn)
    as (Hrun & Hpath & Hname & Hparent).
  set (renamed := Folders.assign_fields (Some n) description color isFavorite _) in *.
  pose proof (assign_fields_frame (Some n) description color isFavorite
                (Folder.set_path folder
                   (JsString.join "/" (JsString.set_last
                                         (JsString.split "/" (Folder.path folder)) n))))
    as Hfr.
  cbv zeta in Hfr. fold renamed in Hfr. destruct Hfr as (Hi & Ho & _ & _).
  cbn [Folder.set_path Folder._id Folder.owner] in Hi, Ho.
  assert (Hmap : forall l,
             map (fun g =>
                    if Nat.eqb (Folder._id g) id then renamed
                    else if Nat.eqb (Folder.owner g) (User._id (user w))
                            && JsString.startsWith (Folder.path g) (Folder.path folder ++ "/")
                         then Folder.set_path
                                g (JsString.join "/" (JsString.set_last
                                                        (JsString.split "/" (Folder.path folder)) n)
                                   ++ JsString.drop (String.length (Folder.path folder))
                                                    (Folder.path g))
                         else g) l
             = map (Renamed.moved folder renamed) l).
  { intros l. apply map_ext. intros g. unfold Renamed.moved.
    now rewrite Hid, Hown, Hpath. }
  rewrite Hmap in Hrun.
  assert (Hforest : Names.forest (map (Renamed.moved folder renamed) (folders w))).
  { apply (moved_forest (folders w) Hshape folder renamed n); auto.
    now rewrite Hown. }
  eexists. eexists. split; [exact Hrun |]. cbn [with_folders folders].
  split; [exact Hforest | apply (Names.forest_paths _ Hforest)].
Qed.

(** ** Creating a folder keeps the forest a forest *)

Lemma append_keeps_forest (w : World) (doc : Folder.t) :
  Invariant.ids_fresh w ->
  Names.forest (folders w) ->
  Folder._id doc = next_oid w ->
  Names.slash_free (Folder.name doc) = true ->
  existsb (FolderQuery.is_sibling_named
             (Folder.name doc) (Folder.owner doc) (Folder.parentFolder doc))
          (folders w) = false ->
  match Folder.parentFolder doc with
  | None => Folder.path doc = Folder.name doc
  | Some p =>
      exists parent,
        FolderQuery.findOwned (folders w) p (Folder.owner doc) = Some parent
        /\ Folder.path doc = Folder.path parent ++ "/" ++ Folder.name doc
  end ->
  Names.forest (folders w ++ [doc]).
Proof.
  intros Hfresh Hshape Hid Hname Hdup Hpath.
  pose proof (Names.forest_ids _ Hshape) as Hnd.
  assert (Hold : forall f, In f (folders w) -> Folder._id f <> next_oid w).
  { intros f Hf. destruct Hfresh as [_ Hlt]. rewrite Forall_forall in Hlt.
    specialize (Hlt f Hf). lia. }
  assert (Hnew : exists fuel,
             getFullPath fuel (folders w ++ [doc]) doc = Some (Folder.path doc)).
  { destruct (Folder.parentFolder doc) as [p|] eqn:Ep.
    - destruct Hpath as (parent & Hfind & Hpath).
      pose proof (findById_of_findOwned _ _ _ _ Hnd Hfind) as Hby.
      destruct (findOwned_some _ _ _ _ Hfind) as (Hin & _ & _).
      destruct (consistent _ Hshape parent Hin) as [fuel Hf].
      exists (S fuel). cbn [getFullPath]. rewrite Ep, findById_app, Hby.
      rewrite (getFullPath_app _ _ _ _ _ Hf). now rewrite Hpath.
    - exists 1. cbn [getFullPath]. rewrite Ep. now rewrite Hpath. }
  destruct (append_keeps_paths_consistent
              w doc Hfresh (Names.forest_paths _ Hshape) Hid Hnew) as [[Hnd' _] Hpc'].
  cbn [folders] in Hnd', Hpc'.
  assert (Hclash : forall g, In g (folders w) ->
                             Folder.owner g = Folder.owner doc ->
                             Folder.parentFolder g = Folder.parentFolder doc ->
                             Folder.name g = Folder.name doc -> False).
  { intros g Hg Ho Hp Hn.
    assert (H : existsb (FolderQuery.is_sibling_named
                           (Folder.name doc) (Folder.owner doc) (Folder.parentFolder doc))
                        (folders w) = true); [| congruence].
    apply existsb_exists. exists g. split; [exact Hg |].
    unfold FolderQuery.is_sibling_named.
    now rewrite Hn, Ho, Hp, String.eqb_refl, Nat.eqb_refl, same_ref_refl. }
  constructor; auto.
  - intros f Hf. apply in_app_iff in Hf. destruct Hf as [Hf | [<- | []]]; auto.
    now apply (Names.forest_names _ Hshape).
  - intros f g Hf Hg Hp. apply in_app_iff in Hf, Hg.
    destruct Hf as [Hf | [<- | []]]; destruct Hg as [Hg | [<- | []]].
    + now apply (Names.forest_owner _ Hshape f g).
    + exfalso. rewrite Hid in Hp.
      destruct (path_of_child _ Hshape f _ Hf Hp) as (parent & _ & Hin & Hpid & _).
      now apply (Hold parent).
    + rewrite Hp in Hpath. destruct Hpath as (parent & Hfind & _).
      destruct (findOwned_some _ _ _ _ Hfind) as (Hin & Hpid & Ho).
      now rewrite <- (same_id_same_doc _ Hnd parent g Hin Hg Hpid).
    + reflexivity.
  - intros f g Hf Hg Ho Hp Hn. apply in_app_iff in Hf, Hg.
    destruct Hf as [Hf | [<- | []]]; destruct Hg as [Hg | [<- | []]].
    + now apply (Names.forest_siblings _ Hshape).
    + exfalso. now apply (Hclash f).
    + exfalso. now apply (Hclash g).
    + reflexivity.
Qed.

(** Create keeps the forest: with a slash-free name, a store that is a
    forest with fresh ids is one after the create. *)
Lemma create_keeps_forest
      (name : string) (description : option string) (parentFolder : option Id)
      (color : option string) (w : World) :
  Names.slash_free name = true ->
  Invariant.ids_fresh w ->
  Names.forest (folders w) ->
  Invariant.ids_fresh (snd (Folders.create name description parentFolder color w))
  /\ Names.forest (folders (snd (Folders.create name description parentFolder color w))).
Proof.
  intros Hname Hfresh Hshape.
  split.
  { apply create_keeps_paths_consistent; [exact Hfresh |].
    apply (Names.forest_paths _ Hshape). }
  unfold Folders.create.
  destruct (existsb _ (folders w)) eqn:Edup; [exact Hshape |].
  destruct parentFolder as [p|].
  - destruct (FolderQuery.findOwned (folders w) p (User._id (user w))) as [parent|] eqn:E;
      [| exact Hshape].
    cbn [fresh_oid with_folders snd folders files notes disk user next_oid].
    apply append_keeps_forest;
      [exact Hfresh | exact Hshape | reflexivity | exact Hname | exact Edup |].
    cbn. now exists parent.
  - cbn [fresh_oid with_folders snd folders files notes disk user next_oid].
    apply append_keeps_forest;
      [exact Hfresh | exact Hshape | reflexivity | exact Hname | exact Edup |].
    reflexivity.
Qed.

(** The two creates of the rename scenario, read off the general
    statement. *)
Example created_worlds_are_forests :
  Names.forest (folders Rename.with_A_B)
  /\ Names.forest (folders Rename.with_inner).
Proof.
  assert (H0 : Invariant.ids_fresh Scenario.empty_world
               /\ Names.forest (folders Scenario.empty_world)).
  { split; [split; cbn; constructor |].
    constructor; cbn.
    - constructor.
    - constructor.
    - intros f [].
    - intros f g [].
    - intros f g []. }
  destruct H0 as [F0 S0].
  split.
  - destruct (create_keeps_forest "A" None None None _ eq_refl F0 S0) as [F1 S1].
    now destruct (create_keeps_forest "B" None (Some 10) None _ eq_refl F1 S1).
  - destruct (create_keeps_forest "Docs (Copy)" None None None _ eq_refl F0 S0)
      as [F1 S1].
    now destruct (create_keeps_forest "B" None (Some 10) None _ eq_refl F1 S1).
Qed.

Example rename_A_to_A2_keeps_paths :
  exists renamed w',
    Folders.update 10 (Some "A2") None None None Rename.with_A_B
    = Some (Ok renamed, w')
    /\ Invariant.paths_consistent (folders w').
Proof.
  destruct (rename_keeps_paths_consistent
              10 "A2" None None None Rename.with_A_B
              (Folder.mk 10 "A" None 1 None "A" false Folders.default_color)
              (proj1 created_worlds_are_forests))
    as (renamed & w' & Hrun & _ & Hpaths); try reflexivity; try discriminate.
  now exists renamed, w'.
Qed.

(** * Further properties of the handlers *)

(** ** The ledger and the File collection *)

Lemma owned_bytes_app (uid : Id) (a b : list File.t) :
  Quota.owned_bytes uid (a ++ b)
  = (Quota.owned_bytes uid a + Quota.owned_bytes uid b)%Z.
Proof.
  unfold Quota.owned_bytes. induction a as [|f a IH]; simpl; [reflexivity |].
  rewrite IH. destruct (Nat.eqb (File.owner f) uid); lia.
Qed.

Lemma owned_bytes_documents (uid : Id) (folder : option Id) (batch : list Upload.t) :
  forall oid,
    Quota.owned_bytes uid (Recorded.documents uid folder oid batch)
    = Spec.batch_bytes batch.
Proof.
  unfold Quota.owned_bytes, Spec.batch_bytes.
  induction batch as [|file rest IH]; intros oid; simpl; [reflexivity |].
  rewrite Nat.eqb_refl, IH. reflexivity.
Qed.

Lemma documents_ids (uid : Id) (folder : option Id) (batch : list Upload.t) :
  forall oid,
    map File._id (Recorded.documents uid folder oid batch)
    = seq oid (List.length batch).
Proof.
  induction batch as [|file rest IH]; intros oid; simpl; [reflexivity |].
  now rewrite IH.
Qed.

Lemma files_fresh_grow (w : World) (docs : list File.t) (n : nat) :
  Quota.files_fresh w ->
  map File._id docs = seq (next_oid w) n ->
  NoDup (map File._id (files w ++ docs))
  /\ Forall (fun f => File._id f < next_oid w + n) (files w ++ docs).
Proof.
  intros [Hnd Hlt] Hids. rewrite Forall_forall in Hlt. split.
  - rewrite map_app, Hids. apply NoDup_app; [exact Hnd | apply seq_NoDup |].
    intros i Hi Hs. apply in_seq in Hs. apply in_map_iff in Hi.
    destruct Hi as (f & <- & Hf). specialize (Hlt f Hf). lia.
  - apply Forall_app. split.
    + apply Forall_forall. intros f Hf. specialize (Hlt f Hf). lia.
    + apply Forall_forall. intros f Hf.
      assert (Hi : In (File._id f) (seq (next_oid w) n)).
      { rewrite <- Hids. now apply in_map. }
      apply in_seq in Hi. lia.
Qed.

(** X1. An upload keeps the ledger exact and within the limit: if
    storageUsed is the sum of the sizes of the requester's files and at
    most storageLimit before the request, it is so after it, whatever the
    outcome; file ids stay unique and behind the counter. *)
Theorem upload_keeps_ledger_exact
        (batch : list Upload.t) (folder : option Id) (w : World) :
  Quota.exact w -> Quota.within w -> Quota.files_fresh w ->
  Quota.exact (snd (Files.upload batch folder w))
  /\ Quota.within (snd (Files.upload batch folder w))
  /\ Quota.files_fresh (snd (Files.upload batch folder w)).
Proof.
  intros Hex Hin Hfr.
  destruct batch as [|file rest] eqn:Eb; [cbn; auto |]. rewrite <- Eb in *.
  assert (Hne : batch <> []) by (rewrite Eb; discriminate).
  destruct (User.hasEnoughStorage (user w) (Files.totalSize batch)) eqn:Hq.
  - rewrite (upload_accepted _ _ _ Hne Hq). cbn [snd].
    unfold Quota.exact, Quota.within, Quota.files_fresh.
    cbn [user files next_oid User.set_storageUsed User.storageUsed User._id
              User.storageLimit].
    split; [| split].
    + rewrite owned_bytes_app, owned_bytes_documents, totalSize_batch_bytes.
      unfold Quota.exact in Hex. lia.
    + unfold User.hasEnoughStorage in Hq. apply Z.leb_le in Hq. exact Hq.
    + apply files_fresh_grow; [exact Hfr | apply documents_ids].
  - rewrite (upload_rejected _ _ _ Hne Hq). cbn [snd]. auto.
Qed.

Lemma upload_keeps_ledger_exact_witness :
  Quota.exact
    (snd (Files.upload [Scenario.report] None
                       (Scenario.arrived Scenario.report Scenario.empty_world)))
  /\ Quota.within
       (snd (Files.upload [Scenario.report] None
                          (Scenario.arrived Scenario.report Scenario.empty_world)))
  /\ Quota.files_fresh
       (snd (Files.upload [Scenario.report] None
                          (Scenario.arrived Scenario.report Scenario.empty_world))).
Proof.
  apply (upload_keeps_ledger_exact
           [Scenario.report] None
           (Scenario.arrived Scenario.report Scenario.empty_world)).
  - reflexivity.
  - vm_compute. discriminate.
  - split; constructor.
Defined.

Lemma owned_bytes_nonneg (uid : Id) (l : list File.t) :
  Quota.sizes_nonneg l -> (0 <= Quota.owned_bytes uid l)%Z.
Proof.
  unfold Quota.owned_bytes. induction 1 as [|f l Hf Hl IH]; simpl; [lia |].
  destruct (Nat.eqb (File.owner f) uid); lia.
Qed.

Lemma owned_bytes_without (uid : Id) (l : list File.t) (file : File.t) :
  NoDup (map File._id l) -> In file l ->
  Quota.owned_bytes uid
    (filter (fun f => negb (Nat.eqb (File._id f) (File._id file))) l)
  = (Quota.owned_bytes uid l
     - if Nat.eqb (File.owner file) uid then File.size file else 0)%Z.
Proof.
  unfold Quota.owned_bytes.
  induction l as [|x l IH]; intros Hnd Hin; [destruct Hin |].
  inversion Hnd as [|? ? Hx Hnd']; subst. cbn [map] in Hx.
  destruct Hin as [-> | Hin].
  - cbn [filter fold_right]. rewrite Nat.eqb_refl. cbn [negb].
    replace (filter _ l) with l.
    + destruct (Nat.eqb (File.owner file) uid); lia.
    + symmetry. apply forallb_filter_id. apply forallb_forall. intros y Hy.
      apply negb_true_iff, Nat.eqb_neq. intros E. apply Hx. rewrite <- E.
      now apply in_map.
  - cbn [filter].
    destruct (Nat.eqb (File._id x) (File._id file)) eqn:E.
    + exfalso. apply Nat.eqb_eq in E. apply Hx. rewrite E. now apply in_map.
    + cbn [negb fold_right]. rewrite (IH Hnd' Hin).
      destruct (Nat.eqb (File.owner x) uid), (Nat.eqb (File.owner file) uid); lia.
Qed.

Lemma files_findOwned_some (l : list File.t) (id uid : Id) (f : File.t) :
  Files.findOwned l id uid = Some f ->
  In f l /\ File._id f = id /\ File.owner f = uid.
Proof.
  unfold Files.findOwned. intros H. apply find_some in H.
  destruct H as [Hin H]. apply andb_true_iff in H. destruct H as [H1 H2].
  apply Nat.eqb_eq in H1, H2. auto.
Qed.

(** X2. Deleting a file keeps the ledger exact and within the limit, when
    file ids are unique and sizes are non-negative: storageUsed is again
    the sum of the sizes of the requester's files. *)
Theorem file_remove_keeps_ledger_exact (id : Id) (w : World) :
  Quota.exact w -> Quota.within w -> Quota.files_fresh w ->
  Quota.sizes_nonneg (files w) ->
  Quota.exact (snd (Files.remove id w))
  /\ Quota.within (snd (Files.remove id w))
  /\ Quota.files_fresh (snd (Files.remove id w))
  /\ Quota.sizes_nonneg (files (snd (Files.remove id w))).
Proof.
  intros Hex Hin [Hnd Hlt] Hnn. unfold Files.remove.
  destruct (Files.findOwned (files w) id (User._id (user w))) as [file|] eqn:E;
    [| cbn; repeat split; assumption].
  destruct (files_findOwned_some _ _ _ _ E) as (Hfile & _ & Hown).
  cbn [snd]. unfold Quota.exact, Quota.within, Quota.files_fresh, Quota.sizes_nonneg.
  cbn [user files next_oid with_files with_user with_disk
            User.set_storageUsed User.storageUsed User._id User.storageLimit].
  pose proof (owned_bytes_without (User._id (user w)) _ _ Hnd Hfile) as Hw.
  rewrite Hown, Nat.eqb_refl in Hw.
  assert (Hrest : (0 <= Quota.owned_bytes (User._id (user w))
                          (filter (fun f => negb (Nat.eqb (File._id f) (File._id file)))
                                  (files w)))%Z).
  { apply owned_bytes_nonneg. unfold Quota.sizes_nonneg.
    apply Forall_forall. intros f Hf. apply filter_In in Hf.
    unfold Quota.sizes_nonneg in Hnn. rewrite Forall_forall in Hnn. apply Hnn, Hf. }
  unfold Quota.exact in Hex. unfold Quota.within in Hin.
  assert (Hsize : (0 <= File.size file)%Z).
  { unfold Quota.sizes_nonneg in Hnn. rewrite Forall_forall in Hnn. now apply Hnn. }
  split; [lia |]. split; [lia |]. split; [split |].
  - clear - Hnd. induction (files w) as [|x l IH]; [constructor |].
    inversion Hnd as [|? ? Hx Hnd']; subst. cbn [filter].
    destruct (negb _); [| auto]. cbn. constructor; [| auto].
    intros Hi. apply Hx. apply in_map_iff in Hi. destruct Hi as (y & Hy & Hyin).
    apply filter_In in Hyin. rewrite <- Hy. apply in_map. tauto.
  - apply Forall_forall. intros f Hf. apply filter_In in Hf.
    rewrite Forall_forall in Hlt. apply Hlt, Hf.
  - apply Forall_forall. intros f Hf. apply filter_In in Hf.
    unfold Quota.sizes_nonneg in Hnn. rewrite Forall_forall in Hnn. apply Hnn, Hf.
Qed.

Lemma file_remove_keeps_ledger_exact_witness :
  Quota.exact (snd (Files.remove 3 Tree.nested))
  /\ Quota.within (snd (Files.remove 3 Tree.nested))
  /\ Quota.files_fresh (snd (Files.remove 3 Tree.nested))
  /\ Quota.sizes_nonneg (files (snd (Files.remove 3 Tree.nested))).
Proof.
  apply (file_remove_keeps_ledger_exact 3 Tree.nested).
  - reflexivity.
  - vm_compute. discriminate.
  - split; cbn.
    + constructor; [intros [] | constructor].
    + constructor; [cbn; lia | constructor].
  - repeat constructor. vm_compute. discriminate.
Defined.

(** X3. Duplicating a file keeps the ledger exact and within the limit,
    whatever the outcome (copied, QuotaExceeded, bytes missing, not
    found). *)
Theorem file_duplicate_keeps_ledger_exact
        (extname : string -> string) (basename path_join : string -> string -> string)
        (oid_toString : Id -> string) (suffix : string) (id : Id) (w : World) :
  Quota.exact w -> Quota.within w -> Quota.files_fresh w ->
  let w' := snd (Files.duplicate extname basename path_join oid_toString suffix id w) in
  Quota.exact w' /\ Quota.within w' /\ Quota.files_fresh w'.
Proof.
  intros Hex Hin Hfr w'. subst w'. unfold Files.duplicate.
  destruct (Files.findOwned (files w) id (User._id (user w))) as [file|] eqn:E;
    [| cbn; auto].
  destruct (User.hasEnoughStorage (user w) (File.size file)) eqn:Hq;
    cbn [negb]; [| cbn; auto].
  destruct (Fs.existsSync (disk w) (File.path file)); cbn [negb]; [| cbn; auto].
  unfold Quota.exact, Quota.within, Quota.files_fresh,
    fresh_oid, with_disk, with_files, with_user, User.set_storageUsed.
  cbn [snd user files next_oid disk folders notes
           User.storageUsed User._id User.storageLimit].
  split; [| split].
  - rewrite owned_bytes_app. unfold Quota.exact in Hex. rewrite Hex.
    unfold Quota.owned_bytes at 3. cbn. rewrite Nat.eqb_refl. lia.
  - unfold User.hasEnoughStorage in Hq. now apply Z.leb_le in Hq.
  - replace (S (next_oid w)) with (next_oid w + 1) by lia.
    apply files_fresh_grow; [exact Hfr | reflexivity].
Qed.

Lemma file_duplicate_keeps_ledger_exact_witness :
  Quota.exact
    (snd (Files.duplicate (fun _ => ".txt") (fun _ _ => "notes")
                          (fun a b => a ++ "/" ++ b) JsString.of_nat
                          "1700000000000-42" 3
                          (with_user Tree.nested (User.mk 1 600 2000)))).
Proof.
  apply (file_duplicate_keeps_ledger_exact
           (fun _ => ".txt") (fun _ _ => "notes") (fun a b => a ++ "/" ++ b)
           JsString.of_nat "1700000000000-42" 3
           (with_user Tree.nested (User.mk 1 600 2000))).
  - reflexivity.
  - vm_compute. discriminate.
  - split; cbn.
    + constructor; [intros [] | constructor].
    + constructor; [cbn; lia | constructor].
Defined.

Lemma files_find_new (l : list File.t) (doc : File.t) (id uid : Id) :
  File._id doc = id -> File.owner doc = uid ->
  (forall f, In f l -> File._id f <> File._id doc) ->
  Files.findOwned (l ++ [doc]) id uid = Some doc
  /\ filter (fun f => negb (Nat.eqb (File._id f) (File._id doc))) (l ++ [doc]) = l.
Proof.
  intros <- <- Hold. unfold Files.findOwned. split.
  - induction l as [|x l IH]; simpl.
    + now rewrite !Nat.eqb_refl.
    + assert (Hx : Nat.eqb (File._id x) (File._id doc) = false).
      { apply Nat.eqb_neq, Hold. now left. }
      rewrite Hx. cbn [andb]. apply IH. intros f Hf. apply Hold. now right.
  - rewrite filter_app. cbn [filter]. rewrite Nat.eqb_refl. cbn [negb].
    rewrite app_nil_r. apply forallb_filter_id. apply forallb_forall.
    intros f Hf. now apply negb_true_iff, Nat.eqb_neq, Hold.
Qed.



Section FileCopy.

Variable extname : string -> string.
Variable basename : string -> string -> string.
Variable path_join : string -> string -> string.
Variable oid_toString : Id -> string.

(** X5. Duplicating a file and then deleting the copy is a round trip on
    the bookkeeping: the File collection and the requester's document are
    what they were; and when the bytes of the original are missing the
    duplicate answers with a server error and changes nothing. *)
Theorem file_duplicate_then_remove_restores
        (suffix : string) (id : Id) (w : World) (file : File.t) :
  Quota.files_fresh w ->
  Files.findOwned (files w) id (User._id (user w)) = Some file ->
  (0 <= User.storageUsed (user w))%Z ->
  (0 <= File.size file)%Z ->
  User.hasEnoughStorage (user w) (File.size file) = true ->
  let d := Files.duplicate extname basename path_join oid_toString suffix id w in
  if Fs.existsSync (disk w) (File.path file)
  then (exists copy,
           fst d = Ok copy
           /\ File._id copy = next_oid w
           /\ File.size copy = File.size file
           /\ File.folder copy = File.folder file
           /\ Fs.existsSync (disk (snd d)) (File.path copy) = true
           /\ fst (Files.remove (next_oid w) (snd d)) = Ok tt
           /\ files (snd (Files.remove (next_oid w) (snd d))) = files w
           /\ user (snd (Files.remove (next_oid w) (snd d))) = user w)
  else d = (Fail ServerError, w).
Proof.
  intros [_ Hlt] Hfind Hused Hsize Hq d. subst d. unfold Files.duplicate.
  rewrite Hfind, Hq. cbn [negb].
  destruct (Fs.existsSync (disk w) (File.path file)); cbn [negb]; [| reflexivity].
  unfold fresh_oid, with_disk, with_files, with_user, User.set_storageUsed.
  cbn [fst snd user files folders notes disk next_oid User.storageUsed User._id
           User.storageLimit].
  set (copy := File.mk _ _ _ _ _ _ _ _ _).
  exists copy. split; [reflexivity |]. split; [reflexivity |].
  split; [reflexivity |]. split; [reflexivity |]. split.
  { unfold Fs.copied. destruct (Fs.existsSync (disk w) _) eqn:E; [exact E |].
    cbn. now rewrite String.eqb_refl. }
  destruct (files_find_new (files w) copy (next_oid w) (User._id (user w))
                           eq_refl eq_refl) as [Hnew Hfilter].
  { intros f Hf. rewrite Forall_forall in Hlt. specialize (Hlt f Hf). cbn. lia. }
  unfold Files.remove. cbn [files user User._id].
  rewrite Hnew.
  unfold with_user, with_disk, with_files, User.set_storageUsed.
  cbn [fst snd user files folders notes disk next_oid User.storageUsed User._id
           User.storageLimit].
  rewrite Hfilter. repeat split.
  destruct (user w) as [i used lim]. cbn in *. f_equal. lia.
Qed.

End FileCopy.

Lemma file_duplicate_then_remove_restores_witness :
  Files.duplicate (fun _ => ".txt") (fun _ _ => "notes")
                  (fun a b => a ++ "/" ++ b) JsString.of_nat
                  "1700000000000-42" 3
                  (with_disk (with_user Tree.nested (User.mk 1 600 2000)) [])
  = (Fail ServerError, with_disk (with_user Tree.nested (User.mk 1 600 2000)) []).
Proof.
  apply (file_duplicate_then_remove_restores
           (fun _ => ".txt") (fun _ _ => "notes") (fun a b => a ++ "/" ++ b)
           JsString.of_nat "1700000000000-42" 3
           (with_disk (with_user Tree.nested (User.mk 1 600 2000)) [])
           Tree.fileInB).
  - split; cbn.
    + constructor; [intros [] | constructor].
    + constructor; [cbn; lia | constructor].
  - reflexivity.
  - cbn. lia.
  - cbn. lia.
  - reflexivity.
Defined.

(** ** Ownership and names in the folder routes *)




Lemma findOwned_app_l (l l' : list Folder.t) (id uid : Id) (g : Folder.t) :
  FolderQuery.findOwned l id uid = Some g ->
  FolderQuery.findOwned (l ++ l') id uid = Some g.
Proof.
  unfold FolderQuery.findOwned. induction l as [|x l IH]; simpl; [discriminate |].
  destruct (_ && _); [auto | exact IH].
Qed.

Lemma same_ref_eq (a b : option Id) : same_ref a b = true <-> a = b.
Proof.
  destruct a, b; cbn; split; try congruence; try discriminate.
  - intros H. apply Nat.eqb_eq in H. congruence.
  - intros H. injection H as ->. apply Nat.eqb_refl.
Qed.

(** What a create that answers 201 leaves. *)
Lemma create_ok (name : string) (description : option string)
      (parentFolder : option Id) (color : option string) (w w1 : World)
      (folder : Folder.t) :
  Folders.create name description parentFolder color w = (Ok folder, w1) ->
  w1 = mkWorld (user w) (folders w ++ [folder]) (files w) (notes w) (disk w)
               (S (next_oid w))
  /\ Folder._id folder = next_oid w
  /\ Folder.name folder = name
  /\ Folder.owner folder = User._id (user w)
  /\ Folder.parentFolder folder = parentFolder
  /\ existsb (FolderQuery.is_sibling_named name (User._id (user w)) parentFolder)
             (folders w) = false.
Proof.
  unfold Folders.create.
  destruct (existsb _ (folders w)) eqn:Edup; [discriminate |].
  destruct parentFolder as [p|].
  - destruct (FolderQuery.findOwned (folders w) p (User._id (user w))); [| discriminate].
    cbn. intros H. injection H as <- <-. cbn. auto 10.
  - cbn. intros H. injection H as <- <-. cbn. auto 10.
Qed.

(** X7. Creating a folder a second time under the same name and parent
    fails with DuplicateName and changes nothing; the same name under
    another parent of the requester, where no folder bears it yet, is
    accepted. *)
Theorem create_twice_is_duplicate_name
        (name : string) (description : option string) (parentFolder : option Id)
        (color : option string) (w w1 : World) (folder : Folder.t) :
  Folders.create name description parentFolder color w = (Ok folder, w1) ->
  (forall description' color',
      Folders.create name description' parentFolder color' w1
      = (Fail DuplicateName, w1))
  /\ (forall description' color' elsewhere,
         elsewhere <> parentFolder ->
         existsb (FolderQuery.is_sibling_named name (User._id (user w)) elsewhere)
                 (folders w) = false ->
         match elsewhere with
         | None => True
         | Some p => FolderQuery.findOwned (folders w) p (User._id (user w)) <> None
         end ->
         exists folder' w2,
           Folders.create name description' elsewhere color' w1 = (Ok folder', w2)
           /\ Folder.name folder' = name
           /\ Folder.parentFolder folder' = elsewhere).
Proof.
  intros H. destruct (create_ok _ _ _ _ _ _ _ H) as (-> & Hid & Hn & Ho & Hp & Hfree).
  split.
  - intros description' color'. unfold Folders.create. cbn [folders user].
    rewrite existsb_app. cbn [existsb]. unfold FolderQuery.is_sibling_named at 2.
    rewrite Hn, Ho, Hp, String.eqb_refl, Nat.eqb_refl, same_ref_refl.
    cbn. now rewrite orb_true_r.
  - intros description' color' elsewhere Hne Hfree' Hparent.
    unfold Folders.create. cbn [folders user].
    rewrite existsb_app, Hfree'. cbn [existsb orb].
    unfold FolderQuery.is_sibling_named.
    assert (Hdiff : same_ref (Folder.parentFolder folder) elsewhere = false).
    { destruct (same_ref _ _) eqn:E; [| reflexivity].
      apply same_ref_eq in E. congruence. }
    rewrite Hdiff, andb_false_r. cbn [orb].
    destruct elsewhere as [p|].
    + destruct (FolderQuery.findOwned (folders w) p (User._id (user w)))
        as [parent|] eqn:E; [| congruence].
      rewrite (findOwned_app_l _ _ _ _ _ E). cbn. eexists. eexists.
      split; [reflexivity |]. auto.
    + cbn. eexists. eexists. split; [reflexivity |]. auto.
Qed.

Lemma create_twice_is_duplicate_name_witness :
  Folders.create "A" (Some "again") None None Rename.with_A
  = (Fail DuplicateName, Rename.with_A).
Proof.
  destruct (create_twice_is_duplicate_name
              "A" None None None Scenario.empty_world Rename.with_A
              (Folder.mk 10 "A" None 1 None "A" false Folders.default_color) eq_refl)
    as [Hdup _].
  apply Hdup.
Defined.

(** ** Sibling names stay unique *)




Lemma copy_name_is_free (taken : string -> bool) (base : string) (fuel : nat) :
  forall (cur : string) (counter : nat) (nm : string),
    Folders.copy_name fuel taken base cur counter = Some nm -> taken nm = false.
Proof.
  induction fuel as [|fuel IH]; intros cur counter nm H; [discriminate H |].
  simpl in H. destruct (taken cur) eqn:E.
  - now apply IH in H.
  - injection H as <-. exact E.
Qed.




(** ** Duplicating a folder *)

Lemma string_of_uint_slash_free (d : Decimal.uint) :
  Names.slash_free (NilEmpty.string_of_uint d) = true.
Proof. induction d; simpl; auto. Qed.

Lemma numbered_slash_free (base : string) (k : nat) :
  Names.slash_free base = true ->
  Names.slash_free (CopyName.numbered base k) = true.
Proof.
  intros H. unfold CopyName.numbered, JsString.of_nat.
  rewrite !slash_free_app, H, string_of_uint_slash_free. reflexivity.
Qed.

Lemma copy_name_shape (taken : string -> bool) (base : string) (fuel : nat) :
  forall (cur : string) (counter : nat) (nm : string),
    Folders.copy_name fuel taken base cur counter = Some nm ->
    nm = cur \/ exists k, nm = CopyName.numbered base k.
Proof.
  induction fuel as [|fuel IH]; intros cur counter nm H; [discriminate H |].
  simpl in H. destruct (taken cur).
  - apply IH in H. destruct H as [-> | H]; [right; now exists counter | now right].
  - injection H as <-. now left.
Qed.

Lemma findOwned_of_findById (l : list Folder.t) (p uid : Id) (g : Folder.t) :
  FolderQuery.findById l p = Some g -> Folder.owner g = uid ->
  FolderQuery.findOwned l p uid = Some g.
Proof.
  unfold FolderQuery.findById, FolderQuery.findOwned.
  induction l as [|x l IH]; simpl; [discriminate |].
  destruct (Nat.eqb (Folder._id x) p).
  - intros H Ho. injection H as ->. now rewrite Ho, Nat.eqb_refl.
  - exact IH.
Qed.

(** X9. Duplicating a folder adds exactly one folder, next to the
    original (same owner, parent, description and color, a name no sibling
    bears), and nothing else: files, notes and the requester's document
    are untouched. On a forest the stored path of the copy is its full
    path, so the store is a forest again. *)
Theorem folder_duplicate_is_shallow_and_keeps_forest
        (fuel : nat) (id : Id) (w w' : World) (original dup : Folder.t) :
  Names.forest (folders w) ->
  Invariant.ids_fresh w ->
  FolderQuery.findOwned (folders w) id (User._id (user w)) = Some original ->
  Folders.duplicate fuel id w = Some (Ok dup, w') ->
  w' = mkWorld (user w) (folders w ++ [dup]) (files w) (notes w) (disk w)
               (S (next_oid w))
  /\ Folder.owner dup = Folder.owner original
  /\ Folder.parentFolder dup = Folder.parentFolder original
  /\ Folder.description dup = Folder.description original
  /\ Folder.color dup = Folder.color original
  /\ existsb (FolderQuery.is_sibling_named
                (Folder.name dup) (Folder.owner dup) (Folder.parentFolder dup))
             (folders w) = false
  /\ Names.forest (folders w')
  /\ Invariant.paths_consistent (folders w').
Proof.
  intros Hshape Hfresh Hfind H. unfold Folders.duplicate in H. rewrite Hfind in H.
  destruct (findOwned_some _ _ _ _ Hfind) as (Hin & Hid & Hown).
  destruct (Folders.copy_name _ _ _ _ _) as [nm|] eqn:Ecopy; [| discriminate H].
  pose proof (copy_name_is_free _ _ _ _ _ _ Ecopy) as Hfree.
  pose proof (copy_name_shape _ _ _ _ _ _ Ecopy) as Hnm.
  cbn in H. injection H as <- <-.
  cbn [Folder.owner Folder.parentFolder Folder.description Folder.color Folder.name
                    folders].
  assert (Hslash : Names.slash_free nm = true).
  { pose proof (Names.forest_names _ Hshape original Hin) as Ho.
    destruct Hnm as [-> | [k ->]]; [| now apply numbered_slash_free].
    rewrite slash_free_app, Ho. reflexivity. }
  assert (Hforest :
            Names.forest
              (folders w ++
               [Folder.mk (next_oid w) nm (Folder.description original)
                          (User._id (user w)) (Folder.parentFolder original)
                          match Folder.parentFolder original with
                          | Some _ =>
                              JsString.join
                                "/" (JsString.slice_init
                                       (JsString.split "/" (Folder.path original)))
                              ++ "/" ++ nm
                          | None => nm
                          end false (Folder.color original)])).
  { apply append_keeps_forest;
      [exact Hfresh | exact Hshape | reflexivity | exact Hslash | exact Hfree |].
    cbn [Folder.parentFolder Folder.path Folder.name Folder.owner].
    destruct (Folder.parentFolder original) as [p|] eqn:Ep; [| reflexivity].
    destruct (path_of_child _ Hshape original p Hin Ep)
      as (parent & Hby & Hpin & Hpid & Hpath).
    exists parent. split.
    - apply findOwned_of_findById; [exact Hby |].
      rewrite <- Hown. apply (Names.forest_owner _ Hshape original parent); auto.
      congruence.
    - rewrite Hpath, split_app_slash.
      rewrite (split_slash_free _ (Names.forest_names _ Hshape original Hin)).
      unfold JsString.slice_init. rewrite removelast_last. now rewrite join_split. }
  split; [reflexivity |]. split; [exact (eq_sym Hown) |].
  split; [reflexivity |]. split; [reflexivity |]. split; [reflexivity |].
  split; [exact Hfree |]. split; [exact Hforest |].
  exact (Names.forest_paths _ Hforest).
Qed.

Lemma folder_duplicate_is_shallow_and_keeps_forest_witness :
  exists dup w',
    Folders.duplicate 4 11 Rename.with_A_B = Some (Ok dup, w')
    /\ Folder.path dup = "A/B (Copy)"
    /\ Names.forest (folders w').
Proof.
  assert (Hfresh : Invariant.ids_fresh Rename.with_A_B).
  { split; cbn.
    - constructor; [intros [H | []]; discriminate H |].
      constructor; [intros [] | constructor].
    - repeat (constructor; [cbn; lia |]). constructor. }
  destruct (folder_duplicate_is_shallow_and_keeps_forest
              4 11 Rename.with_A_B _
              (Folder.mk 11 "B" None 1 (Some 10) "A/B" false Folders.default_color)
              _ (proj1 created_worlds_are_forests) Hfresh eq_refl eq_refl)
    as (_ & _ & _ & _ & _ & _ & Hforest & _).
  eexists. eexists. split; [reflexivity |]. split; [reflexivity | exact Hforest].
Defined.

(** ** What a folder delete removes and what it keeps *)

(** X10. A forced delete of a folder whose subtree is shallower than the
    fuel answers 200 and removes the whole subtree: the folder, every
    folder below it, and every file and note of the requester inside any
    of them. *)
Theorem forced_delete_removes_whole_subtree
        (fuel : nat) (id : Id) (w : World) (folder : Folder.t) :
  FolderQuery.findOwned (folders w) id (User._id (user w)) = Some folder ->
  Cascade.shallower fuel (User._id (user w)) (folders w) id ->
  exists w',
    Folders.remove fuel id true w = Some (Ok tt, w')
    /\ (forall f, In f (folders w') -> Folder._id f <> id)
    /\ (forall f, Cascade.below (User._id (user w)) (folders w) id f ->
                  ~ In f (folders w'))
    /\ (forall i, Reach.reached (User._id (user w)) (folders w) id i ->
                  Cascade.emptied (User._id (user w)) i w').
Proof.
  intros Hfind Hsh.
  destruct (forced_remove_clears_subtree fuel id w folder Hfind Hsh)
    as (w' & Hrun & (_ & Hid & Hempty) & Hbelow & _).
  exists w'. split; [exact Hrun |]. split; [exact Hid |].
  split; [intros f Hf; now apply Hbelow |].
  intros i [-> | (f & Hf & <-)]; [exact Hempty | now apply Hbelow].
Qed.

Lemma forced_delete_removes_whole_subtree_witness :
  exists w',
    Folders.remove 2 1 true Tree.nested = Some (Ok tt, w')
    /\ ~ In Tree.folderB (folders w')
    /\ Cascade.emptied 1 2 w'.
Proof.
  destruct (forced_delete_removes_whole_subtree 2 1 Tree.nested Tree.folderA eq_refl)
    as (w' & Hrun & _ & Hbelow & Hempty).
  - cbn. intros c [<- | [<- | []]] Hc; [discriminate Hc |].
    intros c' [<- | [<- | []]] Hc'; discriminate Hc'.
  - assert (HB : Cascade.below 1 (folders Tree.nested) 1 Tree.folderB).
    { apply Cascade.below_child; [right; left; reflexivity | reflexivity]. }
    exists w'. split; [exact Hrun |]. split; [now apply Hbelow |].
    apply Hempty. right. exists Tree.folderB. split; [exact HB | reflexivity].
Defined.

Lemma below_incl (uid : Id) (l l' : list Folder.t) (id : Id) (f : Folder.t) :
  incl l' l -> Cascade.below uid l' id f -> Cascade.below uid l id f.
Proof.
  intros Hincl. induction 1 as [f Hf Hc | g f Hg IH Hf Hc].
  - apply Cascade.below_child; auto.
  - eapply Cascade.below_deeper; eauto.
Qed.

Lemma below_trans (uid : Id) (l : list Folder.t) (id : Id) (c f : Folder.t) :
  Cascade.below uid l id c -> Cascade.below uid l (Folder._id c) f ->
  Cascade.below uid l id f.
Proof.
  intros Hc. induction 1 as [f Hf Hch | g f Hg IH Hf Hch].
  - eapply Cascade.below_deeper; eauto.
  - eapply Cascade.below_deeper; eauto.
Qed.

Lemma reached_of_child (uid : Id) (l l' : list Folder.t) (id : Id) (c : Folder.t) (i : Id) :
  incl l' l -> Cascade.below uid l id c ->
  Reach.reached uid l' (Folder._id c) i -> Reach.reached uid l id i.
Proof.
  intros Hincl Hc [-> | (f & Hf & <-)].
  - right. now exists c.
  - right. exists f. split; [| reflexivity].
    eapply below_trans; [exact Hc |]. eapply below_incl; eassumption.
Qed.

Lemma deleteFolder_keeps_outside (uid : Id) (fuel : nat) :
  forall id w w',
    Folders.deleteFolder fuel id uid w = Some w' -> Reach.kept uid id w w'.
Proof.
  induction fuel as [|fuel IH]; intros id w w' H; [discriminate H |].
  cbn [Folders.deleteFolder] in H.
  change (fun (acc : option World) (subfolder : Folder.t) =>
            match acc with
            | Some w' => Folders.deleteFolder fuel (Folder._id subfolder) uid w'
            | None => None
            end)
    with (Cascade.visit fuel uid) in H.
  assert (Hloop : forall cs w0 w1,
             fold_left (Cascade.visit fuel uid) cs (Some w0) = Some w1 ->
             Cascade.shrinks w w0 ->
             (forall c, In c cs -> Cascade.below uid (folders w) id c) ->
             (forall g, In g (folders w0) ->
                        ~ Reach.reached uid (folders w) id (Folder._id g) ->
                        In g (folders w1))
             /\ (forall x, In x (files w0) ->
                           (File.owner x <> uid
                            \/ forall i, File.folder x = Some i ->
                                         ~ Reach.reached uid (folders w) id i) ->
                           In x (files w1))
             /\ (forall n, In n (notes w0) ->
                           (Note.owner n <> uid
                            \/ forall i, Note.folder n = Some i ->
                                         ~ Reach.reached uid (folders w) id i) ->
                           In n (notes w1))).
  { induction cs as [|c rest IHcs]; intros w0 w1 Hfold Hsh Hcs; simpl in Hfold.
    - injection Hfold as <-. auto.
    - destruct (Folders.deleteFolder fuel (Folder._id c) uid w0) as [w0'|] eqn:E;
        [| now rewrite visit_none in Hfold].
      destruct (IH _ _ _ E) as (Kf & Kx & Kn).
      assert (Hc : Cascade.below uid (folders w) id c) by (apply Hcs; now left).
      assert (Hconv : forall i, Reach.reached uid (folders w0) (Folder._id c) i ->
                                Reach.reached uid (folders w) id i).
      { intros i. apply reached_of_child; [apply Hsh | exact Hc]. }
      assert (Hsh' : Cascade.shrinks w w0').
      { eapply shrinks_trans; [exact Hsh |]. apply (deleteFolder_clears _ _ _ _ _ E). }
      destruct (IHcs _ _ Hfold Hsh' (fun c' Hc' => Hcs c' (or_intror Hc')))
        as (Rf & Rx & Rn).
      split; [| split].
      + intros g Hg Hout. apply Rf; [| exact Hout]. apply Kf; [exact Hg |].
        intros Hr. apply Hout, Hconv, Hr.
      + intros x Hx Hout. apply Rx; [| exact Hout]. apply Kx; [exact Hx |].
        destruct Hout as [Ho | Hi]; [now left | right].
        intros i Hfi Hr. apply (Hi i Hfi), Hconv, Hr.
      + intros n Hn Hout. apply Rn; [| exact Hout]. apply Kn; [exact Hn |].
        destruct Hout as [Ho | Hi]; [now left | right].
        intros i Hfi Hr. apply (Hi i Hfi), Hconv, Hr. }
  destruct (fold_left (Cascade.visit fuel uid) _ (Some w)) as [w1|] eqn:E;
    [| discriminate H].
  injection H as <-.
  destruct (Hloop _ _ _ E (shrinks_refl w)) as (Lf & Lx & Ln).
  { intros c Hc. apply filter_In in Hc. destruct Hc as [Hin Hch].
    now apply Cascade.below_child. }
  split; [| split]; cbn.
  - intros g Hg Hout. apply filter_In. split; [now apply Lf |].
    apply negb_true_iff, Nat.eqb_neq. intros Hid. apply Hout. now left.
  - intros x Hx Hout. apply filter_In. split; [now apply Lx |].
    apply negb_true_iff. destruct (same_ref _ _ && _) eqn:Ein; [| reflexivity].
    exfalso. apply andb_true_iff in Ein. destruct Ein as [Ef Eo].
    apply same_ref_eq in Ef. apply Nat.eqb_eq in Eo.
    destruct Hout as [Ho | Hi]; [congruence |].
    apply (Hi id Ef). now left.
  - intros n Hn Hout. apply filter_In. split; [now apply Ln |].
    apply negb_true_iff. destruct (same_ref _ _ && _) eqn:Ein; [| reflexivity].
    exfalso. apply andb_true_iff in Ein. destruct Ein as [Ef Eo].
    apply same_ref_eq in Ef. apply Nat.eqb_eq in Eo.
    destruct Hout as [Ho | Hi]; [congruence |].
    apply (Hi id Ef). now left.
Qed.

Lemma below_is_owned (uid : Id) (l : list Folder.t) (id : Id) (f : Folder.t) :
  Cascade.below uid l id f -> In f l /\ Folder.owner f = uid.
Proof.
  intros H. destruct H as [f Hf Hc | g f _ Hf Hc];
    (split; [exact Hf |]);
    unfold FolderQuery.is_child_of in Hc; apply andb_true_iff in Hc;
    destruct Hc as [_ Hc]; now apply Nat.eqb_eq in Hc.
Qed.

(** X11. A folder delete takes nothing from outside the subtree it was
    asked to delete: every folder that is neither the target nor below it
    stays, and so does every file and note that is not the requester's or
    not inside the subtree. With unique ids, in particular, nothing of
    another owner is ever removed. *)
Theorem folder_delete_keeps_the_rest
        (fuel : nat) (id : Id) (force : bool) (w w' : World) (r : Result unit) :
  NoDup (map Folder._id (folders w)) ->
  Folders.remove fuel id force w = Some (r, w') ->
  Reach.kept (User._id (user w)) id w w'
  /\ (forall g, In g (folders w) -> Folder.owner g <> User._id (user w) ->
                In g (folders w'))
  /\ (forall x, In x (files w) -> File.owner x <> User._id (user w) ->
                In x (files w'))
  /\ (forall n, In n (notes w) -> Note.owner n <> User._id (user w) ->
                In n (notes w')).
Proof.
  intros Hnd H. unfold Folders.remove in H.
  destruct (FolderQuery.findOwned (folders w) id (User._id (user w)))
    as [folder|] eqn:Efind;
    [| injection H as _ <-; repeat split; auto].
  destruct (findOwned_some _ _ _ _ Efind) as (Hin & Hfid & Hown).
  rewrite Hfid in H.
  destruct (Nat.ltb 0 _ && negb force);
    [injection H as _ <-; repeat split; auto |].
  destruct (Folders.deleteFolder _ _ _ _) as [w1|] eqn:E; [| discriminate H].
  injection H as _ <-.
  pose proof (deleteFolder_keeps_outside _ _ _ _ _ E) as Hkept.
  split; [exact Hkept |]. destruct Hkept as (Kf & Kx & Kn).
  split; [| split].
  - intros g Hg Ho. apply Kf; [exact Hg |].
    intros [Hid | (f & Hf & Hf_id)]; apply Ho.
    + rewrite <- Hown. f_equal. apply (same_id_same_doc _ Hnd); auto. congruence.
    + destruct (below_is_owned _ _ _ _ Hf) as [Hfin Hfown].
      rewrite <- Hfown. f_equal. now apply (same_id_same_doc _ Hnd).
  - intros x Hx Ho. apply Kx; auto.
  - intros n Hn Ho. apply Kn; auto.
Qed.

Lemma folder_delete_keeps_the_rest_witness :
  exists w',
    Folders.remove 2 2 true Tree.nested = Some (Ok tt, w')
    /\ In Tree.folderA (folders w').
Proof.
  eexists. split; [reflexivity |].
  apply (proj1 (proj1 (folder_delete_keeps_the_rest
                         2 2 true Tree.nested _ (Ok tt)
                         ltac:(cbn; repeat constructor; cbn; intuition discriminate)
                         eq_refl))).
  - left. reflexivity.
  - intros [H | (f & Hf & Hid)]; [discriminate H |].
    destruct Hf as [f Hin Hc | g f _ Hin Hc];
      destruct Hin as [<- | [<- | []]];
      try discriminate Hid; discriminate Hc.
Defined.

Lemma filter_none_all {A : Type} (P : A -> bool) (l : list A) :
  List.length (filter P l) = 0 -> filter (fun x => negb (P x)) l = l.
Proof.
  induction l as [|x l IH]; simpl; [reflexivity |].
  destruct (P x); simpl; [discriminate |]. intros H. now rewrite IH.
Qed.

(** X12. Deleting a folder that directly holds nothing of the requester
    needs no [force]: the route answers 200 and removes that folder and
    nothing else, with or without [force]. *)
Theorem empty_folder_delete_removes_only_it
        (fuel : nat) (id : Id) (force : bool) (w : World) (folder : Folder.t) :
  FolderQuery.findOwned (folders w) id (User._id (user w)) = Some folder ->
  Folders.totalItems id (User._id (user w)) w = 0 ->
  Folders.remove (S fuel) id force w
  = Some (Ok tt, with_folders w (FolderQuery.deleteById id (folders w))).
Proof.
  intros Hfind Hzero.
  destruct (findOwned_some _ _ _ _ Hfind) as (_ & Hid & _). subst id.
  unfold Folders.remove. rewrite Hfind.
  rewrite Hzero. cbn [Nat.ltb Nat.leb andb].
  unfold Folders.totalItems in Hzero. cbv zeta in Hzero.
  assert (Hsub : filter (FolderQuery.is_child_of (Folder._id folder) (User._id (user w)))
                        (folders w) = []).
  { apply length_zero_iff_nil. lia. }
  cbn [Folders.deleteFolder]. rewrite Hsub. cbn [fold_left].
  unfold with_files, with_notes, with_folders.
  cbn [user folders files notes disk next_oid].
  rewrite !filter_none_all by lia. reflexivity.
Qed.

Lemma empty_folder_delete_removes_only_it_witness :
  Folders.remove 1 11 false Rename.with_A_B
  = Some (Ok tt,
          with_folders Rename.with_A_B
                       (FolderQuery.deleteById 11 (folders Rename.with_A_B))).
Proof.
  apply (empty_folder_delete_removes_only_it
           0 11 false Rename.with_A_B
           (Folder.mk 11 "B" None 1 (Some 10) "A/B" false Folders.default_color));
    reflexivity.
Defined.

(** ** Renaming *)

(** X13. A rename on a path free of regular-expression metacharacters, to
    a name free of them, rewrites the whole subtree and nothing else: the
    folder's own path has its last segment replaced; a folder of the
    requester whose path is the old path, a slash and a rest gets the new
    path, the slash and the same rest; every other folder stays as it
    is. *)
Theorem plain_rename_rewrites_the_subtree
        (id : Id) (n : string) (description color : option string)
        (isFavorite : option bool) (w : World) (folder : Folder.t) :
  NoDup (map Folder._id (folders w)) ->
  FolderQuery.findOwned (folders w) id (User._id (user w)) = Some folder ->
  n <> EmptyString ->
  n <> Folder.name folder ->
  existsb (fun f => FolderQuery.is_sibling_named
                      n (User._id (user w)) (Folder.parentFolder folder) f
                    && negb (Nat.eqb (Folder._id f) (Folder._id folder)))
          (folders w) = false ->
  Regex.plain (Folder.path folder) = true ->
  Regex.plain n = true ->
  let oldPath := Folder.path folder in
  let newPath := JsString.join "/" (JsString.set_last (JsString.split "/" oldPath) n) in
  exists renamed w',
    Folders.update id (Some n) description color isFavorite w = Some (Ok renamed, w')
    /\ Folder.path renamed = newPath
    /\ Folder.name renamed = n
    /\ In renamed (folders w')
    /\ List.length (folders w') = List.length (folders w)
    /\ (forall g rest,
           In g (folders w) -> Folder._id g <> id ->
           Folder.owner g = User._id (user w) ->
           Folder.path g = oldPath ++ "/" ++ rest ->
           In (Folder.set_path g (newPath ++ "/" ++ rest)) (folders w'))
    /\ (forall g,
           In g (folders w) -> Folder._id g <> id ->
           Folder.owner g <> User._id (user w)
           \/ ~ Spec.starts_with (Folder.path g) (oldPath ++ "/") ->
           In g (folders w'))
    /\ files w' = files w /\ notes w' = notes w /\ user w' = user w.
Proof.
  intros Hnd Hfind Hne Hdiff Hfree Hold Hn oldPath newPath.
  destruct (rename_on_plain_path id n description color isFavorite w folder
                                 Hnd Hfind Hne Hdiff Hfree Hold Hn)
    as (Hrun & Hpath & Hname & _).
  fold oldPath in Hrun, Hpath. fold newPath in Hrun, Hpath.
  destruct (findOwned_some _ _ _ _ Hfind) as (Hin & Hid & _).
  eexists. eexists. split; [exact Hrun |].
  split; [exact Hpath |]. split; [exact Hname |].
  cbn [with_folders folders files notes user].
  split; [| split; [| split; [| split; [| repeat split]]]].
  - apply in_map_iff. exists folder. split; [| exact Hin].
    now rewrite Hid, Nat.eqb_refl.
  - apply length_map.
  - intros g rest Hg Hgid Hown Hgpath. apply in_map_iff. exists g.
    split; [| exact Hg].
    apply Nat.eqb_neq in Hgid. rewrite Hgid, Hown, Nat.eqb_refl.
    unfold JsString.startsWith. rewrite Hgpath.
    rewrite <- append_assoc, prefix_app. cbn [andb].
    now rewrite append_assoc, drop_app_length.
  - intros g Hg Hgid Hout. apply in_map_iff. exists g. split; [| exact Hg].
    apply Nat.eqb_neq in Hgid. rewrite Hgid.
    destruct (Nat.eqb_spec (Folder.owner g) (User._id (user w))) as [Ho | Ho];
      [| reflexivity].
    cbn [andb]. unfold JsString.startsWith.
    destruct (String.prefix (oldPath ++ "/") (Folder.path g)) eqn:E; [| reflexivity].
    exfalso. destruct Hout as [Hout | Hout]; [now apply Hout |].
    apply Hout. now apply prefix_starts_with.
Qed.

Lemma plain_rename_rewrites_the_subtree_witness :
  exists renamed w',
    Folders.update 10 (Some "A2") None None None Rename.with_A_B
    = Some (Ok renamed, w')
    /\ In (Folder.mk 11 "B" None 1 (Some 10) "A2/B" false Folders.default_color)
          (folders w').
Proof.
  destruct (plain_rename_rewrites_the_subtree
              10 "A2" None None None Rename.with_A_B
              (Folder.mk 10 "A" None 1 None "A" false Folders.default_color))
    as (renamed & w' & Hrun & _ & _ & _ & _ & Hsub & _);
    try reflexivity; try discriminate.
  - cbn. repeat constructor; cbn; intuition discriminate.
  - exists renamed, w'. split; [exact Hrun |].
    apply (Hsub (Folder.mk 11 "B" None 1 (Some 10) "A/B" false Folders.default_color)
                "B"); try reflexivity; [right; left; reflexivity | discriminate].
Defined.

(** X14. A rename keeps the stored paths right when the old path and the
    new name are free of regular-expression metacharacters and the new
    name holds no slash: on a forest, the store it leaves is a forest, so
    every stored path is again the full path. *)
Theorem plain_rename_keeps_stored_paths
        (id : Id) (n : string) (description color : option string)
        (isFavorite : option bool) (w : World) (folder : Folder.t) :
  Names.forest (folders w) ->
  FolderQuery.findOwned (folders w) id (User._id (user w)) = Some folder ->
  n <> EmptyString ->
  n <> Folder.name folder ->
  existsb (fun f => FolderQuery.is_sibling_named
                      n (User._id (user w)) (Folder.parentFolder folder) f
                    && negb (Nat.eqb (Folder._id f) (Folder._id folder)))
          (folders w) = false ->
  Regex.plain (Folder.path folder) = true ->
  Regex.plain n = true ->
  Names.slash_free n = true ->
  exists renamed w',
    Folders.update id (Some n) description color isFavorite w = Some (Ok renamed, w')
    /\ Names.forest (folders w')
    /\ Forall (fun f => exists fuel,
                   getFullPath fuel (folders w') f = Some (Folder.path f))
              (folders w').
Proof.
  intros Hshape Hfind Hne Hdiff Hfree Hold Hn Hslash.
  destruct (rename_keeps_paths_consistent id n description color isFavorite w folder
                                          Hshape Hfind Hne Hdiff Hfree Hold Hn Hslash)
    as (renamed & w' & Hrun & Hforest & Hpaths).
  exists renamed, w'. auto.
Qed.

Lemma plain_rename_keeps_stored_paths_witness :
  exists renamed w',
    Folders.update 10 (Some "A2") None None None Rename.with_A_B
    = Some (Ok renamed, w')
    /\ Names.forest (folders w').
Proof.
  destruct (plain_rename_keeps_stored_paths
              10 "A2" None None None Rename.with_A_B
              (Folder.mk 10 "A" None 1 None "A" false Folders.default_color)
              (proj1 created_worlds_are_forests))
    as (renamed & w' & Hrun & Hforest & _); try reflexivity; try discriminate.
  now exists renamed, w'.
Defined.

(** X15. A create keeps the stored paths right: on a store with unique,
    fresh ids whose paths are the full paths, the store after the create
    is one again, whatever the name and the outcome; with a slash-free
    name a forest stays a forest. *)
Theorem create_keeps_stored_paths
        (name : string) (description : option string) (parentFolder : option Id)
        (color : option string) (w : World) :
  Invariant.ids_fresh w ->
  Invariant.paths_consistent (folders w) ->
  let w' := snd (Folders.create name description parentFolder color w) in
  Invariant.ids_fresh w'
  /\ Invariant.paths_consistent (folders w')
  /\ (Names.slash_free name = true -> Names.forest (folders w) ->
      Names.forest (folders w')).
Proof.
  intros Hfresh Hpaths w'. subst w'.
  destruct (create_keeps_paths_consistent name description parentFolder color w
                                          Hfresh Hpaths) as [Hf Hp].
  split; [exact Hf |]. split; [exact Hp |].
  intros Hname Hshape.
  apply (create_keeps_forest name description parentFolder color w Hname Hfresh Hshape).
Qed.

Lemma create_keeps_stored_paths_witness :
  Invariant.paths_consistent
    (folders (snd (Folders.create "C" None (Some 11) None Rename.with_A_B))).
Proof.
  assert (Hfresh : Invariant.ids_fresh Rename.with_A_B).
  { split; cbn.
    - constructor; [intros [H | []]; discriminate H |].
      constructor; [intros [] | constructor].
    - repeat (constructor; [cbn; lia |]). constructor. }
  destruct (create_keeps_stored_paths
              "C" None (Some 11) None Rename.with_A_B Hfresh
              (Names.forest_paths _ (proj1 created_worlds_are_forests)))
    as (_ & Hpaths & _).
  exact Hpaths.
Defined.

Lemma compile_open_group (b : string) :
  Regex.plain b = true -> forall depth, Regex.compile (S depth) b = Regex.Invalid.
Proof.
  induction b as [|c b IH]; intros Hb depth; [reflexivity |].
  cbn [Regex.plain] in Hb. apply andb_true_iff in Hb. destruct Hb as [Hc Hb].
  unfold Regex.ordinary in Hc. apply negb_true_iff in Hc.
  rewrite !orb_false_iff in Hc. destruct Hc as [[[H1 H2] H3] H4].
  cbn [Regex.compile]. rewrite H1, H2, H3, H4, (IH Hb). reflexivity.
Qed.

Lemma compile_unbalanced (a b : string) :
  Regex.plain a = true -> Regex.plain b = true ->
  Regex.compile 0 (a ++ "(" ++ b) = Regex.Invalid.
Proof.
  intros Ha Hb. induction a as [|c a IH].
  - cbn. now apply compile_open_group.
  - cbn [Regex.plain] in Ha. apply andb_true_iff in Ha. destruct Ha as [Hc Ha].
    unfold Regex.ordinary in Hc. apply negb_true_iff in Hc.
    rewrite !orb_false_iff in Hc. destruct Hc as [[[H1 H2] H3] H4].
    cbn [append Regex.compile]. rewrite H1, H2, H3, H4.
    cbn [append] in IH. rewrite (IH Ha). reflexivity.
Qed.

(** X16. A folder whose stored path holds one opening parenthesis and no
    other metacharacter cannot be renamed: the pattern built from the path
    is rejected by the server, the route answers 500 and nothing is
    written. *)
Theorem rename_fails_on_unbalanced_parenthesis
        (id : Id) (n : string) (description color : option string)
        (isFavorite : option bool) (w : World) (folder : Folder.t)
        (before after : string) :
  FolderQuery.findOwned (folders w) id (User._id (user w)) = Some folder ->
  n <> EmptyString ->
  n <> Folder.name folder ->
  existsb (fun f => FolderQuery.is_sibling_named
                      n (User._id (user w)) (Folder.parentFolder folder) f
                    && negb (Nat.eqb (Folder._id f) (Folder._id folder)))
          (folders w) = false ->
  Folder.path folder = before ++ "(" ++ after ->
  Regex.plain before = true ->
  Regex.plain after = true ->
  Folders.update id (Some n) description color isFavorite w
  = Some (Fail ServerError, w).
Proof.
  intros Hfind Hne Hdiff Hfree Hpath Hb Ha.
  unfold Folders.update. rewrite Hfind.
  assert (Htruthy : JsString.truthy (Some n) = true).
  { cbn. apply negb_true_iff, String.eqb_neq. exact Hne. }
  assert (Hinv : RegexQuery.regex ("^" ++ (before ++ "(" ++ after) ++ "/")
                 = RegexQuery.Rejected).
  { change ("^" ++ (before ++ "(" ++ after) ++ "/")
      with (String "^" ((before ++ "(" ++ after) ++ "/")).
    unfold RegexQuery.regex.
    replace ((before ++ "(" ++ after) ++ "/") with (before ++ "(" ++ (after ++ "/"))
      by (now rewrite !append_assoc).
    rewrite compile_unbalanced; [reflexivity | exact Hb |].
    rewrite plain_app, Ha. reflexivity. }
  apply String.eqb_neq in Hdiff. rewrite Htruthy, Hdiff. cbn [negb andb].
  rewrite Hfree, Hpath. cbv zeta. rewrite Hinv. reflexivity.
Qed.

Lemma rename_fails_on_unbalanced_parenthesis_witness :
  Folders.update 10 (Some "b") None None None
                 (snd (Folders.create "a(" None None None Scenario.empty_world))
  = Some (Fail ServerError,
          snd (Folders.create "a(" None None None Scenario.empty_world)).
Proof.
  apply (rename_fails_on_unbalanced_parenthesis
           10 "b" None None None
           (snd (Folders.create "a(" None None None Scenario.empty_world))
           (Folder.mk 10 "a(" None 1 None "a(" false Folders.default_color)
           "a" EmptyString);
    try reflexivity; discriminate.
Defined.

(** ** The text of a note *)

Lemma take_length (n : nat) :
  forall s, n <= String.length s -> String.length (NoteText.take n s) = n.
Proof.
  induction n as [|n IH]; intros s H; [reflexivity |].
  destruct s as [|c r]; cbn in *; [lia |]. rewrite IH; lia.
Qed.

Lemma take_all (n : nat) :
  forall s, String.length s <= n -> NoteText.take n s = s.
Proof.
  induction n as [|n IH]; intros s H.
  - destruct s; [reflexivity | cbn in H; lia].
  - destruct s as [|c r]; [reflexivity |]. cbn in *. rewrite IH; [reflexivity | lia].
Qed.

Lemma take_prefix (n : nat) :
  forall s, String.prefix (NoteText.take n s) s = true.
Proof.
  induction n as [|n IH]; intros s.
  - destruct s; reflexivity.
  - destruct s as [|c r]; [reflexivity |].
    cbn [NoteText.take String.prefix].
    destruct (ascii_dec c c) as [_|H]; [apply IH | now elim H].
Qed.

(** X17. getPreview returns a short note unchanged; of a longer one it
    returns the first [length] characters followed by three dots, so a
    preview is never more than three characters over the length asked
    for. *)
Theorem preview_is_bounded_prefix (content : string) (length : nat) :
  String.length (NoteText.getPreview content length) <= length + 3
  /\ (String.length content <= length ->
      NoteText.getPreview content length = content)
  /\ (length < String.length content ->
      exists head,
        NoteText.getPreview content length = head ++ "..."
        /\ String.length head = length
        /\ String.prefix head content = true).
Proof.
  unfold NoteText.getPreview.
  destruct (Nat.ltb length (String.length content)) eqn:E.
  - apply Nat.ltb_lt in E. split; [| split].
    + rewrite length_append, take_length; [cbn; lia | lia].
    + intros H. lia.
    + intros _. exists (NoteText.take length content).
      split; [reflexivity |]. split; [apply take_length; lia | apply take_prefix].
  - apply Nat.ltb_ge in E. split; [lia |]. split; [reflexivity | intros H; lia].
Qed.

(** X18. The preview the summary route builds inline for a recent note is
    the one the model method getPreview gives at its default length of
    100. *)
Theorem summary_preview_is_default_preview (content : string) :
  NoteText.summary_preview content = NoteText.getPreview content 100.
Proof.
  unfold NoteText.summary_preview, NoteText.getPreview.
  destruct (Nat.ltb 100 (String.length content)) eqn:E; [reflexivity |].
  apply Nat.ltb_ge in E. rewrite take_all by exact E. apply append_nil_r.
Qed.

Lemma split_spaces_cons (s : string) :
  exists h t, NoteText.split_spaces s = h :: t.
Proof.
  induction s as [|c r (h & t & IH)]; [now exists EmptyString, [] |].
  cbn [NoteText.split_spaces]. rewrite IH.
  destruct (NoteText.is_space c); [| now eauto].
  destruct (NoteText.starts_with_space r); eauto.
Qed.

Lemma trimStart_all_space (pad s : string) :
  Words.all_space pad = true ->
  NoteText.trimStart (pad ++ s) = NoteText.trimStart s.
Proof.
  induction pad as [|c pad IH]; intros H; [reflexivity |].
  cbn [Words.all_space] in H. apply andb_true_iff in H. destruct H as [Hc Hp].
  cbn [append NoteText.trimStart]. rewrite Hc. now apply IH.
Qed.

Lemma trimEnd_all_space (pad : string) :
  Words.all_space pad = true -> NoteText.trimEnd pad = EmptyString.
Proof.
  induction pad as [|c pad IH]; intros H; [reflexivity |].
  cbn [Words.all_space] in H. apply andb_true_iff in H. destruct H as [Hc Hp].
  cbn [NoteText.trimEnd]. now rewrite IH, Hc.
Qed.

Lemma trimEnd_app_all_space (s pad : string) :
  Words.all_space pad = true ->
  NoteText.trimEnd (s ++ pad) = NoteText.trimEnd s.
Proof.
  intros H. induction s as [|c s IH]; [now apply trimEnd_all_space |].
  cbn [append NoteText.trimEnd]. now rewrite IH.
Qed.

Lemma trimEnd_word (s : string) :
  Words.word s = true -> NoteText.trimEnd s = s.
Proof.
  induction s as [|c s IH]; intros H; [discriminate H |].
  cbn [Words.word Words.space_free] in H. apply andb_true_iff in H.
  destruct H as [Hc Hs]. cbn [NoteText.trimEnd].
  destruct s as [|d s'].
  - cbn [NoteText.trimEnd]. destruct (NoteText.is_space c); [discriminate Hc | reflexivity].
  - rewrite IH by exact Hs. reflexivity.
Qed.

Lemma trimEnd_app_fixed (a b : string) :
  b <> EmptyString -> NoteText.trimEnd b = b -> NoteText.trimEnd (a ++ b) = a ++ b.
Proof.
  intros Hne Hb. induction a as [|c a IH]; [exact Hb |].
  cbn [append NoteText.trimEnd]. rewrite IH.
  destruct (a ++ b) as [|d r] eqn:E; [| reflexivity].
  destruct a; [cbn in E; contradiction | discriminate E].
Qed.

Lemma text_nonempty (first : string) (rest : list (string * string)) :
  Words.word first = true -> Words.text first rest <> EmptyString.
Proof.
  intros H. destruct first as [|c f]; [discriminate H |].
  destruct rest as [|[g w] more]; cbn; discriminate.
Qed.

Lemma trimEnd_text (rest : list (string * string)) :
  forall first,
    Words.word first = true -> Words.well_spaced rest = true ->
    NoteText.trimEnd (Words.text first rest) = Words.text first rest.
Proof.
  induction rest as [|[g w] more IH]; intros first Hf Hr.
  - now apply trimEnd_word.
  - cbn [Words.well_spaced forallb fst snd] in Hr.
    apply andb_true_iff in Hr. destruct Hr as [Hgw Hmore].
    apply andb_true_iff in Hgw. destruct Hgw as [Hg Hw].
    cbn [Words.text]. rewrite <- append_assoc.
    apply trimEnd_app_fixed; [now apply text_nonempty | now apply IH].
Qed.

Lemma trimStart_text (first : string) (rest : list (string * string)) :
  Words.word first = true ->
  NoteText.trimStart (Words.text first rest) = Words.text first rest.
Proof.
  intros H. destruct first as [|c f]; [discriminate H |].
  cbn [Words.word Words.space_free] in H. apply andb_true_iff in H.
  destruct H as [Hc _].
  destruct rest as [|[g w] more]; cbn [Words.text append NoteText.trimStart];
    destruct (NoteText.is_space c); (discriminate Hc || reflexivity).
Qed.

Lemma trim_padded_text (pad1 pad2 first : string) (rest : list (string * string)) :
  Words.all_space pad1 = true -> Words.all_space pad2 = true ->
  Words.word first = true -> Words.well_spaced rest = true ->
  NoteText.trim (pad1 ++ Words.text first rest ++ pad2) = Words.text first rest.
Proof.
  intros H1 H2 Hf Hr. unfold NoteText.trim.
  rewrite trimStart_all_space by exact H1.
  destruct (Words.text first rest) as [|c body] eqn:E;
    [now elim (text_nonempty first rest Hf) |].
  pose proof (trimStart_text first rest Hf) as Hs. rewrite E in Hs.
  cbn [NoteText.trimStart] in Hs. cbn [append NoteText.trimStart].
  destruct (NoteText.is_space c) eqn:Ec.
  - exfalso. destruct first as [|c' f]; [discriminate Hf |].
    cbn [Words.word Words.space_free] in Hf. apply andb_true_iff in Hf.
    destruct rest as [|[g w] more]; cbn [Words.text append] in E;
      injection E as -> _; rewrite Ec in Hf; destruct Hf; discriminate.
  - change (String c (body ++ pad2)) with (String c body ++ pad2).
    rewrite trimEnd_app_all_space by exact H2.
    rewrite <- E. now apply trimEnd_text.
Qed.

Lemma split_spaces_word_app (w s : string) :
  Words.space_free w = true ->
  exists h t, NoteText.split_spaces s = h :: t
              /\ NoteText.split_spaces (w ++ s) = (w ++ h) :: t.
Proof.
  intros H. induction w as [|c w IH].
  - destruct (split_spaces_cons s) as (h & t & E). now exists h, t.
  - cbn [Words.space_free] in H. apply andb_true_iff in H. destruct H as [Hc Hw].
    destruct (IH Hw) as (h & t & E & E'). exists h, t. split; [exact E |].
    cbn [append NoteText.split_spaces]. rewrite E'.
    destruct (NoteText.is_space c); [discriminate Hc | reflexivity].
Qed.

Lemma split_spaces_gap_app (g s : string) :
  Words.gap g = true -> NoteText.starts_with_space s = false ->
  NoteText.split_spaces (g ++ s) = EmptyString :: NoteText.split_spaces s.
Proof.
  intros Hg Hs. destruct g as [|c g]; [discriminate Hg |].
  cbn [Words.gap] in Hg. revert c Hg.
  induction g as [|d g IH]; intros c Hg;
    cbn [Words.all_space] in Hg; apply andb_true_iff in Hg; destruct Hg as [Hc Hg].
  - cbn [append NoteText.split_spaces]. now rewrite Hc, Hs.
  - specialize (IH d Hg).
    change (String c (String d g) ++ s) with (String c (String d g ++ s)).
    cbn [NoteText.split_spaces]. rewrite Hc.
    cbn [Words.all_space] in Hg. apply andb_true_iff in Hg.
    cbn [append NoteText.starts_with_space]. rewrite (proj1 Hg).
    exact IH.
Qed.

Lemma text_starts_with_word (first : string) (rest : list (string * string)) :
  Words.word first = true ->
  NoteText.starts_with_space (Words.text first rest) = false.
Proof.
  intros H. destruct first as [|c f]; [discriminate H |].
  cbn [Words.word Words.space_free] in H. apply andb_true_iff in H.
  destruct H as [Hc _].
  destruct rest as [|[g w] more]; cbn [Words.text append NoteText.starts_with_space];
    now destruct (NoteText.is_space c).
Qed.

Lemma word_space_free (s : string) : Words.word s = true -> Words.space_free s = true.
Proof. destruct s; [discriminate | auto]. Qed.

Lemma split_spaces_text (rest : list (string * string)) :
  forall first,
    Words.word first = true -> Words.well_spaced rest = true ->
    NoteText.split_spaces (Words.text first rest) = first :: map snd rest.
Proof.
  induction rest as [|[g w] more IH]; intros first Hf Hr.
  - cbn [Words.text map].
    destruct (split_spaces_word_app first EmptyString (word_space_free _ Hf))
      as (h & t & E & E').
    cbn [NoteText.split_spaces] in E. injection E as <- <-.
    now rewrite !append_nil_r in E'.
  - cbn [Words.well_spaced forallb fst snd] in Hr.
    apply andb_true_iff in Hr. destruct Hr as [Hgw Hmore].
    apply andb_true_iff in Hgw. destruct Hgw as [Hg Hw].
    cbn [Words.text map snd].
    destruct (split_spaces_word_app first (g ++ Words.text w more)
                                    (word_space_free _ Hf))
      as (h & t & E & E').
    rewrite split_spaces_gap_app in E
      by (try exact Hg; now apply text_starts_with_word).
    injection E as <- <-. rewrite E', append_nil_r. f_equal. now apply IH.
Qed.

(** X19. getWordCount of a note that is empty or holds only white space is
    1, not 0; and no note has a word count of 0. *)
Theorem word_count_of_blank_note_is_one (content : string) :
  1 <= NoteText.getWordCount content
  /\ (Words.all_space content = true -> NoteText.getWordCount content = 1).
Proof.
  unfold NoteText.getWordCount. split.
  - destruct (split_spaces_cons (NoteText.trim content)) as (h & t & ->). cbn. lia.
  - intros H. unfold NoteText.trim.
    rewrite <- (append_nil_r content), trimStart_all_space by exact H.
    reflexivity.
Qed.

(** X20. getWordCount counts the words: for a text of words (non-empty,
    free of white space) separated by gaps of any white space of any
    length, with any white space before and after, it is the number of
    words. *)
Theorem word_count_counts_words
        (pad1 pad2 first : string) (rest : list (string * string)) :
  Words.all_space pad1 = true -> Words.all_space pad2 = true ->
  Words.word first = true -> Words.well_spaced rest = true ->
  NoteText.getWordCount (pad1 ++ Words.text first rest ++ pad2)
  = S (List.length rest).
Proof.
  intros H1 H2 Hf Hr. unfold NoteText.getWordCount.
  rewrite trim_padded_text by assumption.
  rewrite split_spaces_text by assumption.
  cbn [List.length]. now rewrite length_map.
Qed.

Lemma word_count_counts_words_witness :
  NoteText.getWordCount
    ("  " ++ Words.text "to" [(" ", "be"); (String (ascii_of_nat 10) " ", "or"); ("   ", "not")]
          ++ " ")
  = 4.
Proof.
  apply (word_count_counts_words
           "  " " " "to"
           [(" ", "be"); (String (ascii_of_nat 10) " ", "or"); ("   ", "not")]);
    reflexivity.
Defined.

(** ** The summary and the analytics *)

Lemma same_type_eq (a b : FileType) : Summary.same_type a b = true <-> a = b.
Proof. destruct a, b; cbn; split; intros H; (reflexivity || discriminate H). Qed.

Lemma bytes_app (a b : list File.t) :
  Census.bytes (a ++ b)%list = (Census.bytes a + Census.bytes b)%Z.
Proof.
  unfold Census.bytes.
  induction a as [|x a IH]; cbn [app fold_right]; [reflexivity | rewrite IH; lia].
Qed.

Lemma accumulate_fold (l : list File.t) :
  forall acc,
    Summary.totalFiles (fold_left Summary.accumulate l acc)
    = Summary.totalFiles acc + List.length l
    /\ Summary.totalSize (fold_left Summary.accumulate l acc)
       = (Summary.totalSize acc + Census.bytes l)%Z
    /\ forall t,
        Census.count_of (fold_left Summary.accumulate l acc) t
        = Census.count_of acc t
          + List.length (filter (fun f => Summary.same_type (File.type f) t) l).
Proof.
  induction l as [|f l IH]; intros acc.
  - cbn [fold_left List.length Census.bytes fold_right filter].
    split; [lia |]. split; [lia |]. intros t. lia.
  - cbn [fold_left]. destruct (IH (Summary.accumulate acc f)) as (H1 & H2 & H3).
    rewrite H1, H2.
    change (Census.bytes (f :: l)) with (File.size f + Census.bytes l)%Z.
    cbn [Summary.accumulate Summary.totalFiles Summary.totalSize List.length].
    split; [lia |]. split; [lia |].
    intros t. rewrite H3. cbn [filter].
    destruct t;
      cbn [Census.count_of Summary.accumulate Summary.imageCount Summary.pdfCount
             Summary.documentCount Summary.otherCount];
      unfold Summary.one_if; destruct (File.type f);
      cbn [Summary.same_type List.length]; lia.
Qed.

Lemma fileStatsData_fold (uid : Id) (l : list File.t) :
  Summary.fileStatsData uid l
  = fold_left Summary.accumulate (Summary.matched uid l) Summary.zero_stats.
Proof.
  unfold Summary.fileStatsData, Summary.fileStats.
  destruct (Summary.matched uid l); reflexivity.
Qed.

Lemma types_partition (l : list File.t) :
  List.length l
  = List.length (filter (fun f => Summary.same_type (File.type f) image) l)
    + List.length (filter (fun f => Summary.same_type (File.type f) pdf) l)
    + List.length (filter (fun f => Summary.same_type (File.type f) document) l)
    + List.length (filter (fun f => Summary.same_type (File.type f) other) l).
Proof.
  induction l as [|f l IH]; [reflexivity |].
  cbn [filter List.length]. destruct (File.type f); cbn; lia.
Qed.

Lemma owned_bytes_matched (uid : Id) (l : list File.t) :
  Quota.owned_bytes uid l = Census.bytes (Summary.matched uid l).
Proof.
  induction l as [|f l IH]; [reflexivity |].
  cbn [Quota.owned_bytes fold_right Summary.matched filter].
  fold (Quota.owned_bytes uid l). fold (Summary.matched uid l).
  destruct (Nat.eqb (File.owner f) uid); cbn; now rewrite IH.
Qed.

(** X21. In the summary, totalFiles is the number of files the user owns,
    the four type counts add up to it, each type count is the number of
    the user's files of that type, and totalSize is the sum of the sizes
    of the user's files; with no file all of them are 0. *)
Theorem summary_counts_add_up (uid : Id) (l : list File.t) :
  Summary.totalFiles (Summary.fileStatsData uid l)
  = List.length (Summary.matched uid l)
  /\ Summary.totalFiles (Summary.fileStatsData uid l)
     = Summary.imageCount (Summary.fileStatsData uid l)
       + Summary.pdfCount (Summary.fileStatsData uid l)
       + Summary.documentCount (Summary.fileStatsData uid l)
       + Summary.otherCount (Summary.fileStatsData uid l)
  /\ (forall t, Census.count_of (Summary.fileStatsData uid l) t
                = List.length (Census.of_type uid t l))
  /\ Summary.totalSize (Summary.fileStatsData uid l) = Quota.owned_bytes uid l.
Proof.
  rewrite fileStatsData_fold.
  destruct (accumulate_fold (Summary.matched uid l) Summary.zero_stats)
    as (H1 & H2 & H3).
  split; [exact H1 |]. split; [| split].
  - rewrite H1, (types_partition (Summary.matched uid l)).
    pose proof (H3 image) as Hi. pose proof (H3 pdf) as Hp.
    pose proof (H3 document) as Hd. pose proof (H3 other) as Ho.
    cbn [Census.count_of Summary.zero_stats Summary.imageCount Summary.pdfCount
           Summary.documentCount Summary.otherCount] in Hi, Hp, Hd, Ho.
    cbn [Summary.zero_stats Summary.totalFiles]. lia.
  - intros t. rewrite H3. unfold Census.of_type. destruct t; reflexivity.
  - rewrite H2, owned_bytes_matched. cbn [Summary.zero_stats Summary.totalSize]. lia.
Qed.

Lemma lookup_add_to_group (f : File.t) (t : FileType) (G : list Summary.TypeGroup) :
  find (fun g => Summary.same_type (Summary._id g) t) (Summary.add_to_group f G)
  = if Summary.same_type (File.type f) t
    then Some (match find (fun g => Summary.same_type (Summary._id g) t) G with
               | Some g => Summary.mkGroup (Summary._id g) (Summary.count g + 1)
                                           (Summary.size g + File.size f)
               | None => Summary.mkGroup (File.type f) 1 (File.size f)
               end)
    else find (fun g => Summary.same_type (Summary._id g) t) G.
Proof.
  induction G as [|g R IH].
  - cbn [Summary.add_to_group find Summary._id].
    destruct (Summary.same_type (File.type f) t); reflexivity.
  - cbn [Summary.add_to_group].
    destruct (Summary.same_type (Summary._id g) (File.type f)) eqn:Egf.
    + apply same_type_eq in Egf. cbn [find Summary._id]. rewrite Egf.
      destruct (Summary.same_type (File.type f) t); rewrite ?Egf; reflexivity.
    + cbn [find]. rewrite IH.
      destruct (Summary.same_type (Summary._id g) t) eqn:Egt; [| reflexivity].
      apply same_type_eq in Egt. rewrite Egt in Egf.
      destruct (Summary.same_type (File.type f) t) eqn:Eft; [| reflexivity].
      apply same_type_eq in Eft. rewrite Eft in Egf.
      destruct t; discriminate Egf.
Qed.

Lemma ids_add_to_group (f : File.t) (G : list Summary.TypeGroup) :
  forall t, In t (map Summary._id (Summary.add_to_group f G)) ->
            t = File.type f \/ In t (map Summary._id G).
Proof.
  induction G as [|g R IH]; intros t H.
  - cbn in H. destruct H as [<-|[]]. now left.
  - cbn [Summary.add_to_group] in H.
    destruct (Summary.same_type (Summary._id g) (File.type f)).
    + right. exact H.
    + cbn [map] in H. destruct H as [<-|H]; [right; now left |].
      destruct (IH t H); [now left | right; now right].
Qed.

Lemma nodup_add_to_group (f : File.t) (G : list Summary.TypeGroup) :
  NoDup (map Summary._id G) -> NoDup (map Summary._id (Summary.add_to_group f G)).
Proof.
  induction G as [|g R IH]; intros H.
  - cbn. constructor; [intros [] | constructor].
  - cbn [Summary.add_to_group].
    destruct (Summary.same_type (Summary._id g) (File.type f)) eqn:E; [exact H |].
    cbn [map] in *. inversion H as [|? ? Hg HR]; subst.
    constructor; [| now apply IH].
    intros Hin. destruct (ids_add_to_group f R _ Hin) as [Heq|Hin'];
      [| now apply Hg].
    rewrite Heq in E. destruct (File.type f); discriminate E.
Qed.

Lemma breakdown_lookup (t : FileType) (G : list Summary.TypeGroup) :
  NoDup (map Summary._id G) ->
  forall acc,
    fold_left (fun acc item =>
                 if Summary.same_type (Summary._id item) t
                 then Some (Summary.count item, Summary.size item) else acc)
              G acc
    = match find (fun g => Summary.same_type (Summary._id g) t) G with
      | Some g => Some (Summary.count g, Summary.size g)
      | None => acc
      end.
Proof.
  induction G as [|g R IH]; intros H acc; [reflexivity |].
  cbn [map] in H. inversion H as [|? ? Hg HR]; subst.
  cbn [fold_left find]. rewrite (IH HR).
  destruct (Summary.same_type (Summary._id g) t) eqn:E; [| reflexivity].
  apply same_type_eq in E.
  destruct (find (fun g0 => Summary.same_type (Summary._id g0) t) R) as [g'|] eqn:F;
    [| reflexivity].
  exfalso. apply find_some in F. destruct F as [Hin Hid].
  apply same_type_eq in Hid. apply Hg. rewrite E, <- Hid. now apply in_map.
Qed.

Lemma groups_lookup (t : FileType) (m : list File.t) :
  NoDup (map Summary._id (fold_left (fun groups f => Summary.add_to_group f groups) m []))
  /\ find (fun g => Summary.same_type (Summary._id g) t)
          (fold_left (fun groups f => Summary.add_to_group f groups) m [])
     = match filter (fun f => Summary.same_type (File.type f) t) m with
       | [] => None
       | x :: r => Some (Summary.mkGroup t (List.length (x :: r)) (Census.bytes (x :: r)))
       end.
Proof.
  induction m as [|f m [IHn IHl]] using rev_ind.
  - split; [constructor | reflexivity].
  - rewrite fold_left_app. cbn [fold_left].
    split; [now apply nodup_add_to_group |].
    rewrite lookup_add_to_group, IHl, filter_app. cbn [filter].
    destruct (Summary.same_type (File.type f) t) eqn:E.
    + apply same_type_eq in E.
      destruct (filter (fun f0 => Summary.same_type (File.type f0) t) m) as [|x r].
      * cbn. now rewrite E, Z.add_0_r.
      * cbn [Summary._id Summary.count Summary.size app].
        f_equal. f_equal.
        -- cbn [List.length]. rewrite length_app. cbn. lia.
        -- change (x :: (r ++ [f])%list) with ((x :: r) ++ [f])%list.
           rewrite bytes_app. cbn. lia.
    + now rewrite app_nil_r.
Qed.

(** X22. The breakdown by type agrees with the file statistics of the same
    summary: a type of which the user has no file has no entry (rather
    than an entry of zeros), and the entry of any other type holds the
    count that fileStats reports for the type and the sum of the sizes of
    the user's files of that type. *)
Theorem breakdown_agrees_with_file_stats (uid : Id) (l : list File.t) (t : FileType) :
  match Summary.storageBreakdown (Summary.storageByType uid l) t with
  | None => Census.of_type uid t l = []
  | Some (count, size) =>
      0 < count
      /\ count = Census.count_of (Summary.fileStatsData uid l) t
      /\ size = Census.bytes (Census.of_type uid t l)
  end.
Proof.
  unfold Summary.storageBreakdown, Summary.storageByType.
  destruct (groups_lookup t (Summary.matched uid l)) as [Hn Hl].
  rewrite (breakdown_lookup t _ Hn), Hl.
  assert (Hc : Census.count_of (Summary.fileStatsData uid l) t
               = List.length (Census.of_type uid t l)).
  { rewrite fileStatsData_fold.
    destruct (accumulate_fold (Summary.matched uid l) Summary.zero_stats)
      as (_ & _ & H3).
    rewrite H3. unfold Census.of_type. destruct t; reflexivity. }
  rewrite Hc. unfold Census.of_type.
  destruct (filter (fun f => Summary.same_type (File.type f) t) (Summary.matched uid l));
    [reflexivity |].
  cbn [Summary.count Summary.size List.length]. repeat split. lia.
Qed.

Lemma growth_fold (l : list Analytics.Daily) :
  forall c acc,
    fold_left
      (fun (st : Z * list Analytics.Growth) item =>
         let cumulativeStorage := (fst st + Analytics.dailyStorage item)%Z in
         (cumulativeStorage,
          (snd st ++ [Analytics.mkGrowth (Analytics.date item) cumulativeStorage])%list))
      l (c, acc)
    = ((c + Running.total l)%Z,
       (acc ++ map (fun k => Analytics.mkGrowth
                               (Analytics.date (nth k l (Analytics.mkDaily EmptyString 0)))
                               (c + Running.total (firstn (S k) l))%Z)
                   (seq 0 (List.length l)))%list).
Proof.
  induction l as [|x l IH]; intros c acc.
  - cbn. now rewrite Z.add_0_r, app_nil_r.
  - cbn [fold_left fst snd]. cbv zeta. rewrite IH.
    cbn [Running.total fold_right List.length seq map nth firstn].
    fold (Running.total l). f_equal; [lia |].
    rewrite <- app_assoc. cbn [app]. f_equal. f_equal.
    + f_equal. lia.
    + rewrite <- seq_shift, map_map. apply map_ext. intros k.
      cbn [nth firstn Running.total fold_right]. f_equal.
      fold (Running.total (firstn (S k) l)).
      change (match l with [] => [] | a :: l0 => a :: firstn k l0 end) with (firstn (S k) l).
      lia.
Qed.

(** X23. The storage growth of the analytics is a running total: it has
    one entry per day in the order given, each with the date of its day,
    and the storage of the k-th entry is the sum of the daily storage of
    the days up to and including the k-th. *)
Theorem storage_growth_is_running_total (storageGrowth : list Analytics.Daily) :
  map Analytics.growth_date (Analytics.cumulativeStorageGrowth storageGrowth)
  = map Analytics.date storageGrowth
  /\ forall k,
      nth_error (map Analytics.storage
                     (Analytics.cumulativeStorageGrowth storageGrowth)) k
      = if Nat.ltb k (List.length storageGrowth)
        then Some (Running.total (firstn (S k) storageGrowth))
        else None.
Proof.
  unfold Analytics.cumulativeStorageGrowth. rewrite growth_fold.
  cbn [snd app]. split.
  - rewrite map_map. cbn [Analytics.growth_date].
    apply nth_ext with (d := EmptyString) (d' := EmptyString).
    + now rewrite !length_map, length_seq.
    + intros n Hn. rewrite length_map, length_seq in Hn.
      rewrite (nth_indep _ EmptyString
                 (Analytics.date (nth 0 storageGrowth (Analytics.mkDaily EmptyString 0))))
        by (now rewrite length_map, length_seq).
      rewrite (map_nth (fun k => Analytics.date (nth k storageGrowth _)) _ 0).
      rewrite seq_nth by exact Hn. cbn [Nat.add].
      rewrite (nth_indep _ EmptyString (Analytics.date (Analytics.mkDaily EmptyString 0)))
        by (now rewrite length_map).
      now rewrite map_nth.
  - intros k. rewrite map_map. cbn [Analytics.storage].
    destruct (Nat.ltb k (List.length storageGrowth)) eqn:E.
    + apply Nat.ltb_lt in E.
      rewrite (nth_error_nth' _ 0%Z) by (now rewrite length_map, length_seq).
      f_equal.
      rewrite (nth_indep _ 0%Z (0 + Running.total (firstn (S 0) storageGrowth))%Z)
        by (now rewrite length_map, length_seq).
      rewrite (map_nth (fun k => (0 + Running.total (firstn (S k) storageGrowth))%Z) _ 0).
      rewrite seq_nth by exact E. cbn [Nat.add]. lia.
    + apply Nat.ltb_ge in E. apply nth_error_None.
      now rewrite length_map, length_seq.
Qed.

(** ** What a request leaves alone *)

Section OwnedIds.

Variable uid : Id.
Variable mine : Id -> Prop.



End OwnedIds.


Lemma others_same_refl (uid : Id) (w : World) : Others.same uid w w.
Proof. unfold Others.same. repeat split; auto. Qed.




Lemma documents_owner (uid : Id) (folder : option Id) (batch : list Upload.t) :
  forall oid x, In x (Recorded.documents uid folder oid batch) -> File.owner x = uid.
Proof.
  induction batch as [|file rest IH]; intros oid x H; [destruct H |].
  cbn [Recorded.documents In] in H. destruct H as [<-|H]; [reflexivity | eauto].
Qed.

Lemma file_same_id_same_doc (l : list File.t) (a b : File.t) :
  NoDup (map File._id l) -> In a l -> In b l -> File._id a = File._id b -> a = b.
Proof.
  induction l as [|x l IH]; cbn [map In]; intros Hnd Ha Hb E; [contradiction |].
  inversion Hnd as [|? ? Hx Hnd']; subst.
  destruct Ha as [-> | Ha], Hb as [-> | Hb]; auto.
  - exfalso. apply Hx. rewrite E. now apply in_map.
  - exfalso. apply Hx. rewrite <- E. now apply in_map.
Qed.

Lemma note_same_id_same_doc (l : list Note.t) (a b : Note.t) :
  NoDup (map Note._id l) -> In a l -> In b l -> Note._id a = Note._id b -> a = b.
Proof.
  induction l as [|x l IH]; cbn [map In]; intros Hnd Ha Hb E; [contradiction |].
  inversion Hnd as [|? ? Hx Hnd']; subst.
  destruct Ha as [-> | Ha], Hb as [-> | Hb]; auto.
  - exfalso. apply Hx. rewrite E. now apply in_map.
  - exfalso. apply Hx. rewrite <- E. now apply in_map.
Qed.

Lemma notes_findOwned_some (l : list Note.t) (id uid : Id) (n : Note.t) :
  Notes.findOwned l id uid = Some n ->
  In n l /\ Note._id n = id /\ Note.owner n = uid.
Proof.
  unfold Notes.findOwned. intros H. apply find_some in H.
  destruct H as [Hin H]. apply andb_true_iff in H. destruct H as [H1 H2].
  apply Nat.eqb_eq in H1, H2. auto.
Qed.

(** X25. Uploading, deleting and duplicating a file and deleting a note
    leave the documents of every other user as they are, when ids are
    unique within a collection: a request never removes, adds or changes
    a file or a note of another owner, even when it names its id. *)
Theorem file_and_note_writes_leave_other_users_alone (w : World) :
  NoDup (map File._id (files w)) -> NoDup (map Note._id (notes w)) ->
  (forall batch folder,
      Others.same (User._id (user w)) w (snd (Files.upload batch folder w)))
  /\ (forall id, Others.same (User._id (user w)) w (snd (Files.remove id w)))
  /\ (forall extname basename path_join oid_toString uniqueSuffix id,
         Others.same (User._id (user w)) w
                     (snd (Files.duplicate extname basename path_join oid_toString
                                           uniqueSuffix id w)))
  /\ (forall id, Others.same (User._id (user w)) w (snd (Notes.remove id w))).
Proof.
  intros Hf Hn. split; [| split; [| split]].
  - intros batch folder. destruct batch as [|file rest];
      [apply others_same_refl |].
    destruct (User.hasEnoughStorage (user w) (Files.totalSize (file :: rest))) eqn:Hq.
    + rewrite upload_accepted by (congruence || exact Hq).
      unfold Others.same. cbn [snd folders files notes].
      split; [intros; reflexivity | split; [| intros; reflexivity]].
      intros x Hx. rewrite in_app_iff. split; [tauto |].
      intros [H|H]; [exact H |]. elim Hx. eapply documents_owner; exact H.
    + rewrite upload_rejected by (congruence || exact Hq).
      unfold Others.same, with_disk. cbn [snd folders files notes].
      repeat split; auto.
  - intros id. unfold Files.remove.
    destruct (Files.findOwned (files w) id (User._id (user w))) as [file|] eqn:E;
      [| apply others_same_refl].
    destruct (files_findOwned_some _ _ _ _ E) as (Hin & _ & Ho).
    unfold Others.same, with_files, with_user, with_disk.
    cbn [snd folders files notes].
    split; [intros; reflexivity | split; [| intros; reflexivity]].
    intros x Hx. rewrite filter_In. split; [| tauto].
    intros Hxin. split; [exact Hxin |].
    destruct (Nat.eqb (File._id x) (File._id file)) eqn:Ei; [| reflexivity].
    apply Nat.eqb_eq in Ei. elim Hx.
    now rewrite (file_same_id_same_doc _ x file Hf Hxin Hin Ei).
  - intros extname basename path_join oid_toString uniqueSuffix id.
    unfold Files.duplicate.
    destruct (Files.findOwned (files w) id (User._id (user w))) as [file|];
      [| apply others_same_refl].
    destruct (negb (User.hasEnoughStorage (user w) (File.size file)));
      [apply others_same_refl |].
    destruct (negb (Fs.existsSync (disk w) (File.path file)));
      [apply others_same_refl |].
    unfold Others.same, fresh_oid, with_files, with_user, with_disk.
    cbn [snd folders files notes].
    split; [intros; reflexivity | split; [| intros; reflexivity]].
    intros x Hx. rewrite in_app_iff. cbn [In]. split; [tauto |].
    intros [H|[H|[]]]; [exact H |]. subst x. now elim Hx.
  - intros id. unfold Notes.remove.
    destruct (Notes.findOwned (notes w) id (User._id (user w))) as [note|] eqn:E;
      [| apply others_same_refl].
    destruct (notes_findOwned_some _ _ _ _ E) as (Hin & _ & Ho).
    unfold Others.same, with_notes. cbn [snd folders files notes].
    split; [intros; reflexivity | split; [intros; reflexivity |]].
    intros x Hx. rewrite filter_In. split; [| tauto].
    intros Hxin. split; [exact Hxin |].
    destruct (Nat.eqb (Note._id x) (Note._id note)) eqn:Ei; [| reflexivity].
    apply Nat.eqb_eq in Ei. elim Hx.
    now rewrite (note_same_id_same_doc _ x note Hn Hxin Hin Ei).
Qed.

Lemma file_and_note_writes_leave_other_users_alone_witness :
  Others.same 1 Tree.nested (snd (Files.remove 3 Tree.nested)).
Proof.
  apply (proj1 (proj2 (file_and_note_writes_leave_other_users_alone
                         Tree.nested
                         ltac:(vm_compute; constructor; [intros [] | constructor])
                         ltac:(vm_compute; constructor)))).
Defined.


(** ** Create and delete *)

Lemma folder_find_new (l : list Folder.t) (doc : Folder.t) (uid : Id) :
  Folder.owner doc = uid ->
  (forall f, In f l -> Folder._id f <> Folder._id doc) ->
  FolderQuery.findOwned (l ++ [doc]) (Folder._id doc) uid = Some doc
  /\ FolderQuery.deleteById (Folder._id doc) (l ++ [doc]) = l.
Proof.
  intros <- Hold. unfold FolderQuery.findOwned, FolderQuery.deleteById. split.
  - induction l as [|x l IH]; cbn [app find].
    + now rewrite !Nat.eqb_refl.
    + destruct (Nat.eqb (Folder._id x) (Folder._id doc)) eqn:E.
      * apply Nat.eqb_eq in E. elim (Hold x (or_introl eq_refl) E).
      * cbn [andb]. apply IH. intros f Hf. apply Hold. now right.
  - induction l as [|x l IH]; cbn [app filter].
    + now rewrite Nat.eqb_refl.
    + destruct (Nat.eqb (Folder._id x) (Folder._id doc)) eqn:E.
      * apply Nat.eqb_eq in E. elim (Hold x (or_introl eq_refl) E).
      * cbn [negb]. f_equal. apply IH. intros f Hf. apply Hold. now right.
Qed.

Lemma filter_nothing {A : Type} (P : A -> bool) (l : list A) :
  (forall x, In x l -> P x = false) -> filter P l = [].
Proof.
  induction l as [|x l IH]; intros H; [reflexivity |].
  cbn [filter]. rewrite (H x (or_introl eq_refl)).
  apply IH. intros y Hy. apply H. now right.
Qed.

Lemma filter_everything {A : Type} (P : A -> bool) (l : list A) :
  (forall x, In x l -> P x = true) -> filter P l = l.
Proof.
  induction l as [|x l IH]; intros H; [reflexivity |].
  cbn [filter]. rewrite (H x (or_introl eq_refl)). f_equal.
  apply IH. intros y Hy. apply H. now right.
Qed.

Lemma create_parent_known (name : string) (description : option string)
      (parentFolder : option Id) (color : option string) (w w1 : World)
      (folder : Folder.t) (p : Id) :
  Folders.create name description parentFolder color w = (Ok folder, w1) ->
  parentFolder = Some p ->
  exists parent, In parent (folders w) /\ Folder._id parent = p.
Proof.
  intros H ->. unfold Folders.create in H.
  destruct (existsb _ (folders w)); [discriminate H |].
  destruct (FolderQuery.findOwned (folders w) p (User._id (user w))) as [parent|] eqn:E;
    [| discriminate H].
  destruct (findOwned_some _ _ _ _ E) as (Hin & Hid & _). now exists parent.
Qed.

(** X27. Creating a folder and then deleting it is a round trip: the
    delete needs no [force], succeeds, and leaves the user document, the
    three collections and the upload directory exactly as they were
    before the create; only the id counter has moved on. *)
Theorem create_then_delete_restores
        (name : string) (description : option string) (parentFolder : option Id)
        (color : option string) (fuel : nat) (force : bool) (w w1 : World)
        (folder : Folder.t) :
  Invariant.ids_fresh w -> Refs.known w ->
  Folders.create name description parentFolder color w = (Ok folder, w1) ->
  Folders.remove (S fuel) (Folder._id folder) force w1
  = Some (Ok tt, snd (fresh_oid w)).
Proof.
  intros [Hnd Hlt] (Hrf & Hrx & Hrn) Hc.
  rewrite Forall_forall in Hlt, Hrf, Hrx, Hrn.
  destruct (create_ok _ _ _ _ _ _ _ Hc) as (-> & Hid & _ & Ho & Hp & _).
  assert (Hold : forall f, In f (folders w) -> Folder._id f <> Folder._id folder).
  { intros f Hf. specialize (Hlt f Hf). lia. }
  destruct (folder_find_new (folders w) folder (User._id (user w)) Ho Hold)
    as [Hfind Hdel].
  assert (Hsub : filter (FolderQuery.is_child_of (Folder._id folder) (User._id (user w)))
                        (folders w ++ [folder]) = []).
  { apply filter_nothing. intros f Hf. unfold FolderQuery.is_child_of.
    destruct (same_ref (Folder.parentFolder f) (Some (Folder._id folder))) eqn:E;
      [| reflexivity].
    exfalso. apply same_ref_eq in E. apply in_app_iff in Hf.
    destruct Hf as [Hf|[<-|[]]].
    - specialize (Hrf f Hf _ E). lia.
    - rewrite Hp in E.
      destruct (create_parent_known _ _ _ _ _ _ _ _ Hc E) as (parent & Hin & Hpid).
      now apply (Hold parent Hin). }
  assert (Hfiles : forall x, In x (files w) ->
                             negb (same_ref (File.folder x) (Some (Folder._id folder))
                                   && Nat.eqb (File.owner x) (User._id (user w))) = true).
  { intros x Hx.
    destruct (same_ref (File.folder x) (Some (Folder._id folder))) eqn:E;
      [| reflexivity].
    exfalso. apply same_ref_eq in E. specialize (Hrx x Hx _ E). lia. }
  assert (Hnotes : forall n, In n (notes w) ->
                             negb (same_ref (Note.folder n) (Some (Folder._id folder))
                                   && Nat.eqb (Note.owner n) (User._id (user w))) = true).
  { intros n Hn.
    destruct (same_ref (Note.folder n) (Some (Folder._id folder))) eqn:E;
      [| reflexivity].
    exfalso. apply same_ref_eq in E. specialize (Hrn n Hn _ E). lia. }
  unfold Folders.remove. cbn [user folders]. rewrite Hfind.
  unfold Folders.totalItems. cbn [user folders files notes]. rewrite Hsub.
  rewrite (filter_nothing _ (files w))
    by (intros x Hx; apply negb_true_iff; now apply Hfiles).
  rewrite (filter_nothing _ (notes w))
    by (intros n Hn; apply negb_true_iff; now apply Hnotes).
  cbn [List.length Nat.add Nat.ltb Nat.leb andb].
  cbn [Folders.deleteFolder user folders]. rewrite Hsub. cbn [fold_left].
  unfold with_files, with_notes, with_folders, fresh_oid.
  cbn [user folders files notes disk next_oid snd].
  rewrite (filter_everything _ (files w)) by exact Hfiles.
  rewrite (filter_everything _ (notes w)) by exact Hnotes.
  now rewrite Hdel.
Qed.

Lemma create_then_delete_restores_witness :
  Folders.remove 1 10 false
                 (snd (Folders.create "A" None None None Scenario.empty_world))
  = Some (Ok tt, snd (fresh_oid Scenario.empty_world)).
Proof.
  apply (create_then_delete_restores
           "A" None None None 0 false Scenario.empty_world
           (snd (Folders.create "A" None None None Scenario.empty_world))
           (Folder.mk 10 "A" None 1 None "A" false Folders.default_color)).
  - split; vm_compute; constructor.
  - repeat split; vm_compute; constructor.
  - reflexivity.
Defined.
